(** * The replayable preprocessing pipeline of object_detection/core/preprocessor.py

    A shallow embedding of the random-variable cache, of the flip, jitter,
    retain and crop operations and of the [preprocess] orchestrator, with the
    properties the specification states about them.

    Tensors hold IEEE-754 binary32 values ([SpecFloat] at precision 24);
    Python scalars given as keyword parameters are binary64 values. *)

From Stdlib Require Import ZArith Bool SpecFloat Sorted.
From stdpp Require Import base option list sorting gmap strings fin_maps
  pretty.

Local Open Scope Z_scope.

(** ** Floating point *)

(** float32: the element type of every float tensor of the pipeline. *)
Module F32.
Definition prec : Z := 24.
Definition emax : Z := 128.
Definition t : Type := spec_float.

(** The float32 nearest to [m * 2^e]. *)
Definition of_Z_exp (m e : Z) : t := binary_normalize prec emax m e false.

Definition zero : t := S754_zero false.
Definition one : t := of_Z_exp 1 0.
Definition half : t := of_Z_exp 1 (-1).
Definition nan : t := S754_nan.

Definition add : t -> t -> t := SFadd prec emax.
Definition sub : t -> t -> t := SFsub prec emax.
Definition mul : t -> t -> t := SFmul prec emax.

(** tf.greater, tf.greater_equal, tf.is_nan on one element. *)
Definition greater (x y : t) : bool := SFltb y x.
Definition greater_equal (x y : t) : bool := SFleb y x.
Definition is_nan (x : t) : bool :=
  match x with S754_nan => true | _ => false end.

(** tf.maximum and tf.minimum on one element, as the comparison-and-select
    the kernels perform. *)
Definition maximum (x y : t) : t := if SFltb x y then y else x.
Definition minimum (x y : t) : t := if SFltb y x then y else x.

(** tf.clip_by_value(x, lo, hi) = minimum(maximum(x, lo), hi). *)
Definition clip_by_value (x lo hi : t) : t := minimum (maximum x lo) hi.
End F32.

(** Python float: the type of scalar keyword parameters ([random_coef],
    [threshold], [min_object_covered], ...). *)
Module F64.
Definition prec : Z := 53.
Definition emax : Z := 1024.
Definition t : Type := spec_float.

Definition of_Z_exp (m e : Z) : t := binary_normalize prec emax m e false.

Definition zero : t := S754_zero false.
Definition one : t := of_Z_exp 1 0.

(** sys.float_info.min, the smallest positive normal double, 2^-1022. *)
Definition float_info_min : t := of_Z_exp 1 (-1022).

(** Python's [x < y] on floats. *)
Definition lt (x y : t) : bool := SFltb x y.

(** The float32 a Python float becomes when it meets a float32 tensor
    (round to nearest, ties to even). *)
Definition to_f32 (x : t) : F32.t :=
  match x with
  | S754_finite s m e =>
      binary_normalize F32.prec F32.emax (cond_Zopp s (Zpos m)) e s
  | _ => x
  end.
End F64.

#[global] Arguments F32.add : simpl never.
#[global] Arguments F32.sub : simpl never.
#[global] Arguments F32.mul : simpl never.
#[global] Arguments F32.greater : simpl never.
#[global] Arguments F32.greater_equal : simpl never.
#[global] Arguments F32.clip_by_value : simpl never.
#[global] Arguments F64.lt : simpl never.
#[global] Arguments F64.to_f32 : simpl never.

#[global] Instance spec_float_eq_dec : EqDecision spec_float.
Proof. solve_decision. Defined.

(** ** Tensors *)

(** One row [ymin, xmin, ymax, xmax] of a [N, 4] box tensor. *)
Record Box : Type := mkBox {
  ymin : F32.t;
  xmin : F32.t;
  ymax : F32.t;
  xmax : F32.t
}.

#[global] Instance Box_eq_dec : EqDecision Box.
Proof. solve_decision. Defined.

(** [height, width, channels] *)
Definition Image : Type := list (list (list F32.t)).
(** [num_instances, height, width] *)
Definition Masks : Type := list (list (list F32.t)).
(** [num_instances, num_keypoints, 2], each point is (y, x) *)
Definition Keypoints : Type := list (list (F32.t * F32.t)).

(** The tensors a record of the pipeline holds, by role.  [TExpand t] is
    tf.expand_dims(t, 0) of a tensor that is not a single image. *)
Inductive Tensor : Type :=
  | TImages (images : list Image)          (* rank 4 *)
  | TImage (image : Image)                 (* rank 3 *)
  | TBoxes (boxes : list Box)              (* rank 2, [N, 4] *)
  | TInts (values : list Z)                (* rank 1, int32 *)
  | TFloats (values : list F32.t)          (* rank 1, float32 *)
  | TScores (scores : list (list F32.t))   (* rank 2, [N, num_classes] *)
  | TMasks (masks : Masks)                 (* rank 3 *)
  | TKeypoints (keypoints : Keypoints)     (* rank 3 *)
  | TExpand (t : Tensor).

#[global] Instance Tensor_eq_dec : EqDecision Tensor.
Proof. solve_decision. Defined.

(** len(t.get_shape()) *)
Fixpoint rank (t : Tensor) : nat :=
  match t with
  | TImages _ => 4
  | TImage _ => 3
  | TBoxes _ => 2
  | TInts _ => 1
  | TFloats _ => 1
  | TScores _ => 2
  | TMasks _ => 3
  | TKeypoints _ => 3
  | TExpand t' => S (rank t')
  end.

(** tf.expand_dims(t, 0) *)
Definition expand_dims0 (t : Tensor) : Tensor :=
  match t with
  | TImage image => TImages [image]
  | _ => TExpand t
  end.

(** tf.squeeze(t, axis=0): defined when the leading dimension is 1. *)
Definition squeeze0 (t : Tensor) : option Tensor :=
  match t with
  | TImages [image] => Some (TImage image)
  | TExpand t' => Some t'
  | _ => None
  end.

(** *** Index selection *)

Fixpoint where_from (i : nat) (mask : list bool) : list nat :=
  match mask with
  | [] => []
  | b :: mask' => (if b then [i] else []) ++ where_from (S i) mask'
  end.

(** tf.squeeze(tf.where(mask), axis=1): the positions holding True, in
    increasing order. *)
Definition tf_where (mask : list bool) : list nat := where_from 0 mask.

(** tf.gather(params, indices) along the first axis; an index out of range is
    an error. *)
Definition tf_gather {A : Type} (params : list A) (indices : list nat)
  : option (list A) :=
  mapM (fun i => params !! i) indices.

(** An optional array at the given indices: None stays None. *)
Definition tf_gather_opt {A : Type} (params : option (list A))
    (indices : list nat) : option (option (list A)) :=
  match params with
  | Some l => Some <$> tf_gather l indices
  | None => Some None
  end.

#[global] Arguments tf_where mask : simpl never.
#[global] Arguments tf_gather {A} params indices : simpl never.

(** ** The random-variable cache *)

(** The operation identifiers of PreprocessorCache that the preprocessor
    names. *)
Inductive FunctionId : Type :=
  | ROTATION90 | HORIZONTAL_FLIP | VERTICAL_FLIP | PIXEL_VALUE_SCALE
  | IMAGE_SCALE | RGB_TO_GRAY | ADJUST_BRIGHTNESS | ADJUST_CONTRAST
  | ADJUST_HUE | ADJUST_SATURATION | STRICT_CROP_IMAGE | CROP_IMAGE
  | PAD_IMAGE | CROP_TO_ASPECT_RATIO | PAD_TO_ASPECT_RATIO
  | ADD_BLACK_PATCH | BLACK_PATCHES | SELECTOR | SELECTOR_TUPLES.

#[global] Instance FunctionId_eq_dec : EqDecision FunctionId.
Proof. solve_decision. Defined.

Definition FunctionId_to_nat (f : FunctionId) : nat :=
  match f with
  | ROTATION90 => 0 | HORIZONTAL_FLIP => 1 | VERTICAL_FLIP => 2
  | PIXEL_VALUE_SCALE => 3 | IMAGE_SCALE => 4 | RGB_TO_GRAY => 5
  | ADJUST_BRIGHTNESS => 6 | ADJUST_CONTRAST => 7 | ADJUST_HUE => 8
  | ADJUST_SATURATION => 9 | STRICT_CROP_IMAGE => 10 | CROP_IMAGE => 11
  | PAD_IMAGE => 12 | CROP_TO_ASPECT_RATIO => 13 | PAD_TO_ASPECT_RATIO => 14
  | ADD_BLACK_PATCH => 15 | BLACK_PATCHES => 16 | SELECTOR => 17
  | SELECTOR_TUPLES => 18
  end%nat.

Definition FunctionId_of_nat (n : nat) : option FunctionId :=
  match n with
  | 0 => Some ROTATION90 | 1 => Some HORIZONTAL_FLIP | 2 => Some VERTICAL_FLIP
  | 3 => Some PIXEL_VALUE_SCALE | 4 => Some IMAGE_SCALE | 5 => Some RGB_TO_GRAY
  | 6 => Some ADJUST_BRIGHTNESS | 7 => Some ADJUST_CONTRAST
  | 8 => Some ADJUST_HUE | 9 => Some ADJUST_SATURATION
  | 10 => Some STRICT_CROP_IMAGE | 11 => Some CROP_IMAGE | 12 => Some PAD_IMAGE
  | 13 => Some CROP_TO_ASPECT_RATIO | 14 => Some PAD_TO_ASPECT_RATIO
  | 15 => Some ADD_BLACK_PATCH | 16 => Some BLACK_PATCHES | 17 => Some SELECTOR
  | 18 => Some SELECTOR_TUPLES
  | _ => None
  end%nat.

#[global] Instance FunctionId_countable : Countable FunctionId.
Proof.
  refine (inj_countable FunctionId_to_nat FunctionId_of_nat _). by intros [].
Defined.

Definition spec_float_to_sum (x : spec_float)
  : bool + bool + unit + bool * positive * Z :=
  match x with
  | S754_zero s => inl (inl (inl s))
  | S754_infinity s => inl (inl (inr s))
  | S754_nan => inl (inr tt)
  | S754_finite s m e => inr (s, m, e)
  end.

Definition spec_float_of_sum (x : bool + bool + unit + bool * positive * Z)
  : spec_float :=
  match x with
  | inl (inl (inl s)) => S754_zero s
  | inl (inl (inr s)) => S754_infinity s
  | inl (inr _) => S754_nan
  | inr (s, m, e) => S754_finite s m e
  end.

#[global] Instance spec_float_countable : Countable spec_float.
Proof.
  refine (inj_countable' spec_float_to_sum spec_float_of_sum _). by intros [].
Defined.

(** The [key] argument of a cache access: the empty string by default, a
    string constant, a loop index, or a float parameter. *)
Inductive SubKey : Type :=
  | KStr (s : string)
  | KInt (n : Z)
  | KFloat (x : F64.t).

#[global] Instance SubKey_eq_dec : EqDecision SubKey.
Proof. solve_decision. Defined.

Definition SubKey_to_sum (k : SubKey) : string + Z + F64.t :=
  match k with
  | KStr s => inl (inl s)
  | KInt n => inl (inr n)
  | KFloat x => inr x
  end.

Definition SubKey_of_sum (s : string + Z + F64.t) : SubKey :=
  match s with
  | inl (inl s) => KStr s
  | inl (inr n) => KInt n
  | inr x => KFloat x
  end.

#[global] Instance SubKey_countable : Countable SubKey.
Proof.
  refine (inj_countable' SubKey_to_sum SubKey_of_sum _). by intros [].
Defined.

(** A Python float used as a dictionary key: 0.0 and -0.0 are equal and hash
    alike, so they name the same entry. *)
Definition float_key (x : F64.t) : SubKey :=
  KFloat (match x with S754_zero _ => S754_zero false | _ => x end).

(** What tf.image.sample_distorted_bounding_box returns: the begin and size
    vectors of the crop ([offset_y, offset_x, 0] and [height, width, -1]) and
    the crop window as a normalized box. *)
Record CropWindow : Type := mkCropWindow {
  cw_offset_y : nat;
  cw_offset_x : nat;
  cw_height : nat;
  cw_width : nat;
  cw_box : Box
}.

#[global] Instance CropWindow_eq_dec : EqDecision CropWindow.
Proof. solve_decision. Defined.

(** The random tensors the operations below draw and cache. *)
Inductive RandVar : Type :=
  | RVFloat (x : F32.t)
  | RVInt (n : Z)
  | RVCrop (w : CropWindow)
  | RVImage (x : Image)       (* a float32 tensor of the shape of an image *)
  | RVTuple (ns : list Z).    (* a tuple of int32 scalars *)

#[global] Instance RandVar_eq_dec : EqDecision RandVar.
Proof. solve_decision. Defined.

(** The contents of one PreprocessorCache object. *)
Abbreviation Cache := (gmap (FunctionId * SubKey) RandVar).

(** A reference to a PreprocessorCache object. *)
Definition cache_ref : Type := nat.

(** The mutable world of a call: the PreprocessorCache objects alive, by
    reference (an object never written to is empty), and the number of random
    tensors drawn so far. *)
Record State : Type := mkState {
  caches : gmap cache_ref Cache;
  draws : nat
}.

Definition cache_of (st : State) (r : cache_ref) : Cache :=
  default ∅ (caches st !! r).

(** ** Computations: state and exceptions *)

Inductive Error : Type :=
  | ValueError (message : string)
  | TypeError
  | IndexError
  | ZeroDivisionError
  | InvalidArgumentError.

Inductive Result (A : Type) : Type :=
  | Ok (a : A)
  | Raise (e : Error).
Arguments Ok {A} a.
Arguments Raise {A} e.

(** A computation runs from a state to a result and the state it leaves; an
    exception keeps the updates made before it. *)
Definition M (A : Type) : Type := State -> Result A * State.

#[global] Instance M_ret : MRet M := fun A a st => (Ok a, st).

#[global] Instance M_bind : MBind M := fun A B f m st =>
  match m st with
  | (Ok a, st') => f a st'
  | (Raise e, st') => (Raise e, st')
  end.

Definition raise {A : Type} (e : Error) : M A := fun st => (Raise e, st).

(** The value of an option, or the given exception. *)
Definition expect {A : Type} (e : Error) (o : option A) : M A :=
  match o with
  | Some a => mret a
  | None => raise e
  end.

(** Running a random op: the tensor it yields as the [n]-th draw of the
    session. *)
Definition fresh {A : Type} (generator_func : nat -> A) : M A :=
  fun st => (Ok (generator_func (draws st)),
             mkState (caches st) (S (draws st))).

(** Modelled from the spec: core/preprocessor_cache.py is not among the
    sources.  PreprocessorCache.get returns the value stored under
    (function_id, key), or None. *)
Definition cache_get (r : cache_ref) (function_id : FunctionId) (key : SubKey)
  : M (option RandVar) :=
  fun st => (Ok (cache_of st r !! (function_id, key)), st).

(** Modelled from the spec: PreprocessorCache.update stores the value under
    (function_id, key). *)
Definition cache_update (r : cache_ref) (function_id : FunctionId)
    (key : SubKey) (value : RandVar) : M unit :=
  fun st =>
    (Ok tt,
     mkState (<[r := <[(function_id, key) := value]> (cache_of st r)]>
                (caches st))
             (draws st)).

Definition _get_or_create_preprocess_rand_vars
    (generator_func : nat -> RandVar) (function_id : FunctionId)
    (preprocess_vars_cache : option cache_ref) (key : SubKey) : M RandVar :=
  match preprocess_vars_cache with
  | Some cache =>
      var ← cache_get cache function_id key;
      match var with
      | None =>
          var ← fresh generator_func;
          _ ← cache_update cache function_id key var;
          mret var
      | Some var => mret var
      end
  | None => fresh generator_func
  end.

(** A cached scalar read where a float32 scalar is expected. *)
Definition float_var (var : RandVar) : M F32.t :=
  match var with
  | RVFloat x => mret x
  | _ => raise TypeError
  end.

Definition int_var (var : RandVar) : M Z :=
  match var with
  | RVInt n => mret n
  | _ => raise TypeError
  end.

Definition crop_var (var : RandVar) : M CropWindow :=
  match var with
  | RVCrop w => mret w
  | _ => raise TypeError
  end.

(** ** What the preprocessor calls and does not define *)

(** TensorFlow's random ops.  The last argument is the position of the draw
    in the session; nothing is assumed of the values. *)
Class RandomOps : Type := {
  (** tf.random_uniform([], seed=seed) *)
  random_uniform : option Z -> nat -> F32.t;
  (** tf.random_uniform([], maxval=maxval, dtype=tf.int32) *)
  random_uniform_int : Z -> nat -> Z;
  (** tf.random_uniform([1, 1, 4], minval, maxval, seed=seed) *)
  random_uniform_4 : F32.t -> F32.t -> option Z -> nat -> Box;
  (** tf.image.sample_distorted_bounding_box(image_shape, bounding_boxes,
      min_object_covered, aspect_ratio_range, area_range, max_attempts=100,
      use_image_if_no_bounding_boxes=True) *)
  sample_distorted_bounding_box :
    nat * nat * nat -> list Box -> F64.t -> F64.t * F64.t -> F64.t * F64.t ->
    nat -> CropWindow
}.

(** The functions of core/keypoint_ops.py and core/box_list_ops.py that the
    operations below call; these modules are not among the sources, and
    nothing is assumed of the values they compute. *)
Class GeometryOps : Type := {
  (** keypoint_ops.flip_horizontal(keypoints, flip_point, permutation) *)
  keypoint_flip_horizontal : Keypoints -> F32.t -> list nat -> Keypoints;
  (** keypoint_ops.flip_vertical(keypoints, flip_point, permutation) *)
  keypoint_flip_vertical : Keypoints -> F32.t -> list nat -> Keypoints;
  (** whether a box lies completely outside a window *)
  completely_outside_window : Box -> Box -> bool;
  (** the fraction of a box's area that a window covers *)
  overlap_fraction : Box -> Box -> F32.t;
  (** a box in the coordinate frame of a window *)
  box_to_frame : Box -> Box -> Box;
  (** a keypoint in the coordinate frame of a window *)
  keypoint_to_frame : Box -> F32.t * F32.t -> F32.t * F32.t;
  (** whether a keypoint lies inside a window *)
  keypoint_in_window : Box -> F32.t * F32.t -> bool
}.

(** ** Image and box primitives *)

(** tf.shape(image) *)
Definition image_shape (image : Image) : nat * nat * nat :=
  (length image,
   match image with [] => 0 | row :: _ => length row end,
   match image with (px :: _) :: _ => length px | _ => 0 end)%nat.

(** tf.image.flip_left_right: reverse the width axis. *)
Definition flip_left_right (image : Image) : Image := map (@rev _) image.

(** tf.image.flip_up_down: reverse the height axis. *)
Definition flip_up_down (image : Image) : Image := rev image.

Definition _flip_boxes_left_right (boxes : list Box) : list Box :=
  map (fun b =>
         let flipped_xmin := F32.sub F32.one (xmax b) in
         let flipped_xmax := F32.sub F32.one (xmin b) in
         mkBox (ymin b) flipped_xmin (ymax b) flipped_xmax) boxes.

Definition _flip_boxes_up_down (boxes : list Box) : list Box :=
  map (fun b =>
         let flipped_ymin := F32.sub F32.one (ymax b) in
         let flipped_ymax := F32.sub F32.one (ymin b) in
         mkBox flipped_ymin (xmin b) flipped_ymax (xmax b)) boxes.

(** masks[:, :, ::-1] *)
Definition _flip_masks_left_right (masks : Masks) : Masks :=
  map (map (@rev _)) masks.

(** masks[:, ::-1, :] *)
Definition _flip_masks_up_down (masks : Masks) : Masks :=
  map (@rev _) masks.

(** The optional entries of a result list: [result.append(x)] under
    [if x is not None]. *)
Definition append_if {A : Type} (wrap : A -> Tensor) (x : option A)
  : list Tensor :=
  match x with
  | Some a => [wrap a]
  | None => []
  end.

(** ** retain_boxes_above_threshold *)

(** The kernels run with denormals read as zero: the comparison of two
    float32 tensors sees a subnormal element, one below 2^-126 in magnitude,
    as the zero of its sign. *)
Definition denormal_as_zero (x : F32.t) : F32.t :=
  match x with
  | S754_finite s m e =>
      if Z.pos (digits2_pos m) + e <=? -126 then S754_zero s else x
  | _ => x
  end.

(** [weights > threshold] on one element: the Python float becomes a float32
    constant, and the kernel compares the two float32 values. *)
Definition greater_than_threshold (w : F32.t) (threshold : F64.t) : bool :=
  F32.greater (denormal_as_zero w) (denormal_as_zero (F64.to_f32 threshold)).

Definition retain_boxes_above_threshold
    (boxes : list Box) (labels : list Z) (label_weights : list F32.t)
    (label_confidences : option (list F32.t))
    (multiclass_scores : option (list (list F32.t)))
    (masks : option Masks) (keypoints : option Keypoints)
    (threshold : F64.t) : M (list Tensor) :=
  let indices :=
    tf_where (map (fun w => greater_than_threshold w threshold
                            || F32.is_nan w) label_weights) in
  let gather {A : Type} (params : list A) : M (list A) :=
    expect InvalidArgumentError (tf_gather params indices) in
  let gather_opt {A : Type} (params : option (list A)) : M (option (list A)) :=
    match params with
    | Some l => l' ← gather l; mret (Some l')
    | None => mret None
    end in
  retained_boxes ← gather boxes;
  retained_labels ← gather labels;
  retained_label_weights ← gather label_weights;
  retained_label_confidences ← gather_opt label_confidences;
  retained_multiclass_scores ← gather_opt multiclass_scores;
  retained_masks ← gather_opt masks;
  retained_keypoints ← gather_opt keypoints;
  mret ([TBoxes retained_boxes; TInts retained_labels;
         TFloats retained_label_weights]
        ++ append_if TFloats retained_label_confidences
        ++ append_if TScores retained_multiclass_scores
        ++ append_if TMasks retained_masks
        ++ append_if TKeypoints retained_keypoints).

(** ** Graph construction *)

(** The preprocessor builds a TensorFlow graph: calling an operation runs its
    Python code (cache reads and writes, creation of random ops, configuration
    errors) whether or not the tensors it returns are ever evaluated.
    [InvalidArgumentError] is the failure of an op when the session evaluates
    it; the other errors are raised by the Python code itself. *)
Definition at_run_time (e : Error) : bool :=
  match e with
  | InvalidArgumentError => true
  | _ => false
  end.

(** Calling a function that builds a subgraph: its Python effects happen, and
    what it returns is kept unevaluated. *)
Definition build {A : Type} (m : M A) : M (Result A) :=
  fun st =>
    match m st with
    | (Ok a, st') => (Ok (Ok a), st')
    | (Raise e, st') =>
        if at_run_time e then (Ok (Raise e), st') else (Raise e, st')
    end.

(** Evaluating what a subgraph returns. *)
Definition evaluate {A : Type} (r : Result A) : M A := fun st => (r, st).

(** tf.cond(pred, true_fn, false_fn): both callables are called while the
    graph is built, the predicate selects the one evaluated. *)
Definition tf_cond {A : Type} (pred : bool) (true_fn false_fn : M A) : M A :=
  t ← build true_fn;
  f ← build false_fn;
  evaluate (if pred then t else f).

Definition _apply_with_random_selector_tuples `{RandomOps}
    {X : Type} (x : X) (func : X -> nat -> M (list Tensor)) (num_cases : nat)
    (preprocess_vars_cache : option cache_ref) (key : SubKey)
  : M (list Tensor) :=
  let generator_func n := RVInt (random_uniform_int (Z.of_nat num_cases) n) in
  var ← _get_or_create_preprocess_rand_vars
          generator_func SELECTOR_TUPLES preprocess_vars_cache key;
  rand_sel ← int_var var;
  (* every case is built on the switched inputs; merge keeps the output of
     the case equal to rand_sel *)
  tuples ← mapM (fun case => build (func x case)) (seq 0 num_cases);
  match (if decide (0 <= rand_sel) then tuples !! Z.to_nat rand_sel
         else None) with
  | Some output => evaluate output
  | None => raise InvalidArgumentError
  end.

(** ** Random flips *)

Definition random_horizontal_flip `{RandomOps} `{GeometryOps}
    (image : Image) (boxes : option (list Box)) (masks : option Masks)
    (keypoints : option Keypoints)
    (keypoint_flip_permutation : option (list nat)) (seed : option Z)
    (preprocess_vars_cache : option cache_ref) : M (list Tensor) :=
  if bool_decide (is_Some keypoints ∧ keypoint_flip_permutation = None) then
    raise (ValueError
      "keypoints are provided but keypoints_flip_permutation is not provided")
  else
    let generator_func n := RVFloat (random_uniform seed n) in
    var ← _get_or_create_preprocess_rand_vars
            generator_func HORIZONTAL_FLIP preprocess_vars_cache (KStr "");
    do_a_flip_random ← float_var var;
    let do_a_flip_random := F32.greater do_a_flip_random F32.half in
    let image := if do_a_flip_random then flip_left_right image else image in
    let boxes :=
      if do_a_flip_random then _flip_boxes_left_right <$> boxes else boxes in
    let masks :=
      if do_a_flip_random then _flip_masks_left_right <$> masks else masks in
    let keypoints :=
      match keypoints, keypoint_flip_permutation with
      | Some keypoints, Some permutation =>
          Some (if do_a_flip_random
                then keypoint_flip_horizontal keypoints F32.half permutation
                else keypoints)
      | _, _ => None
      end in
    mret ([TImage image] ++ append_if TBoxes boxes ++ append_if TMasks masks
          ++ append_if TKeypoints keypoints).

Definition random_vertical_flip `{RandomOps} `{GeometryOps}
    (image : Image) (boxes : option (list Box)) (masks : option Masks)
    (keypoints : option Keypoints)
    (keypoint_flip_permutation : option (list nat)) (seed : option Z)
    (preprocess_vars_cache : option cache_ref) : M (list Tensor) :=
  if bool_decide (is_Some keypoints ∧ keypoint_flip_permutation = None) then
    raise (ValueError
      "keypoints are provided but keypoints_flip_permutation is not provided")
  else
    let generator_func n := RVFloat (random_uniform seed n) in
    var ← _get_or_create_preprocess_rand_vars
            generator_func VERTICAL_FLIP preprocess_vars_cache (KStr "");
    do_a_flip_random ← float_var var;
    let do_a_flip_random := F32.greater do_a_flip_random F32.half in
    let image := if do_a_flip_random then flip_up_down image else image in
    let boxes :=
      if do_a_flip_random then _flip_boxes_up_down <$> boxes else boxes in
    let masks :=
      if do_a_flip_random then _flip_masks_up_down <$> masks else masks in
    let keypoints :=
      match keypoints, keypoint_flip_permutation with
      | Some keypoints, Some permutation =>
          Some (if do_a_flip_random
                then keypoint_flip_vertical keypoints F32.half permutation
                else keypoints)
      | _, _ => None
      end in
    mret ([TImage image] ++ append_if TBoxes boxes ++ append_if TMasks masks
          ++ append_if TKeypoints keypoints).

(** ** random_jitter_boxes *)

Definition clip_box (b : Box) : Box :=
  mkBox (F32.clip_by_value (ymin b) F32.zero F32.one)
        (F32.clip_by_value (xmin b) F32.zero F32.one)
        (F32.clip_by_value (ymax b) F32.zero F32.one)
        (F32.clip_by_value (xmax b) F32.zero F32.one).

(** The arithmetic of random_jitter_box on the numbers drawn. *)
Definition jittered_box (box rand_numbers : Box) : Box :=
  let box_width := F32.sub (xmax box) (xmin box) in
  let box_height := F32.sub (ymax box) (ymin box) in
  let hw_coefs := mkBox box_height box_width box_height box_width in
  let hw_rand_coefs :=
    mkBox (F32.mul (ymin hw_coefs) (ymin rand_numbers))
          (F32.mul (xmin hw_coefs) (xmin rand_numbers))
          (F32.mul (ymax hw_coefs) (ymax rand_numbers))
          (F32.mul (xmax hw_coefs) (xmax rand_numbers)) in
  let jittered_box :=
    mkBox (F32.add (ymin box) (ymin hw_rand_coefs))
          (F32.add (xmin box) (xmin hw_rand_coefs))
          (F32.add (ymax box) (ymax hw_rand_coefs))
          (F32.add (xmax box) (xmax hw_rand_coefs)) in
  clip_box jittered_box.

Definition random_jitter_box `{RandomOps}
    (box : Box) (ratio : F64.t) (seed : option Z) : M Box :=
  rand_numbers ← fresh (random_uniform_4 (F64.to_f32 (SFopp ratio))
                                         (F64.to_f32 ratio) seed);
  mret (jittered_box box rand_numbers).

(** tf.map_fn runs the body, and its random op, once per box. *)
Definition random_jitter_boxes `{RandomOps}
    (boxes : list Box) (ratio : F64.t) (seed : option Z) : M (list Tensor) :=
  distorted_boxes ← mapM (fun x => random_jitter_box x ratio seed) boxes;
  mret [TBoxes distorted_boxes].

(** ** Box lists *)

(** tf.gather on a tensor of the record, along its first axis. *)
Definition gather_tensor (t : Tensor) (indices : list nat) : option Tensor :=
  match t with
  | TImages l => TImages <$> tf_gather l indices
  | TImage l => TImage <$> tf_gather l indices
  | TBoxes l => TBoxes <$> tf_gather l indices
  | TInts l => TInts <$> tf_gather l indices
  | TFloats l => TFloats <$> tf_gather l indices
  | TScores l => TScores <$> tf_gather l indices
  | TMasks l => TMasks <$> tf_gather l indices
  | TKeypoints l => TKeypoints <$> tf_gather l indices
  | TExpand _ =>
      (* one row: only the selection [0] keeps a leading axis of length 1 *)
      if bool_decide (indices = [0%nat]) then Some t else None
  end.

(** Modelled from the spec: core/box_list.py is not among the sources.  A
    BoxList holds the boxes and, by name, the per-box fields attached to them
    in the order they were added. *)
Record BoxList : Type := mkBoxList {
  bl_boxes : list Box;
  bl_fields : list (string * Tensor)
}.

Definition BoxList_new (boxes : list Box) : BoxList := mkBoxList boxes [].

Definition add_field (boxlist : BoxList) (field : string) (data : Tensor)
  : BoxList :=
  mkBoxList (bl_boxes boxlist) (bl_fields boxlist ++ [(field, data)]).

(** The first field of that name. *)
Fixpoint field_named (fields : list (string * Tensor)) (field : string)
  : option Tensor :=
  match fields with
  | [] => None
  | (name, data) :: fields' =>
      if decide (name = field) then Some data else field_named fields' field
  end.

Definition get_field (boxlist : BoxList) (field : string) : M Tensor :=
  expect (ValueError "field is not in the box list")
         (field_named (bl_fields boxlist) field).

(** The fields of a box list at the given indices. *)
Definition gather_fields (fields : list (string * Tensor))
    (indices : list nat) : option (list (string * Tensor)) :=
  mapM (fun p : string * Tensor =>
          t ← gather_tensor (snd p) indices; Some (fst p, t)) fields.

(** Modelled from the spec: box_list_ops.gather applies one index selection
    to the boxes and to every field. *)
Definition boxlist_gather (boxlist : BoxList) (indices : list nat)
  : M BoxList :=
  boxes ← expect InvalidArgumentError (tf_gather (bl_boxes boxlist) indices);
  fields ← mapM (fun p : string * Tensor =>
                   t ← expect InvalidArgumentError
                         (gather_tensor (snd p) indices);
                   mret (fst p, t))
                (bl_fields boxlist);
  mret (mkBoxList boxes fields).

(** Modelled from the spec: box_list_ops.prune_completely_outside_window
    drops the boxes entirely outside the window and returns the pruned box
    list with the indices kept. *)
Definition prune_completely_outside_window `{GeometryOps}
    (boxlist : BoxList) (window : Box) : M (BoxList * list nat) :=
  let valid_indices :=
    tf_where (map (fun b => negb (completely_outside_window b window))
                  (bl_boxes boxlist)) in
  pruned ← boxlist_gather boxlist valid_indices;
  mret (pruned, valid_indices).

(** Modelled from the spec: box_list_ops.prune_non_overlapping_boxes drops
    the boxes whose overlap fraction with the window is below the threshold
    and returns the pruned box list with the indices kept. *)
Definition prune_non_overlapping_boxes `{GeometryOps}
    (boxlist : BoxList) (window : Box) (min_overlap : F64.t)
  : M (BoxList * list nat) :=
  let keep_inds :=
    tf_where (map (fun b => F32.greater_equal (overlap_fraction b window)
                                              (F64.to_f32 min_overlap))
                  (bl_boxes boxlist)) in
  pruned ← boxlist_gather boxlist keep_inds;
  mret (pruned, keep_inds).

(** Modelled from the spec: box_list_ops.change_coordinate_frame remaps every
    box into the frame of the window and keeps the fields. *)
Definition change_coordinate_frame `{GeometryOps}
    (boxlist : BoxList) (window : Box) : BoxList :=
  mkBoxList (map (fun b => box_to_frame b window) (bl_boxes boxlist))
            (bl_fields boxlist).

(** Modelled from the spec: keypoint_ops.change_coordinate_frame remaps every
    keypoint into the frame of the window. *)
Definition keypoints_change_coordinate_frame `{GeometryOps}
    (keypoints : Keypoints) (window : Box) : Keypoints :=
  map (map (keypoint_to_frame window)) keypoints.

(** Modelled from the spec: keypoint_ops.prune_outside_window sets the
    keypoints outside the window to NaN. *)
Definition keypoints_prune_outside_window `{GeometryOps}
    (keypoints : Keypoints) (window : Box) : Keypoints :=
  map (map (fun p => if keypoint_in_window window p then p
                     else (F32.nan, F32.nan))) keypoints.

(** ** Cropping *)

(** A [height, width] window of a [rows, columns, ...] array, as tf.slice
    takes it; a window that does not fit is an error. *)
Definition slice_hw {A : Type} (offset_y offset_x height width : nat)
    (rows : list (list A)) : option (list (list A)) :=
  if bool_decide (offset_y + height ≤ length rows)%nat
     && forallb (fun row => bool_decide (offset_x + width ≤ length row)%nat)
                rows
  then Some (map (fun row => take width (drop offset_x row))
                 (take height (drop offset_y rows)))
  else None.

#[global] Arguments slice_hw {A} offset_y offset_x height width rows
  : simpl never.

(** Reading the optional fields of a box list back into a result list. *)
Definition field_values {A : Type} (unwrap : Tensor -> option A)
    (boxlist : BoxList) (field : string) (supplied : option A)
  : M (option A) :=
  match supplied with
  | Some _ =>
      t ← get_field boxlist field;
      a ← expect TypeError (unwrap t);
      mret (Some a)
  | None => mret None
  end.

Definition as_image (t : Tensor) : option Image :=
  match t with TImage x => Some x | _ => None end.
Definition as_boxes (t : Tensor) : option (list Box) :=
  match t with TBoxes x => Some x | _ => None end.
Definition as_ints (t : Tensor) : option (list Z) :=
  match t with TInts x => Some x | _ => None end.
Definition as_floats (t : Tensor) : option (list F32.t) :=
  match t with TFloats x => Some x | _ => None end.
Definition as_scores (t : Tensor) : option (list (list F32.t)) :=
  match t with TScores x => Some x | _ => None end.
Definition as_masks (t : Tensor) : option Masks :=
  match t with TMasks x => Some x | _ => None end.
Definition as_keypoints (t : Tensor) : option Keypoints :=
  match t with TKeypoints x => Some x | _ => None end.

Definition add_field_if {A : Type} (wrap : A -> Tensor) (boxlist : BoxList)
    (field : string) (data : option A) : BoxList :=
  match data with
  | Some a => add_field boxlist field (wrap a)
  | None => boxlist
  end.

(** The fields that _strict_random_crop_image attaches to the boxes. *)
Definition crop_fields (labels : list Z) (label_weights : option (list F32.t))
    (label_confidences : option (list F32.t))
    (multiclass_scores : option (list (list F32.t)))
  : list (string * Tensor) :=
  bl_fields
    (add_field_if TScores
       (add_field_if TFloats
          (add_field_if TFloats
             (add_field (BoxList_new []) "labels" (TInts labels))
             "label_weights" label_weights)
          "label_confidences" label_confidences)
       "multiclass_scores" multiclass_scores).

Definition unit_window : Box :=
  mkBox F32.zero F32.zero F32.one F32.one.

(** The part of _strict_random_crop_image that follows the draw of the crop
    window [sample_distorted_bounding_box = (im_box_begin, im_box_size,
    im_box)]. *)
Definition crop_to_sampled_window `{GeometryOps}
    (image : Image) (boxes : list Box) (labels : list Z)
    (label_weights : option (list F32.t))
    (label_confidences : option (list F32.t))
    (multiclass_scores : option (list (list F32.t)))
    (masks : option Masks) (keypoints : option Keypoints)
    (overlap_thresh : F64.t) (clip_boxes : bool)
    (crop : CropWindow) : M (list Tensor) :=
  let im_box := cw_box crop in
  new_image ← expect InvalidArgumentError
                (slice_hw (cw_offset_y crop) (cw_offset_x crop)
                          (cw_height crop) (cw_width crop) image);
  let boxlist := BoxList_new boxes in
  let boxlist := add_field boxlist "labels" (TInts labels) in
  let boxlist := add_field_if TFloats boxlist "label_weights" label_weights in
  let boxlist :=
    add_field_if TFloats boxlist "label_confidences" label_confidences in
  let boxlist :=
    add_field_if TScores boxlist "multiclass_scores" multiclass_scores in
  (* remove boxes that are outside cropped image *)
  '(boxlist, inside_window_ids) ←
    prune_completely_outside_window boxlist im_box;
  (* remove boxes that are outside image *)
  '(overlapping_boxlist, keep_ids) ←
    prune_non_overlapping_boxes boxlist im_box overlap_thresh;
  (* change the coordinate of the remaining boxes *)
  new_labels ← get_field overlapping_boxlist "labels";
  let new_boxlist := change_coordinate_frame overlapping_boxlist im_box in
  let new_boxes := bl_boxes new_boxlist in
  let new_boxes := if clip_boxes then map clip_box new_boxes else new_boxes in
  new_label_weights ←
    field_values as_floats overlapping_boxlist "label_weights" label_weights;
  new_label_confidences ←
    field_values as_floats overlapping_boxlist "label_confidences"
                 label_confidences;
  new_multiclass_scores ←
    field_values as_scores overlapping_boxlist "multiclass_scores"
                 multiclass_scores;
  new_masks ←
    match masks with
    | Some masks =>
        masks_of_boxes_inside_window ←
          expect InvalidArgumentError (tf_gather masks inside_window_ids);
        masks_of_boxes_completely_inside_window ←
          expect InvalidArgumentError
            (tf_gather masks_of_boxes_inside_window keep_ids);
        new_masks ← expect InvalidArgumentError
          (mapM (slice_hw (cw_offset_y crop) (cw_offset_x crop)
                          (cw_height crop) (cw_width crop))
                masks_of_boxes_completely_inside_window);
        mret (Some new_masks)
    | None => mret None
    end;
  new_keypoints ←
    match keypoints with
    | Some keypoints =>
        keypoints_of_boxes_inside_window ←
          expect InvalidArgumentError (tf_gather keypoints inside_window_ids);
        keypoints_of_boxes_completely_inside_window ←
          expect InvalidArgumentError
            (tf_gather keypoints_of_boxes_inside_window keep_ids);
        let new_keypoints :=
          keypoints_change_coordinate_frame
            keypoints_of_boxes_completely_inside_window im_box in
        let new_keypoints :=
          if clip_boxes
          then keypoints_prune_outside_window new_keypoints unit_window
          else new_keypoints in
        mret (Some new_keypoints)
    | None => mret None
    end;
  mret ([TImage new_image; TBoxes new_boxes; new_labels]
        ++ append_if TFloats new_label_weights
        ++ append_if TFloats new_label_confidences
        ++ append_if TScores new_multiclass_scores
        ++ append_if TMasks new_masks
        ++ append_if TKeypoints new_keypoints).

Definition _strict_random_crop_image `{RandomOps} `{GeometryOps}
    (image : Image) (boxes : list Box) (labels : list Z)
    (label_weights : option (list F32.t))
    (label_confidences : option (list F32.t))
    (multiclass_scores : option (list (list F32.t)))
    (masks : option Masks) (keypoints : option Keypoints)
    (min_object_covered : F64.t) (aspect_ratio_range area_range : F64.t * F64.t)
    (overlap_thresh : F64.t) (clip_boxes : bool)
    (preprocess_vars_cache : option cache_ref) : M (list Tensor) :=
  let boxes_expanded := map clip_box boxes in
  let generator_func n :=
    RVCrop (sample_distorted_bounding_box
              (image_shape image) boxes_expanded min_object_covered
              aspect_ratio_range area_range n) in
  (* for ssd cropping, each value of min_object_covered has its own
     cached random variable *)
  var ← _get_or_create_preprocess_rand_vars
          generator_func STRICT_CROP_IMAGE preprocess_vars_cache
          (float_key min_object_covered);
  sample_distorted_bounding_box ← crop_var var;
  crop_to_sampled_window
    image boxes labels label_weights label_confidences multiclass_scores
    masks keypoints overlap_thresh clip_boxes sample_distorted_bounding_box.

Definition random_crop_image `{RandomOps} `{GeometryOps}
    (image : Image) (boxes : list Box) (labels : list Z)
    (label_weights : option (list F32.t))
    (label_confidences : option (list F32.t))
    (multiclass_scores : option (list (list F32.t)))
    (masks : option Masks) (keypoints : option Keypoints)
    (min_object_covered : F64.t) (aspect_ratio_range area_range : F64.t * F64.t)
    (overlap_thresh : F64.t) (clip_boxes : bool) (random_coef : F64.t)
    (seed : option Z) (preprocess_vars_cache : option cache_ref)
  : M (list Tensor) :=
  let strict_random_crop_image_fn :=
    _strict_random_crop_image
      image boxes labels label_weights label_confidences multiclass_scores
      masks keypoints min_object_covered aspect_ratio_range area_range
      overlap_thresh clip_boxes preprocess_vars_cache in
  if F64.lt random_coef F64.float_info_min then
    strict_random_crop_image_fn
  else
    let generator_func n := RVFloat (random_uniform seed n) in
    var ← _get_or_create_preprocess_rand_vars
            generator_func CROP_IMAGE preprocess_vars_cache (KStr "");
    do_a_crop_random ← float_var var;
    let do_a_crop_random :=
      F32.greater do_a_crop_random (F64.to_f32 random_coef) in
    let outputs :=
      [TImage image; TBoxes boxes; TInts labels]
      ++ append_if TFloats label_weights
      ++ append_if TFloats label_confidences
      ++ append_if TScores multiclass_scores
      ++ append_if TMasks masks
      ++ append_if TKeypoints keypoints in
    tf_cond do_a_crop_random strict_random_crop_image_fn (mret outputs).

(** ** ssd_random_crop *)

(** Modelled from the spec: PreprocessorCache.SSD_CROP_SELECTOR_ID, the
    sub-key of the selector draw of ssd_random_crop, is a constant of
    core/preprocessor_cache.py. *)
Definition SSD_CROP_SELECTOR_ID : SubKey := KStr "ssd_crop_selector_id".

(** selected_result[i], read as the kind of tensor packed there. *)
Definition selected {A : Type} (unwrap : Tensor -> option A)
    (selected_result : list Tensor) (i : nat) : M A :=
  t ← expect IndexError (selected_result !! i);
  expect TypeError (unwrap t).

(** [if outer is not None: selected = selected_result[i]; i += 1] *)
Definition selected_if {A B : Type} (outer : option B)
    (unwrap : Tensor -> option A) (selected_result : list Tensor) (i : nat)
  : M (option A * nat) :=
  match outer with
  | Some _ =>
      a ← selected unwrap selected_result i;
      mret (Some a, S i)
  | None => mret (None, i)
  end.

(** tuple[index] *)
Definition item {A : Type} (tuple : list A) (index : nat) : M A :=
  expect IndexError (tuple !! index).

(** The function random_crop_selector that ssd_random_crop defines, with the
    variables of ssd_random_crop it refers to as arguments. *)
Definition random_crop_selector `{RandomOps} `{GeometryOps}
    (label_weights : option (list F32.t))
    (label_confidences : option (list F32.t))
    (multiclass_scores : option (list (list F32.t)))
    (masks : option Masks) (keypoints : option Keypoints)
    (min_object_covered : list F64.t)
    (aspect_ratio_range area_range : list (F64.t * F64.t))
    (overlap_thresh : list F64.t) (clip_boxes : list bool)
    (random_coef : list F64.t)
    (seed : option Z) (preprocess_vars_cache : option cache_ref)
    (selected_result : list Tensor) (index : nat) : M (list Tensor) :=
  let i := 3%nat in
  image ← selected as_image selected_result 0;
  boxes ← selected as_boxes selected_result 1;
  labels ← selected as_ints selected_result 2;
  '(selected_label_weights, i) ←
    selected_if label_weights as_floats selected_result i;
  '(selected_label_confidences, i) ←
    selected_if label_confidences as_floats selected_result i;
  '(selected_multiclass_scores, i) ←
    selected_if multiclass_scores as_scores selected_result i;
  '(selected_masks, i) ←
    selected_if masks as_masks selected_result i;
  '(selected_keypoints, _) ←
    selected_if keypoints as_keypoints selected_result i;
  min_object_covered_i ← item min_object_covered index;
  aspect_ratio_range_i ← item aspect_ratio_range index;
  area_range_i ← item area_range index;
  overlap_thresh_i ← item overlap_thresh index;
  clip_boxes_i ← item clip_boxes index;
  random_coef_i ← item random_coef index;
  random_crop_image
    image boxes labels selected_label_weights selected_label_confidences
    selected_multiclass_scores selected_masks selected_keypoints
    min_object_covered_i aspect_ratio_range_i area_range_i
    overlap_thresh_i clip_boxes_i random_coef_i seed
    preprocess_vars_cache.

Definition ssd_random_crop `{RandomOps} `{GeometryOps}
    (image : Image) (boxes : list Box) (labels : list Z)
    (label_weights : option (list F32.t))
    (label_confidences : option (list F32.t))
    (multiclass_scores : option (list (list F32.t)))
    (masks : option Masks) (keypoints : option Keypoints)
    (min_object_covered : list F64.t)
    (aspect_ratio_range area_range : list (F64.t * F64.t))
    (overlap_thresh : list F64.t) (clip_boxes : list bool)
    (random_coef : list F64.t)
    (seed : option Z) (preprocess_vars_cache : option cache_ref)
  : M (list Tensor) :=
  _apply_with_random_selector_tuples
    ([TImage image; TBoxes boxes; TInts labels]
     ++ append_if TFloats label_weights
     ++ append_if TFloats label_confidences
     ++ append_if TScores multiclass_scores
     ++ append_if TMasks masks
     ++ append_if TKeypoints keypoints)
    (random_crop_selector label_weights label_confidences multiclass_scores
       masks keypoints min_object_covered aspect_ratio_range area_range
       overlap_thresh clip_boxes random_coef seed preprocess_vars_cache)
    (length min_object_covered)
    preprocess_vars_cache SSD_CROP_SELECTOR_ID.

(** The defaults of ssd_random_crop. *)
Definition f64_tenths (n : Z) : F64.t :=
  SFdiv F64.prec F64.emax (F64.of_Z_exp n 0) (F64.of_Z_exp 10 0).

Definition default_min_object_covered : list F64.t :=
  [F64.zero; f64_tenths 1; f64_tenths 3; f64_tenths 5; f64_tenths 7;
   f64_tenths 9; F64.one].
Definition default_aspect_ratio_range : list (F64.t * F64.t) :=
  replicate 7 (F64.of_Z_exp 1 (-1), F64.of_Z_exp 2 0).
Definition default_area_range : list (F64.t * F64.t) :=
  replicate 7 (f64_tenths 1, F64.one).
Definition default_overlap_thresh : list F64.t :=
  [F64.zero; f64_tenths 1; f64_tenths 3; f64_tenths 5; f64_tenths 7;
   f64_tenths 9; F64.one].
Definition default_clip_boxes : list bool := replicate 7 true.
Definition default_random_coef : list F64.t :=
  replicate 7 (SFdiv F64.prec F64.emax (F64.of_Z_exp 15 0)
                     (F64.of_Z_exp 100 0)).

(** ** The orchestrator *)

(** Modelled from the spec: the field names of fields.InputDataFields
    (core/standard_fields.py is not among the sources). *)
Module InputDataFields.
Definition image : string := "image".
Definition groundtruth_boxes : string := "groundtruth_boxes".
Definition groundtruth_classes : string := "groundtruth_classes".
Definition groundtruth_weights : string := "groundtruth_weights".
Definition groundtruth_confidences : string := "groundtruth_confidences".
Definition multiclass_scores : string := "multiclass_scores".
Definition groundtruth_instance_masks : string := "groundtruth_instance_masks".
Definition groundtruth_keypoints : string := "groundtruth_keypoints".
Definition groundtruth_image_classes : string := "groundtruth_image_classes".
End InputDataFields.

(** An entry [(func, params)] of preprocess_options: the function, by name,
    whether its signature has a [preprocess_vars_cache] argument, and the call
    [func( *args, **params)] with the cache that preprocess passes. *)
Record PreprocessFn : Type := mkPreprocessFn {
  fn_name : string;
  fn_takes_cache : bool;
  fn_call : list (option Tensor) -> option cache_ref -> M (list Tensor)
}.

(** Binding the positional arguments: a tensor where one is required. *)
Definition arg {A : Type} (unwrap : Tensor -> option A)
    (args : list (option Tensor)) (i : nat) : M A :=
  match args !! i with
  | Some (Some t) => expect TypeError (unwrap t)
  | _ => raise TypeError
  end.

(** An argument that defaults to None. *)
Definition opt_arg {A : Type} (unwrap : Tensor -> option A)
    (args : list (option Tensor)) (i : nat) : M (option A) :=
  match args !! i with
  | Some (Some t) => a ← expect TypeError (unwrap t); mret (Some a)
  | _ => mret None
  end.

(** More positional arguments than the signature has is a TypeError. *)
Definition at_most (n : nat) (args : list (option Tensor)) : M unit :=
  if bool_decide (length args ≤ n)%nat then mret tt else raise TypeError.

Definition fn_random_horizontal_flip `{RandomOps} `{GeometryOps}
    (keypoint_flip_permutation : option (list nat)) (seed : option Z)
  : PreprocessFn :=
  mkPreprocessFn "random_horizontal_flip" true
    (fun args preprocess_vars_cache =>
       _ ← at_most 4 args;
       image ← arg as_image args 0;
       boxes ← opt_arg as_boxes args 1;
       masks ← opt_arg as_masks args 2;
       keypoints ← opt_arg as_keypoints args 3;
       random_horizontal_flip image boxes masks keypoints
         keypoint_flip_permutation seed preprocess_vars_cache).

Definition fn_random_vertical_flip `{RandomOps} `{GeometryOps}
    (keypoint_flip_permutation : option (list nat)) (seed : option Z)
  : PreprocessFn :=
  mkPreprocessFn "random_vertical_flip" true
    (fun args preprocess_vars_cache =>
       _ ← at_most 4 args;
       image ← arg as_image args 0;
       boxes ← opt_arg as_boxes args 1;
       masks ← opt_arg as_masks args 2;
       keypoints ← opt_arg as_keypoints args 3;
       random_vertical_flip image boxes masks keypoints
         keypoint_flip_permutation seed preprocess_vars_cache).

(** random_jitter_boxes(boxes, ratio=0.05, seed=None) has no
    [preprocess_vars_cache] argument. *)
Definition fn_random_jitter_boxes `{RandomOps}
    (ratio : F64.t) (seed : option Z) : PreprocessFn :=
  mkPreprocessFn "random_jitter_boxes" false
    (fun args _ =>
       _ ← at_most 1 args;
       boxes ← arg as_boxes args 0;
       random_jitter_boxes boxes ratio seed).

Definition fn_retain_boxes_above_threshold (threshold : F64.t)
  : PreprocessFn :=
  mkPreprocessFn "retain_boxes_above_threshold" false
    (fun args _ =>
       _ ← at_most 7 args;
       boxes ← arg as_boxes args 0;
       labels ← arg as_ints args 1;
       label_weights ← arg as_floats args 2;
       label_confidences ← opt_arg as_floats args 3;
       multiclass_scores ← opt_arg as_scores args 4;
       masks ← opt_arg as_masks args 5;
       keypoints ← opt_arg as_keypoints args 6;
       retain_boxes_above_threshold boxes labels label_weights
         label_confidences multiclass_scores masks keypoints threshold).


Definition fn_ssd_random_crop `{RandomOps} `{GeometryOps}
    (min_object_covered : list F64.t)
    (aspect_ratio_range area_range : list (F64.t * F64.t))
    (overlap_thresh : list F64.t) (clip_boxes : list bool)
    (random_coef : list F64.t) (seed : option Z) : PreprocessFn :=
  mkPreprocessFn "ssd_random_crop" true
    (fun args preprocess_vars_cache =>
       _ ← at_most 8 args;
       image ← arg as_image args 0;
       boxes ← arg as_boxes args 1;
       labels ← arg as_ints args 2;
       label_weights ← opt_arg as_floats args 3;
       label_confidences ← opt_arg as_floats args 4;
       multiclass_scores ← opt_arg as_scores args 5;
       masks ← opt_arg as_masks args 6;
       keypoints ← opt_arg as_keypoints args 7;
       ssd_random_crop image boxes labels label_weights label_confidences
         multiclass_scores masks keypoints min_object_covered
         aspect_ratio_range area_range overlap_thresh clip_boxes random_coef
         seed preprocess_vars_cache).

(** The argument map: for each function, by name, the fields it receives and
    returns, None where a field is disabled. *)
Abbreviation FuncArgMap := (gmap string (list (option string))).

Definition get_default_func_arg_map
    (include_label_weights include_label_confidences
     include_multiclass_scores include_instance_masks include_keypoints : bool)
  : FuncArgMap :=
  let image := Some InputDataFields.image in
  let groundtruth_boxes := Some InputDataFields.groundtruth_boxes in
  let groundtruth_classes := Some InputDataFields.groundtruth_classes in
  let groundtruth_label_weights :=
    if include_label_weights
    then Some InputDataFields.groundtruth_weights else None in
  let groundtruth_label_confidences :=
    if include_label_confidences
    then Some InputDataFields.groundtruth_confidences else None in
  let multiclass_scores :=
    if include_multiclass_scores
    then Some InputDataFields.multiclass_scores else None in
  let groundtruth_instance_masks :=
    if include_instance_masks
    then Some InputDataFields.groundtruth_instance_masks else None in
  let groundtruth_keypoints :=
    if include_keypoints
    then Some InputDataFields.groundtruth_keypoints else None in
  let crop_fields :=
    [image; groundtruth_boxes; groundtruth_classes; groundtruth_label_weights;
     groundtruth_label_confidences; multiclass_scores;
     groundtruth_instance_masks; groundtruth_keypoints] in
  let crop_pad_fields :=
    [image; groundtruth_boxes; groundtruth_classes; groundtruth_label_weights;
     groundtruth_label_confidences; multiclass_scores] in
  let flip_fields :=
    [image; groundtruth_boxes; groundtruth_instance_masks;
     groundtruth_keypoints] in
  list_to_map
    [("normalize_image", [image]);
     ("random_horizontal_flip", flip_fields);
     ("random_vertical_flip", flip_fields);
     ("random_rotation90", flip_fields);
     ("random_pixel_value_scale", [image]);
     ("random_image_scale", [image; groundtruth_instance_masks]);
     ("random_rgb_to_gray", [image]);
     ("random_adjust_brightness", [image]);
     ("random_adjust_contrast", [image]);
     ("random_adjust_hue", [image]);
     ("random_adjust_saturation", [image]);
     ("random_distort_color", [image]);
     ("random_jitter_boxes", [groundtruth_boxes]);
     ("random_crop_image", crop_fields);
     ("random_pad_image", [image; groundtruth_boxes]);
     ("random_crop_pad_image", crop_pad_fields);
     ("random_crop_to_aspect_ratio", crop_fields);
     ("random_pad_to_aspect_ratio", flip_fields);
     ("random_black_patches", [image]);
     ("retain_boxes_above_threshold",
      [groundtruth_boxes; groundtruth_classes; groundtruth_label_weights;
       groundtruth_label_confidences; multiclass_scores;
       groundtruth_instance_masks; groundtruth_keypoints]);
     ("image_to_float", [image]);
     ("random_resize_method", [image]);
     ("resize_to_range", [image; groundtruth_instance_masks]);
     ("resize_to_min_dimension", [image; groundtruth_instance_masks]);
     ("scale_boxes_to_pixel_coordinates",
      [image; groundtruth_boxes; groundtruth_keypoints]);
     ("resize_image", [image; groundtruth_instance_masks]);
     ("subtract_channel_mean", [image]);
     ("one_hot_encoding", [Some InputDataFields.groundtruth_image_classes]);
     ("rgb_to_gray", [image]);
     ("ssd_random_crop", crop_fields);
     ("ssd_random_crop_pad", crop_pad_fields);
     ("ssd_random_crop_fixed_aspect_ratio", crop_fields);
     ("ssd_random_crop_pad_fixed_aspect_ratio", crop_fields);
     ("convert_class_logits_to_softmax", [multiclass_scores])].

Abbreviation TensorDict := (gmap string Tensor).

(** One turn of the loop of preprocess over preprocess_options. *)
Definition preprocess_option (func_arg_map : FuncArgMap)
    (preprocess_vars_cache : option cache_ref)
    (tensor_dict : TensorDict) (func : PreprocessFn) : M TensorDict :=
  arg_names ←
    expect (ValueError ("The function " +:+ fn_name func
                        +:+ " does not exist in func_arg_map"))
           (func_arg_map !! fn_name func);
  _ ← match list_find (fun a : string => tensor_dict !! a = None)
                      (omap id arg_names) with
      | Some (_, a) =>
          raise (ValueError ("The function " +:+ fn_name func
                             +:+ " requires argument " +:+ a))
      | None => mret tt
      end;
  let get_arg (key : option string) : option Tensor :=
    key ≫= fun key => tensor_dict !! key in
  let args := map get_arg arg_names in
  results ←
    fn_call func args
      (if fn_takes_cache func then preprocess_vars_cache else None);
  (* Removes None args since the return values will not contain those. *)
  let arg_names := omap id arg_names in
  mret (foldl (fun td (p : Tensor * string) => <[p.2 := p.1]> td)
              tensor_dict (zip results arg_names)).

(** [for x in xs: acc = body(acc, x)] *)
Fixpoint for_each {A B : Type} (body : A -> B -> M A) (acc : A) (xs : list B)
  : M A :=
  match xs with
  | [] => mret acc
  | x :: xs' => acc' ← body acc x; for_each body acc' xs'
  end.

Definition preprocess (tensor_dict : TensorDict)
    (preprocess_options : list PreprocessFn)
    (func_arg_map : option FuncArgMap)
    (preprocess_vars_cache : option cache_ref) : M TensorDict :=
  let func_arg_map :=
    match func_arg_map with
    | Some func_arg_map => func_arg_map
    | None => get_default_func_arg_map true false false false false
    end in
  (* changes the images to image (rank 4 to rank 3) *)
  tensor_dict ←
    match tensor_dict !! InputDataFields.image with
    | Some images =>
        if bool_decide (rank images ≠ 4%nat) then
          raise (ValueError "images in tensor_dict should be rank 4")
        else
          image ← expect InvalidArgumentError (squeeze0 images);
          mret (<[InputDataFields.image := image]> tensor_dict)
    | None => mret tensor_dict
    end;
  (* Preprocess inputs based on preprocess_options *)
  tensor_dict ←
    for_each (preprocess_option func_arg_map preprocess_vars_cache)
             tensor_dict preprocess_options;
  (* changes the image to images (rank 3 to rank 4) *)
  mret match tensor_dict !! InputDataFields.image with
       | Some image =>
           <[InputDataFields.image := expand_dims0 image]> tensor_dict
       | None => tensor_dict
       end.

(** ** Rotation of boxes *)

Definition _rot90_boxes (boxes : list Box) : list Box :=
  map (fun b =>
         let rotated_ymin := F32.sub F32.one (xmax b) in
         let rotated_ymax := F32.sub F32.one (xmin b) in
         let rotated_xmin := ymin b in
         let rotated_xmax := ymax b in
         mkBox rotated_ymin rotated_xmin rotated_ymax rotated_xmax) boxes.

(** ** Selecting one case for one tensor *)

Definition _apply_with_random_selector `{RandomOps}
    {X : Type} (x : X) (func : X -> nat -> M Tensor) (num_cases : nat)
    (preprocess_vars_cache : option cache_ref) (key : SubKey) : M Tensor :=
  let generator_func n := RVInt (random_uniform_int (Z.of_nat num_cases) n) in
  var ← _get_or_create_preprocess_rand_vars
          generator_func SELECTOR preprocess_vars_cache key;
  rand_sel ← int_var var;
  (* Pass the real x only to one of the func calls. *)
  outputs ← mapM (fun case => build (func x case)) (seq 0 num_cases);
  match (if decide (0 <= rand_sel) then outputs !! Z.to_nat rand_sel
         else None) with
  | Some output => evaluate output
  | None => raise InvalidArgumentError
  end.

(** ** one_hot_encoding *)

(** tf.one_hot(indices, depth, on_value, off_value) on int32 indices: row
    [i] holds [on_value] at position [indices[i]] and [off_value] elsewhere;
    an index outside [0, depth) gives a row of [off_value]. *)
Definition tf_one_hot (indices : list Z) (depth : nat)
    (on_value off_value : Z) : list (list Z) :=
  map (fun i =>
         map (fun c => if decide (i = Z.of_nat c) then on_value
                       else off_value) (seq 0 depth)) indices.

(** The lowest int32, what a maximum over no element is. *)
Definition int32_lowest : Z := - 2 ^ 31.

(** tf.reduce_max(t, 0) of an int32 tensor of shape [N, depth]. *)
Definition tf_reduce_max_0 (depth : nat) (t : list (list Z)) : list Z :=
  foldr (zip_with Z.max) (replicate depth int32_lowest) t.

Definition one_hot_encoding (labels : list Z) (num_classes : option nat)
  : M Tensor :=
  match num_classes with
  | None => raise (ValueError "num_classes must be specified")
  | Some num_classes =>
      let labels := tf_one_hot labels num_classes 1 0 in
      mret (TInts (tf_reduce_max_0 num_classes labels))
  end.

(** ** random_rotation90 *)

(** tf.transpose exchanging the first two axes of a [rows, columns, ...]
    array. *)
Definition transpose_hw {A : Type} (rows : list (list A)) : list (list A) :=
  let columns := match rows with [] => 0%nat | row :: _ => length row end in
  map (fun j => omap (fun row => row !! j) rows) (seq 0 columns).

(** tf.image.rot90(image), a counter-clockwise rotation: the width axis is
    reversed, then height and width are exchanged. *)
Definition rot90 (image : Image) : Image :=
  transpose_hw (map (@rev _) image).

Definition _rot90_masks (masks : Masks) : Masks :=
  let masks := map transpose_hw masks in
  map (@rev _) masks.

(** keypoint_ops.rot90, of a module that is not among the sources. *)
Class KeypointRotation : Type := {
  keypoint_rot90 : Keypoints -> Keypoints
}.

Definition random_rotation90 `{RandomOps} `{KeypointRotation}
    (image : Image) (boxes : option (list Box)) (masks : option Masks)
    (keypoints : option Keypoints) (seed : option Z)
    (preprocess_vars_cache : option cache_ref) : M (list Tensor) :=
  (* random variable defining whether to rotate by 90 degrees or not *)
  let generator_func n := RVFloat (random_uniform seed n) in
  var ← _get_or_create_preprocess_rand_vars
          generator_func ROTATION90 preprocess_vars_cache (KStr "");
  do_a_rot90_random ← float_var var;
  let do_a_rot90_random := F32.greater do_a_rot90_random F32.half in
  let image := if do_a_rot90_random then rot90 image else image in
  let boxes := if do_a_rot90_random then _rot90_boxes <$> boxes else boxes in
  let masks := if do_a_rot90_random then _rot90_masks <$> masks else masks in
  let keypoints :=
    if do_a_rot90_random then keypoint_rot90 <$> keypoints else keypoints in
  mret ([TImage image] ++ append_if TBoxes boxes ++ append_if TMasks masks
        ++ append_if TKeypoints keypoints).

(** ** Replay *)

(** [extends st st']: every cache of [st'] holds the entries it holds in
    [st]. *)
Definition extends (st st' : State) : Prop :=
  ∀ r, cache_of st r ⊆ cache_of st' r.

(** A computation is replayable when it only adds entries to the caches and,
    run again in any state that kept those entries, returns the same result
    and leaves that state as it is: it draws nothing new. *)
Definition replayable {A : Type} (m : M A) : Prop :=
  ∀ st res st', m st = (res, st') →
    extends st st' ∧ ∀ st'', extends st' st'' → m st'' = (res, st'').

(** A computation that returns one result and leaves every state alone. *)
Definition constant {A : Type} (m : M A) : Prop :=
  ∃ res, ∀ st, m st = (res, st).

(** A function of preprocess_options is cache-aware when, called by
    preprocess with a shared cache, each of its calls is replayable. *)
Definition cache_aware (func : PreprocessFn) : Prop :=
  ∀ args cache,
    replayable (fn_call func args
                  (if fn_takes_cache func then Some cache else None)).

(** A coordinate that reflecting twice, [1 - (1 - x)] in float32, gives
    back. *)
Definition reflection_exact (x : F32.t) : Prop :=
  F32.sub F32.one (F32.sub F32.one x) = x.

(** ** Shapes and sample sessions *)


(** A field of the record a call returned. *)
Definition result_field (r : Result TensorDict) (field : string)
  : option Tensor :=
  match r with
  | Ok tensor_dict => tensor_dict !! field
  | Raise _ => None
  end.

(** A state with no cache written to and no draw made. *)
Definition initial_state : State := mkState ∅ 0.

(** A sample session: the scalar draws alternate between 0.75 and 0.25, the
    four-vector draws between the upper and the lower bound, the selector is
    0 and the crop window is the whole image. *)
Definition sample_random_ops : RandomOps := {|
  random_uniform _ n :=
    if Nat.even n then F32.of_Z_exp 3 (-2) else F32.of_Z_exp 1 (-2);
  random_uniform_int _ _ := 0;
  random_uniform_4 minval maxval _ n :=
    if Nat.even n then mkBox maxval maxval maxval maxval
    else mkBox minval minval minval minval;
  sample_distorted_bounding_box shape _ _ _ _ _ :=
    mkCropWindow 0 0 shape.1.1 shape.1.2 unit_window
|}.

(** Sample geometry: a box is outside a window when it ends before the window
    starts or starts after it ends, every box that is not outside counts as
    fully covered, and frames are left as they are. *)
Definition sample_geometry_ops : GeometryOps := {|
  keypoint_flip_horizontal keypoints _ _ := keypoints;
  keypoint_flip_vertical keypoints _ _ := keypoints;
  completely_outside_window b window :=
    F32.greater_equal (ymin b) (ymax window)
    || F32.greater_equal (xmin b) (xmax window)
    || F32.greater_equal (ymin window) (ymax b)
    || F32.greater_equal (xmin window) (xmax b);
  overlap_fraction _ _ := F32.one;
  box_to_frame b _ := b;
  keypoint_to_frame _ p := p;
  keypoint_in_window _ _ := true
|}.

(** ** Well-typed caches *)

(** The kind of tensor the operations modelled here store under each
    identifier. *)
Definition var_kind_ok (function_id : FunctionId) (var : RandVar) : bool :=
  match function_id, var with
  | STRICT_CROP_IMAGE, RVCrop _ => true
  | STRICT_CROP_IMAGE, _ => false
  | (SELECTOR | SELECTOR_TUPLES), RVInt _ => true
  | (SELECTOR | SELECTOR_TUPLES), _ => false
  | (HORIZONTAL_FLIP | VERTICAL_FLIP | CROP_IMAGE), RVFloat _ => true
  | (HORIZONTAL_FLIP | VERTICAL_FLIP | CROP_IMAGE), _ => false
  | _, _ => true
  end.

(** Every entry of every cache holds the kind of tensor its identifier
    stores: the caches were written by the operations only. *)
Definition well_typed (st : State) : Prop :=
  ∀ r function_id key var,
    cache_of st r !! (function_id, key) = Some var →
    var_kind_ok function_id var = true.

(** An error raised by the Python code while the graph is built. *)
Definition python_error {A : Type} (r : Result A) : Prop :=
  match r with
  | Raise e => at_run_time e = false
  | Ok _ => False
  end.

(** [ensures m Q]: run in a well-typed state, [m] leaves a well-typed state
    and either returns a value that satisfies [Q] or fails when an op is
    evaluated; its Python code raises nothing. *)
Definition ensures {A : Type} (m : M A) (Q : A -> Prop) : Prop :=
  ∀ st res st',
    well_typed st → m st = (res, st') →
    well_typed st'
    ∧ match res with
      | Ok a => Q a
      | Raise e => at_run_time e = true
      end.

(** ** Ranges *)

(** A float32 that is not below 0 and not above 1, as tf.clip_by_value(x,
    0.0, 1.0) leaves it; a NaN compares neither way. *)
Definition in_unit_range (x : F32.t) : Prop :=
  SFltb x F32.zero = false ∧ SFltb F32.one x = false.

Definition box_in_unit_range (b : Box) : Prop :=
  in_unit_range (ymin b) ∧ in_unit_range (xmin b)
  ∧ in_unit_range (ymax b) ∧ in_unit_range (xmax b).

(** ** What a crop returns *)

(** A [height, width, ...] array. *)
Definition has_shape_hw {A : Type} (height width : nat)
    (rows : list (list A)) : Prop :=
  length rows = height ∧ Forall (fun row => length row = width) rows.

(** The result list of a crop: the image, the boxes, the labels and one
    tensor of its kind for each optional array supplied, in the order of the
    arguments. *)
Definition crop_output
    (label_weights label_confidences : option (list F32.t))
    (multiclass_scores : option (list (list F32.t)))
    (masks : option Masks) (keypoints : option Keypoints)
    (output : list Tensor) : Prop :=
  ∃ new_image new_boxes new_labels new_label_weights new_label_confidences
    new_multiclass_scores new_masks new_keypoints,
    output
    = [TImage new_image; TBoxes new_boxes; TInts new_labels]
      ++ append_if TFloats new_label_weights
      ++ append_if TFloats new_label_confidences
      ++ append_if TScores new_multiclass_scores
      ++ append_if TMasks new_masks
      ++ append_if TKeypoints new_keypoints
    ∧ (is_Some new_label_weights ↔ is_Some label_weights)
    ∧ (is_Some new_label_confidences ↔ is_Some label_confidences)
    ∧ (is_Some new_multiclass_scores ↔ is_Some multiclass_scores)
    ∧ (is_Some new_masks ↔ is_Some masks)
    ∧ (is_Some new_keypoints ↔ is_Some keypoints).

(** [returns m Q]: whenever [m] returns a value, the value satisfies [Q]. *)
Definition returns {A : Type} (m : M A) (Q : A -> Prop) : Prop :=
  ∀ st a st', m st = (Ok a, st') → Q a.

(** ** Fields *)

(** The fields that the default argument map of preprocess names: with
    get_default_func_arg_map() only the label weights are included. *)
Definition default_map_fields : list string :=
  [InputDataFields.image; InputDataFields.groundtruth_boxes;
   InputDataFields.groundtruth_classes; InputDataFields.groundtruth_weights;
   InputDataFields.groundtruth_image_classes].

(** ** Frames *)

(** [writes_only target ids m]: running [m] changes no entry of a cache
    other than [target], and no entry under an identifier outside [ids]. *)
Definition writes_only {A : Type} (target : option cache_ref)
    (ids : list FunctionId) (m : M A) : Prop :=
  ∀ st res st',
    m st = (res, st') →
    ∀ r function_id key,
      Some r ≠ target ∨ function_id ∉ ids →
      cache_of st' r !! (function_id, key)
      = cache_of st r !! (function_id, key).

(** * Properties *)

(** ** The cache *)

Lemma cache_of_update (st : State) (r r' : cache_ref) (c : Cache) (n : nat) :
  cache_of (mkState (<[r := c]> (caches st)) n) r'
  = if decide (r = r') then c else cache_of st r'.
Proof.
  unfold cache_of; simpl. rewrite lookup_insert. by destruct (decide (r = r')).
Qed.

(** What an access through a cache does, by cases on the entry. *)
Lemma get_or_create_run (g : nat -> RandVar) (function_id : FunctionId)
    (key : SubKey) (cache : cache_ref) (st : State) :
  _get_or_create_preprocess_rand_vars g function_id (Some cache) key st
  = match cache_of st cache !! (function_id, key) with
    | Some var => (Ok var, st)
    | None =>
        (Ok (g (draws st)),
         mkState (<[cache := <[(function_id, key) := g (draws st)]>
                               (cache_of st cache)]> (caches st))
                 (S (draws st)))
    end.
Proof.
  unfold _get_or_create_preprocess_rand_vars, mbind, M_bind.
  unfold cache_get at 1.
  by destruct (cache_of st cache !! (function_id, key)).
Qed.

(** C2: the get-or-create contract.  Without a cache the generator is invoked
    afresh; with a cache a stored entry is returned unchanged and nothing is
    drawn, a missing entry is generated, stored and returned; a second access
    with the same cache and keys returns the value of the first and leaves
    the state as it is, whatever generator it is given. *)
Theorem get_or_create_contract
    (generator_func generator_func' : nat -> RandVar)
    (function_id : FunctionId) (key : SubKey) (cache : cache_ref)
    (st : State) :
  _get_or_create_preprocess_rand_vars generator_func function_id None key st
  = (Ok (generator_func (draws st)), mkState (caches st) (S (draws st)))
  ∧ _get_or_create_preprocess_rand_vars
      generator_func function_id (Some cache) key st
    = match cache_of st cache !! (function_id, key) with
      | Some var => (Ok var, st)
      | None =>
          let var := generator_func (draws st) in
          (Ok var,
           mkState (<[cache := <[(function_id, key) := var]>
                                 (cache_of st cache)]> (caches st))
                   (S (draws st)))
      end
  ∧ (let first :=
       _get_or_create_preprocess_rand_vars
         generator_func function_id (Some cache) key st in
     _get_or_create_preprocess_rand_vars
       generator_func' function_id (Some cache) key first.2
     = first).
Proof.
  split; [done|]. split; [apply get_or_create_run|].
  cbv zeta. rewrite (get_or_create_run generator_func).
  destruct (cache_of st cache !! (function_id, key)) as [v|] eqn:Hlook.
  - cbn [snd]. by rewrite get_or_create_run, Hlook.
  - cbn [snd]. rewrite get_or_create_run, cache_of_update.
    destruct (decide (cache = cache)); [|done]. by rewrite lookup_insert_eq.
Qed.

(** ** Replayable computations *)

#[global] Instance extends_preorder : PreOrder extends.
Proof.
  split.
  - by intros st r.
  - intros st1 st2 st3 H12 H23 r. by trans (cache_of st2 r).
Qed.

Lemma bind_run {A B : Type} (m : M A) (f : A -> M B) (st : State) :
  (m ≫= f) st
  = match m st with
    | (Ok a, st') => f a st'
    | (Raise e, st') => (Raise e, st')
    end.
Proof. done. Qed.

Lemma constant_replayable {A : Type} (m : M A) : constant m → replayable m.
Proof.
  intros [res Hm] st res' st' Hrun. rewrite Hm in Hrun.
  injection Hrun as <- <-. split; [done|]. intros st'' _. apply Hm.
Qed.

Lemma constant_mret {A : Type} (a : A) : constant (mret a : M A).
Proof. by exists (Ok a). Qed.

Lemma constant_raise {A : Type} (e : Error) : constant (raise e : M A).
Proof. by exists (Raise e). Qed.

Lemma constant_expect {A : Type} (e : Error) (o : option A) :
  constant (expect e o).
Proof. destruct o; [apply constant_mret | apply constant_raise]. Qed.

Lemma constant_evaluate {A : Type} (r : Result A) : constant (evaluate r).
Proof. by exists r. Qed.

Lemma constant_bind {A B : Type} (m : M A) (f : A -> M B) :
  constant m → (∀ a, constant (f a)) → constant (m ≫= f).
Proof.
  intros [[a|e] Hm] Hf.
  - destruct (Hf a) as [res Hfa]. exists res. intros st.
    by rewrite bind_run, Hm, Hfa.
  - exists (Raise e). intros st. by rewrite bind_run, Hm.
Qed.

Lemma replayable_bind {A B : Type} (m : M A) (f : A -> M B) :
  replayable m → (∀ a, replayable (f a)) → replayable (m ≫= f).
Proof.
  intros Hm Hf st res st' Hrun. rewrite bind_run in Hrun.
  destruct (m st) as [[a|e] st1] eqn:Hmst.
  - destruct (Hm _ _ _ Hmst) as [Hext1 Hre1].
    destruct (Hf a _ _ _ Hrun) as [Hext2 Hre2].
    split; [by trans st1|].
    intros st'' Hext. rewrite bind_run, Hre1; [by apply Hre2|].
    by trans st'.
  - injection Hrun as <- <-.
    destruct (Hm _ _ _ Hmst) as [Hext1 Hre1].
    split; [done|]. intros st'' Hext. by rewrite bind_run, Hre1.
Qed.

Lemma replayable_mret {A : Type} (a : A) : replayable (mret a : M A).
Proof. apply constant_replayable, constant_mret. Qed.

Lemma replayable_raise {A : Type} (e : Error) : replayable (raise e : M A).
Proof. apply constant_replayable, constant_raise. Qed.

Lemma replayable_expect {A : Type} (e : Error) (o : option A) :
  replayable (expect e o).
Proof. apply constant_replayable, constant_expect. Qed.

Lemma extends_update (st : State) (r : cache_ref) (k : FunctionId * SubKey)
    (v : RandVar) (n : nat) :
  cache_of st r !! k = None →
  extends st (mkState (<[r := <[k := v]> (cache_of st r)]> (caches st)) n).
Proof.
  intros Hnone r'. rewrite cache_of_update.
  destruct (decide (r = r')) as [<-|]; [|done]. by apply insert_subseteq.
Qed.

(** An access through a cache is replayable, whatever the generator. *)
Lemma replayable_get_or_create (g : nat -> RandVar) (function_id : FunctionId)
    (cache : cache_ref) (key : SubKey) :
  replayable
    (_get_or_create_preprocess_rand_vars g function_id (Some cache) key).
Proof.
  intros st res st' Hrun. rewrite get_or_create_run in Hrun.
  destruct (cache_of st cache !! (function_id, key)) as [v|] eqn:Hlook.
  - injection Hrun as <- <-. split; [done|].
    intros st'' Hext. rewrite get_or_create_run.
    by rewrite (lookup_weaken _ _ _ _ Hlook (Hext cache)).
  - injection Hrun as <- <-. split; [by apply extends_update|].
    intros st'' Hext. rewrite get_or_create_run.
    assert (cache_of st'' cache !! (function_id, key)
            = Some (g (draws st))) as ->; [|done].
    eapply lookup_weaken; [|apply (Hext cache)].
    rewrite cache_of_update. destruct (decide (cache = cache)); [|done].
    apply lookup_insert_eq.
Qed.

Lemma replayable_build {A : Type} (m : M A) :
  replayable m → replayable (build m).
Proof.
  intros Hm st res st' Hrun. unfold build in Hrun.
  destruct (m st) as [[a|e] st1] eqn:Hmst;
    destruct (Hm _ _ _ Hmst) as [Hext1 Hre1].
  - injection Hrun as <- <-. split; [done|].
    intros st'' Hext. unfold build. by rewrite Hre1.
  - destruct (at_run_time e) eqn:He; injection Hrun as <- <-;
      (split; [done|]); intros st'' Hext; unfold build;
      by rewrite Hre1, ?He.
Qed.

Lemma replayable_tf_cond {A : Type} (pred : bool) (true_fn false_fn : M A) :
  replayable true_fn → replayable false_fn →
  replayable (tf_cond pred true_fn false_fn).
Proof.
  intros Ht Hf. unfold tf_cond.
  apply replayable_bind; [by apply replayable_build|]. intros t.
  apply replayable_bind; [by apply replayable_build|]. intros f.
  apply constant_replayable, constant_evaluate.
Qed.

Lemma replayable_mapM {A B : Type} (f : A -> M B) (l : list A) :
  (∀ a, replayable (f a)) → replayable (mapM f l).
Proof.
  intros Hf. induction l as [|x l IH]; simpl.
  - apply replayable_mret.
  - apply replayable_bind; [apply Hf|]. intros y.
    apply replayable_bind; [apply IH|]. intros k. apply replayable_mret.
Qed.


(** ** Index selection *)

Lemma where_from_elem (n i : nat) (mask : list bool) :
  i ∈ where_from n mask ↔ (n ≤ i)%nat ∧ mask !! (i - n)%nat = Some true.
Proof.
  revert n. induction mask as [|b mask IH]; intros n; simpl.
  - rewrite elem_of_nil, lookup_nil. intuition (done || discriminate).
  - assert (i ∈ (if b then [n] else []) ↔ i = n ∧ b = true) as Hhead.
    { destruct b; rewrite ?list_elem_of_singleton, ?elem_of_nil;
        intuition (done || discriminate). }
    rewrite elem_of_app, IH, Hhead.
    destruct (lt_eq_lt_dec i n) as [[Hlt| ->]|Hgt].
    + intuition (done || lia).
    + replace (n - n)%nat with 0%nat by lia. simpl.
      intuition (done || lia || congruence).
    + replace (i - n)%nat with (S (i - S n))%nat by lia. simpl.
      intuition (done || lia).
Qed.

Lemma tf_where_elem (i : nat) (mask : list bool) :
  i ∈ tf_where mask ↔ mask !! i = Some true.
Proof.
  unfold tf_where. rewrite where_from_elem.
  replace (i - 0)%nat with i by lia. intuition (done || lia).
Qed.

Lemma where_from_sorted (n : nat) (mask : list bool) :
  StronglySorted lt (where_from n mask).
Proof.
  revert n. induction mask as [|b mask IH]; intros n; simpl.
  - constructor.
  - destruct b; simpl; [|apply IH]. constructor; [apply IH|].
    apply Forall_forall. intros i Hi%where_from_elem. lia.
Qed.

Lemma tf_where_bound (i : nat) (mask : list bool) :
  i ∈ tf_where mask → (i < length mask)%nat.
Proof. rewrite tf_where_elem. apply lookup_lt_Some. Qed.

Lemma tf_gather_is_Some {A : Type} (params : list A) (indices : list nat) :
  Forall (fun i => i < length params)%nat indices →
  is_Some (tf_gather params indices).
Proof.
  intros Hall. unfold tf_gather. apply mapM_is_Some.
  eapply Forall_impl; [exact Hall|]. intros i Hi. by apply lookup_lt_is_Some.
Qed.

Lemma tf_gather_length {A : Type} (params rows : list A)
    (indices : list nat) :
  tf_gather params indices = Some rows → length rows = length indices.
Proof. intros Hg. symmetry. by eapply length_mapM. Qed.

(** Row [j] of a gathered array is the row of the source at the [j]-th
    index. *)
Lemma tf_gather_lookup {A : Type} (params rows : list A)
    (indices : list nat) (j : nat) :
  tf_gather params indices = Some rows →
  rows !! j = indices !! j ≫= fun i => params !! i.
Proof.
  unfold tf_gather. rewrite mapM_Some. intros Hall.
  revert j. induction Hall as [|i x indices' rows' Hx _ IH]; intros [|j];
    simpl; [done|done|by rewrite Hx|apply IH].
Qed.

Lemma tf_gather_where {A : Type} (params : list A) (mask : list bool) :
  (length mask ≤ length params)%nat →
  is_Some (tf_gather params (tf_where mask)).
Proof.
  intros Hlen. apply tf_gather_is_Some, Forall_forall.
  intros i Hi%tf_where_bound. lia.
Qed.

(** ** Configuration errors *)

(** C6: both flips raise the configuration error when keypoints come without
    a flip permutation, and leave the state as it was: nothing is drawn and
    no cache entry is made. *)
Theorem flips_reject_keypoints_without_permutation
    `{RandomOps} `{GeometryOps}
    (image : Image) (boxes : option (list Box)) (masks : option Masks)
    (keypoints : Keypoints) (seed : option Z)
    (preprocess_vars_cache : option cache_ref) (st : State) :
  random_horizontal_flip image boxes masks (Some keypoints) None seed
    preprocess_vars_cache st
  = (Raise (ValueError
      "keypoints are provided but keypoints_flip_permutation is not provided"),
     st)
  ∧ random_vertical_flip image boxes masks (Some keypoints) None seed
      preprocess_vars_cache st
    = (Raise (ValueError
        "keypoints are provided but keypoints_flip_permutation is not provided"),
       st).
Proof.
  unfold random_horizontal_flip, random_vertical_flip.
  rewrite !bool_decide_eq_true_2 by (split; [by eexists | done]). done.
Qed.

(** C10: an image field that is not rank 4 makes preprocess raise before any
    function of the list is called. *)
Theorem preprocess_rejects_unbatched_image
    (tensor_dict : TensorDict) (images : Tensor)
    (preprocess_options : list PreprocessFn)
    (func_arg_map : option FuncArgMap)
    (preprocess_vars_cache : option cache_ref) (st : State) :
  tensor_dict !! InputDataFields.image = Some images →
  rank images ≠ 4%nat →
  preprocess tensor_dict preprocess_options func_arg_map preprocess_vars_cache
    st
  = (Raise (ValueError "images in tensor_dict should be rank 4"), st).
Proof.
  intros Himg Hrank. unfold preprocess. rewrite bind_run, Himg.
  by rewrite bool_decide_eq_true_2.
Qed.

(** ** retain_boxes_above_threshold *)

Lemma bind_expect_Some {A B : Type} (e : Error) (a : A) (f : A -> M B)
    (st : State) :
  (expect e (Some a) ≫= f) st = f a st.
Proof. done. Qed.

Lemma bind_mret {A B : Type} (a : A) (f : A -> M B) (st : State) :
  (mret a ≫= f) st = f a st.
Proof. done. Qed.



(** Two weights that exceed the threshold and are dropped: float32 0.1
    against the Python float 0.1, which is the smaller number and rounds to
    that float32; and the subnormal 2^-149 against 0.0. *)
Lemma retain_boxes_above_threshold_counterexample :
  let tenth := f64_tenths 1 in
  let weight := F64.to_f32 tenth in
  let tiny := F32.of_Z_exp 1 (-149) in
  let box := mkBox F32.zero F32.zero F32.one F32.one in
  SFltb tenth weight = true
  ∧ F32.is_nan weight = false
  ∧ retain_boxes_above_threshold [box] [1] [weight] None None None None
      tenth initial_state
    = (Ok [TBoxes []; TInts []; TFloats []], initial_state)
  ∧ SFltb F64.zero tiny = true
  ∧ F32.is_nan tiny = false
  ∧ retain_boxes_above_threshold [box] [1] [tiny] None None None None
      F64.zero initial_state
    = (Ok [TBoxes []; TInts []; TFloats []], initial_state).
Proof. vm_compute. repeat split. Qed.

(** ** Horizontal flip *)

Lemma map_rev_involutive {A : Type} (rows : list (list A)) :
  map (@rev A) (map (@rev A) rows) = rows.
Proof.
  induction rows as [|row rows IH]; simpl; [done|].
  by rewrite rev_involutive, IH.
Qed.

Lemma flip_left_right_involutive (image : Image) :
  flip_left_right (flip_left_right image) = image.
Proof. apply map_rev_involutive. Qed.

Lemma flip_masks_left_right_involutive (masks : Masks) :
  _flip_masks_left_right (_flip_masks_left_right masks) = masks.
Proof.
  unfold _flip_masks_left_right.
  induction masks as [|mask masks IH]; simpl; [done|].
  by rewrite map_rev_involutive, IH.
Qed.

Lemma flip_boxes_left_right_twice (boxes : list Box) :
  _flip_boxes_left_right (_flip_boxes_left_right boxes) = boxes
  ↔ Forall (fun b => reflection_exact (xmin b) ∧ reflection_exact (xmax b))
           boxes.
Proof.
  unfold _flip_boxes_left_right, reflection_exact.
  induction boxes as [|[y0 x0 y1 x1] boxes IH]; simpl.
  - split; [constructor|done].
  - rewrite Forall_cons, <- IH. simpl. split.
    + intros [= Hx0 Hx1 Hrest]. by rewrite Hx0, Hx1, Hrest.
    + intros [[-> ->] ->]. done.
Qed.

(** C4, amended: the flip maps each row to [ymin, 1 - xmax, ymax, 1 - xmin];
    flipping the boxes twice gives the boxes back exactly when every
    x-coordinate survives the double reflection in float32, flipping the
    image twice always gives the image back, and two successive applications
    of random_horizontal_flip whose cached draw is above 0.5 return the image,
    such boxes and the masks. *)
Theorem horizontal_flip_twice `{RandomOps} `{GeometryOps} :
  (∀ (boxes : list Box) (i : nat) (b : Box),
     boxes !! i = Some b →
     _flip_boxes_left_right boxes !! i
     = Some (mkBox (ymin b) (F32.sub F32.one (xmax b))
                   (ymax b) (F32.sub F32.one (xmin b))))
  ∧ (∀ boxes : list Box,
       _flip_boxes_left_right (_flip_boxes_left_right boxes) = boxes
       ↔ Forall (fun b => reflection_exact (xmin b)
                          ∧ reflection_exact (xmax b)) boxes)
  ∧ (∀ image : Image, flip_left_right (flip_left_right image) = image)
  ∧ (∀ (image : Image) (boxes : list Box) (masks : option Masks)
       (keypoint_flip_permutation : option (list nat)) (seed : option Z)
       (cache : cache_ref) (st : State) (draw : F32.t),
       cache_of st cache !! (HORIZONTAL_FLIP, KStr "") = Some (RVFloat draw) →
       F32.greater draw F32.half = true →
       Forall (fun b => reflection_exact (xmin b)
                        ∧ reflection_exact (xmax b)) boxes →
       ∃ image' boxes' masks',
         random_horizontal_flip image (Some boxes) masks None
           keypoint_flip_permutation seed (Some cache) st
         = (Ok ([TImage image'; TBoxes boxes'] ++ append_if TMasks masks'),
            st)
         ∧ random_horizontal_flip image' (Some boxes') masks' None
             keypoint_flip_permutation seed (Some cache) st
           = (Ok ([TImage image; TBoxes boxes] ++ append_if TMasks masks),
              st)).
Proof.
  split; [|split; [|split]].
  - intros boxes i b Hb. unfold _flip_boxes_left_right.
    change (map ?f ?l) with (f <$> l). by rewrite list_lookup_fmap, Hb.
  - apply flip_boxes_left_right_twice.
  - apply flip_left_right_involutive.
  - intros image boxes masks perm seed cache st draw Hcached Hdraw Hexact.
    exists (flip_left_right image), (_flip_boxes_left_right boxes),
      (_flip_masks_left_right <$> masks).
    assert (∀ im bx mk,
      random_horizontal_flip im (Some bx) mk None perm seed (Some cache) st
      = (Ok ([TImage (flip_left_right im);
              TBoxes (_flip_boxes_left_right bx)]
             ++ append_if TMasks (_flip_masks_left_right <$> mk)), st))
      as Hflip.
    { intros im bx mk. unfold random_horizontal_flip.
      rewrite bool_decide_eq_false_2 by (intros [[? [=]] _]).
      rewrite bind_run, get_or_create_run, Hcached. simpl.
      rewrite bind_mret, Hdraw. by destruct mk. }
    split; [apply Hflip|]. rewrite Hflip, flip_left_right_involutive.
    rewrite (proj2 (flip_boxes_left_right_twice boxes) Hexact).
    destruct masks as [masks|]; simpl; [|done].
    by rewrite flip_masks_left_right_involutive.
Qed.

Lemma flip_boxes_twice_counterexample :
  let box := mkBox F32.zero (F32.of_Z_exp 1 (-30)) F32.one F32.half in
  _flip_boxes_left_right (_flip_boxes_left_right [box]) ≠ [box].
Proof. vm_compute. discriminate. Qed.

(** ** Replay of the operations *)

Create HintDb replay_unfold.

#[global] Hint Unfold float_var int_var crop_var at_most arg opt_arg selected
  selected_if item get_field field_values boxlist_gather
  prune_completely_outside_window prune_non_overlapping_boxes
  crop_to_sampled_window _strict_random_crop_image random_crop_image
  _apply_with_random_selector_tuples random_crop_selector ssd_random_crop
  random_horizontal_flip random_vertical_flip retain_boxes_above_threshold
  evaluate
  : replay_unfold.

Lemma replayable_evaluate {A : Type} (r : Result A) :
  replayable (evaluate r).
Proof. apply constant_replayable, constant_evaluate. Qed.

(** Replayability follows the shape of the code: every step is a return, an
    exception, a cache access, or a combination of replayable steps. *)
Ltac replay :=
  repeat first
    [ apply replayable_mret
    | apply replayable_raise
    | apply replayable_expect
    | apply replayable_evaluate
    | apply replayable_get_or_create
    | apply replayable_tf_cond
    | apply replayable_build
    | apply replayable_mapM; intros ?
    | apply replayable_bind; [|intros ?]
    | match goal with
      | |- replayable (match ?x with _ => _ end) => destruct x
      end
    | progress cbv zeta
    | progress autounfold with replay_unfold ].

Section ReplayOperations.
Context `{RandomOps} `{GeometryOps}.

Lemma replayable_retain_boxes_above_threshold
    boxes labels label_weights label_confidences multiclass_scores masks
    keypoints threshold :
  replayable
    (retain_boxes_above_threshold boxes labels label_weights
       label_confidences multiclass_scores masks keypoints threshold).
Proof. replay. Qed.

Lemma replayable_random_horizontal_flip
    image boxes masks keypoints keypoint_flip_permutation seed cache :
  replayable
    (random_horizontal_flip image boxes masks keypoints
       keypoint_flip_permutation seed (Some cache)).
Proof. replay. Qed.

Lemma replayable_random_vertical_flip
    image boxes masks keypoints keypoint_flip_permutation seed cache :
  replayable
    (random_vertical_flip image boxes masks keypoints
       keypoint_flip_permutation seed (Some cache)).
Proof. replay. Qed.

Lemma replayable_strict_random_crop_image
    image boxes labels label_weights label_confidences multiclass_scores
    masks keypoints min_object_covered aspect_ratio_range area_range
    overlap_thresh clip_boxes cache :
  replayable
    (_strict_random_crop_image image boxes labels label_weights
       label_confidences multiclass_scores masks keypoints min_object_covered
       aspect_ratio_range area_range overlap_thresh clip_boxes (Some cache)).
Proof. replay. Qed.

Lemma replayable_random_crop_image
    image boxes labels label_weights label_confidences multiclass_scores
    masks keypoints min_object_covered aspect_ratio_range area_range
    overlap_thresh clip_boxes random_coef seed cache :
  replayable
    (random_crop_image image boxes labels label_weights label_confidences
       multiclass_scores masks keypoints min_object_covered
       aspect_ratio_range area_range overlap_thresh clip_boxes random_coef
       seed (Some cache)).
Proof. replay. Qed.

Lemma replayable_ssd_random_crop
    image boxes labels label_weights label_confidences multiclass_scores
    masks keypoints min_object_covered aspect_ratio_range area_range
    overlap_thresh clip_boxes random_coef seed cache :
  replayable
    (ssd_random_crop image boxes labels label_weights label_confidences
       multiclass_scores masks keypoints min_object_covered
       aspect_ratio_range area_range overlap_thresh clip_boxes random_coef
       seed (Some cache)).
Proof. replay. Qed.


Lemma cache_aware_random_vertical_flip keypoint_flip_permutation seed :
  cache_aware (fn_random_vertical_flip keypoint_flip_permutation seed).
Proof. intros args cache. simpl. replay. Qed.



Lemma cache_aware_ssd_random_crop
    min_object_covered aspect_ratio_range area_range overlap_thresh
    clip_boxes random_coef seed :
  cache_aware
    (fn_ssd_random_crop min_object_covered aspect_ratio_range area_range
       overlap_thresh clip_boxes random_coef seed).
Proof. intros args cache. simpl. replay. Qed.

End ReplayOperations.


(** ** Determinism under a shared cache *)




(** ** random_jitter_boxes *)

Section Jitter.
Context `{RandomOps}.

Lemma random_jitter_box_run (box : Box) (ratio : F64.t) (seed : option Z)
    (st : State) :
  random_jitter_box box ratio seed st
  = (Ok (jittered_box box
           (random_uniform_4 (F64.to_f32 (SFopp ratio)) (F64.to_f32 ratio)
                             seed (draws st))),
     mkState (caches st) (S (draws st))).
Proof. done. Qed.

Lemma jitter_each_box_run (boxes : list Box) (ratio : F64.t)
    (seed : option Z) (st : State) :
  mapM (fun x => random_jitter_box x ratio seed) boxes st
  = (Ok (imap (fun i box =>
                 jittered_box box
                   (random_uniform_4 (F64.to_f32 (SFopp ratio))
                                     (F64.to_f32 ratio) seed (draws st + i)))
              boxes),
     mkState (caches st) (draws st + length boxes)).
Proof.
  revert st. induction boxes as [|box boxes IH]; intros st.
  - simpl. unfold mret, M_ret. do 2 f_equal. destruct st; simpl.
    f_equal. lia.
  - change (mapM ?f (box :: boxes))
      with (y ← f box; k ← mapM f boxes; mret (y :: k)).
    rewrite bind_run, random_jitter_box_run, bind_run, IH. simpl.
    unfold mret, M_ret. f_equal; [|f_equal; lia].
    f_equal. f_equal; [by rewrite Nat.add_0_r|].
    apply imap_ext. intros i b _. simpl. do 2 f_equal. lia.
Qed.

Lemma random_jitter_boxes_run (boxes : list Box) (ratio : F64.t)
    (seed : option Z) (st : State) :
  random_jitter_boxes boxes ratio seed st
  = (Ok [TBoxes
           (imap (fun i box =>
                    jittered_box box
                      (random_uniform_4 (F64.to_f32 (SFopp ratio))
                                        (F64.to_f32 ratio) seed
                                        (draws st + i)))
                 boxes)],
     mkState (caches st) (draws st + length boxes)).
Proof.
  unfold random_jitter_boxes. by rewrite bind_run, jitter_each_box_run.
Qed.

End Jitter.

(** C3: random_jitter_boxes has no cache argument; called by preprocess with
    a shared cache it leaves every cache as it is and jitters each box with a
    draw of its own, taken at the current position of the session.  In the
    sample session two calls of preprocess that share a cache replay the flip
    and jitter the boxes differently. *)
Theorem random_jitter_boxes_outside_cache :
  (∀ (R : RandomOps) (ratio : F64.t) (seed : option Z),
     fn_takes_cache (fn_random_jitter_boxes ratio seed) = false)
  ∧ (∀ (R : RandomOps) (ratio : F64.t) (seed : option Z)
       (func_arg_map : FuncArgMap) (cache : cache_ref)
       (tensor_dict : TensorDict) (boxes : list Box) (st : State),
       func_arg_map !! "random_jitter_boxes"
       = Some [Some InputDataFields.groundtruth_boxes] →
       tensor_dict !! InputDataFields.groundtruth_boxes
       = Some (TBoxes boxes) →
       preprocess_option func_arg_map (Some cache) tensor_dict
         (fn_random_jitter_boxes ratio seed) st
       = (Ok (<[InputDataFields.groundtruth_boxes :=
                  TBoxes
                    (imap (fun i box =>
                       jittered_box box
                         (random_uniform_4 (F64.to_f32 (SFopp ratio))
                            (F64.to_f32 ratio) seed (draws st + i)))
                       boxes)]> tensor_dict),
          mkState (caches st) (draws st + length boxes)))
  ∧ (let ratio :=
       SFdiv F64.prec F64.emax (F64.of_Z_exp 5 0) (F64.of_Z_exp 100 0) in
     let options :=
       [@fn_random_horizontal_flip sample_random_ops sample_geometry_ops
          None None;
        @fn_random_jitter_boxes sample_random_ops ratio None] in
     let quarter := F32.of_Z_exp 1 (-2) in
     let three_quarters := F32.of_Z_exp 3 (-2) in
     let tensor_dict : TensorDict :=
       {[ InputDataFields.image := TImages [[[[F32.one]; [F32.zero]]]];
          InputDataFields.groundtruth_boxes :=
            TBoxes [mkBox quarter quarter three_quarters three_quarters] ]} in
     let first :=
       preprocess tensor_dict options None (Some 0%nat) initial_state in
     let second := preprocess tensor_dict options None (Some 0%nat) first.2 in
     result_field first.1 InputDataFields.image
     = Some (TImages [[[[F32.zero]; [F32.one]]]])
     ∧ result_field second.1 InputDataFields.image
       = Some (TImages [[[[F32.zero]; [F32.one]]]])
     ∧ is_Some (result_field first.1 InputDataFields.groundtruth_boxes)
     ∧ is_Some (result_field second.1 InputDataFields.groundtruth_boxes)
     ∧ result_field first.1 InputDataFields.groundtruth_boxes
       ≠ result_field second.1 InputDataFields.groundtruth_boxes).
Proof.
  split; [done|]. split.
  - intros R ratio seed func_arg_map cache tensor_dict boxes st Hmap Hboxes.
    unfold preprocess_option. simpl fn_name. rewrite Hmap, bind_expect_Some.
    simpl omap.
    destruct (list_find _ _) as [[i a]|] eqn:Hfind.
    { apply list_find_Some in Hfind as (Ha & Hnone & _).
      apply list_lookup_singleton_Some in Ha as [_ <-]. congruence. }
    rewrite bind_mret. simpl. rewrite Hboxes. simpl.
    rewrite bind_run.
    change ((at_most 1 [Some (TBoxes boxes)] ≫= _) st)
      with (random_jitter_boxes boxes ratio seed st).
    by rewrite random_jitter_boxes_run.
  - intros ratio options quarter three_quarters tensor_dict first second.
    split; [by vm_compute|]. split; [by vm_compute|].
    split; [vm_compute; by eexists|]. split; [vm_compute; by eexists|].
    vm_compute. discriminate.
Qed.

(** ** Instances at concrete inputs *)

Lemma preprocess_rejects_unbatched_image_witness :
  preprocess {[ InputDataFields.image := TImage [[[F32.one]]] ]}
    [fn_retain_boxes_above_threshold F64.zero] None None initial_state
  = (Raise (ValueError "images in tensor_dict should be rank 4"),
     initial_state).
Proof.
  apply (preprocess_rejects_unbatched_image _ (TImage [[[F32.one]]])).
  - reflexivity.
  - simpl. lia.
Defined.


Lemma horizontal_flip_twice_witness :
  let quarter := F32.of_Z_exp 1 (-2) in
  let three_quarters := F32.of_Z_exp 3 (-2) in
  let image : Image := [[[F32.one]; [F32.zero]]] in
  let boxes := [mkBox quarter quarter three_quarters F32.one] in
  let st :=
    mkState {[ 0%nat := {[ (HORIZONTAL_FLIP, KStr "")
                           := RVFloat three_quarters ]} ]} 0 in
  ∃ image' boxes' masks',
    @random_horizontal_flip sample_random_ops sample_geometry_ops
      image (Some boxes) None None None None (Some 0%nat) st
    = (Ok ([TImage image'; TBoxes boxes'] ++ append_if TMasks masks'), st)
    ∧ @random_horizontal_flip sample_random_ops sample_geometry_ops
        image' (Some boxes') masks' None None None (Some 0%nat) st
      = (Ok [TImage image; TBoxes boxes], st).
Proof.
  intros quarter three_quarters image boxes st.
  apply (proj2 (proj2 (proj2
           (@horizontal_flip_twice sample_random_ops sample_geometry_ops)))
           image boxes None None None 0%nat st three_quarters).
  - vm_compute. reflexivity.
  - vm_compute. reflexivity.
  - repeat constructor; vm_compute; reflexivity.
Defined.

Lemma random_jitter_boxes_outside_cache_witness :
  let box := mkBox F32.zero F32.zero F32.one F32.one in
  let ratio := F64.of_Z_exp 1 (-4) in
  (preprocess_option (get_default_func_arg_map true false false false false)
     (Some 0%nat) {[ InputDataFields.groundtruth_boxes := TBoxes [box] ]}
     (@fn_random_jitter_boxes sample_random_ops ratio None) initial_state).2
  = mkState ∅ 1.
Proof.
  intros box ratio.
  rewrite (proj1 (proj2 random_jitter_boxes_outside_cache)
             sample_random_ops ratio None _ 0%nat _ [box] initial_state).
  - reflexivity.
  - vm_compute. reflexivity.
  - vm_compute. reflexivity.
Defined.

(** ** Two-stage selection *)

Lemma sorted_lookup_lt (l : list nat) (i j a b : nat) :
  StronglySorted lt l → (i < j)%nat →
  l !! i = Some a → l !! j = Some b → (a < b)%nat.
Proof.
  intros Hsorted. revert i j.
  induction Hsorted as [|x l _ IH Hall]; intros i j Hij Ha Hb; [done|].
  destruct j as [|j]; [lia|]. destruct i as [|i]; simpl in *.
  - injection Ha as ->. rewrite Forall_forall in Hall.
    apply Hall. by eapply list_elem_of_lookup_2.
  - apply (IH i j); [lia|done..].
Qed.

Lemma tf_gather_elem {A : Type} (params rows : list A) (indices : list nat)
    (x : A) :
  tf_gather params indices = Some rows →
  x ∈ rows ↔ ∃ i, i ∈ indices ∧ params !! i = Some x.
Proof.
  unfold tf_gather. rewrite mapM_Some. intros Hall. split.
  - intros [j Hj]%list_elem_of_lookup_1.
    destruct (Forall2_lookup_r _ _ _ _ _ Hall Hj) as (i & Hi & Hx).
    exists i. split; [by eapply list_elem_of_lookup_2|done].
  - intros (i & [j Hj]%list_elem_of_lookup_1 & Hx).
    destruct (Forall2_lookup_l _ _ _ _ _ Hall Hj) as (y & Hy & Hx').
    eapply list_elem_of_lookup_2. rewrite Hy. congruence.
Qed.

Lemma tf_gather_sorted (ids keep sel : list nat) :
  StronglySorted lt ids → StronglySorted lt keep →
  tf_gather ids keep = Some sel → StronglySorted lt sel.
Proof.
  intros Hids Hkeep. unfold tf_gather. rewrite mapM_Some. intros Hall.
  induction Hall as [|k s keep' sel' Hk Hall IH]; [constructor|].
  apply StronglySorted_cons in Hkeep as [Hlt Hkeep].
  apply StronglySorted_cons. split; [|by apply IH].
  apply Forall_forall. intros s' [j Hj]%list_elem_of_lookup_1.
  destruct (Forall2_lookup_r _ _ _ _ _ Hall Hj) as (k' & Hk' & Hs').
  rewrite Forall_forall in Hlt.
  assert (k < k')%nat as Hkk by (apply Hlt; by eapply list_elem_of_lookup_2).
  by eapply (sorted_lookup_lt ids k k').
Qed.

(** Gathering twice is gathering at the composed indices. *)
Lemma tf_gather_compose {A : Type} (params rows : list A)
    (ids keep sel : list nat) :
  tf_gather params ids = Some rows →
  tf_gather ids keep = Some sel →
  tf_gather rows keep = tf_gather params sel.
Proof.
  intros Hrows. unfold tf_gather at 1. rewrite mapM_Some. intros Hall.
  unfold tf_gather.
  induction Hall as [|k s keep' sel' Hk _ IH]; [done|]. simpl.
  rewrite IH. f_equal.
  rewrite (tf_gather_lookup _ _ _ k Hrows), Hk. done.
Qed.

(** The rows that survive two prunings, the second computed on what the
    first kept, are the rows that pass both tests, in their order. *)
Lemma two_stage_selection {A : Type} (p1 p2 : A -> bool)
    (rows kept : list A) :
  tf_gather rows (tf_where (map p1 rows)) = Some kept →
  ∃ sel,
    tf_gather (tf_where (map p1 rows)) (tf_where (map p2 kept)) = Some sel
    ∧ StronglySorted lt sel
    ∧ (∀ i, i ∈ sel ↔
            ∃ x, rows !! i = Some x ∧ p1 x = true ∧ p2 x = true).
Proof.
  intros Hkept.
  set (ids := tf_where (map p1 rows)) in *.
  set (keep := tf_where (map p2 kept)).
  destruct (tf_gather_is_Some ids keep) as [sel Hsel].
  { apply Forall_forall. intros k Hk%tf_where_bound.
    rewrite length_map in Hk. by rewrite <- (tf_gather_length _ _ _ Hkept). }
  exists sel. split; [done|]. split.
  { eapply tf_gather_sorted; [..|exact Hsel]; apply where_from_sorted. }
  intros i. rewrite (tf_gather_elem _ _ _ _ Hsel). split.
  - intros (k & Hk & Hi). unfold keep in Hk.
    rewrite tf_where_elem, list_lookup_fmap in Hk.
    destruct (kept !! k) as [x|] eqn:Hx; [|done]. injection Hk as Hp2.
    rewrite (tf_gather_lookup _ _ _ k Hkept), Hi in Hx. simpl in Hx.
    exists x. split; [done|]. split; [|done].
    apply list_elem_of_lookup_2 in Hi. unfold ids in Hi.
    rewrite tf_where_elem, list_lookup_fmap, Hx in Hi. by injection Hi.
  - intros (x & Hx & Hp1 & Hp2).
    assert (i ∈ ids) as [k Hk]%list_elem_of_lookup_1.
    { unfold ids. by rewrite tf_where_elem, list_lookup_fmap, Hx, <- Hp1. }
    exists k. split; [|done]. unfold keep.
    rewrite tf_where_elem, list_lookup_fmap.
    rewrite (tf_gather_lookup _ _ _ k Hkept), Hk. simpl.
    by rewrite Hx, <- Hp2.
Qed.

(** ** Stepping through a run *)

Lemma bind_assoc_run {A B C : Type} (m : M A) (f : A -> M B) (g : B -> M C)
    (st : State) :
  ((m ≫= f) ≫= g) st = (m ≫= (fun a => f a ≫= g)) st.
Proof. rewrite !bind_run. by destruct (m st) as [[a|e] st1]. Qed.

Lemma bind_raise {A B : Type} (e : Error) (f : A -> M B) (st : State) :
  (raise e ≫= f) st = (Raise e, st).
Proof. done. Qed.

Lemma bind_expect_inv {A B : Type} (e : Error) (o : option A) (f : A -> M B)
    (st st' : State) (res : Result B) :
  (expect e o ≫= f) st = (res, st') →
  (∃ a, o = Some a ∧ f a st = (res, st'))
  ∨ (o = None ∧ res = Raise e ∧ st' = st).
Proof.
  destruct o as [a|]; [left; eauto|right]. by injection H as <- <-.
Qed.

(** Inverts a run of straight-line code, one step at a time: each step that
    can fail splits into its success, named, and its failure. *)
Ltac run_inv H :=
  repeat first
    [ rewrite bind_assoc_run in H
    | rewrite bind_mret in H
    | rewrite bind_raise in H
    | rewrite bind_expect_Some in H
    | apply bind_expect_inv in H as [(? & ? & H)|(? & ? & ?)]
    | match goal with
      | Hf : _ <$> _ = Some _ |- _ => apply fmap_Some in Hf as (? & ? & ->)
      | Hf : _ <$> _ = None |- _ => apply fmap_None in Hf
      end
    | progress simpl in H ].

(** ** Box lists *)

Lemma gather_each_field_run (fields : list (string * Tensor))
    (indices : list nat) (st : State) :
  mapM (fun p : string * Tensor =>
          t ← expect InvalidArgumentError (gather_tensor (snd p) indices);
          mret (fst p, t)) fields st
  = (match gather_fields fields indices with
     | Some fields' => Ok fields'
     | None => Raise InvalidArgumentError
     end, st).
Proof.
  unfold gather_fields. induction fields as [|[name data] fields IH];
    [done|].
  change (mapM ?f ((name, data) :: fields))
    with (y ← f (name, data); k ← mapM f fields; mret (y :: k)) at 1.
  simpl. rewrite bind_assoc_run.
  destruct (gather_tensor data indices) as [t|]; [|done].
  rewrite bind_expect_Some, bind_mret, bind_run, IH. simpl.
  by destruct (@mapM option _ _ _ _ _ fields).
Qed.

Lemma boxlist_gather_run (boxlist : BoxList) (indices : list nat)
    (st : State) :
  boxlist_gather boxlist indices st
  = (match tf_gather (bl_boxes boxlist) indices,
           gather_fields (bl_fields boxlist) indices with
     | Some boxes, Some fields => Ok (mkBoxList boxes fields)
     | _, _ => Raise InvalidArgumentError
     end, st).
Proof.
  unfold boxlist_gather.
  destruct (tf_gather (bl_boxes boxlist) indices) as [boxes|]; [|done].
  rewrite bind_expect_Some, bind_run, gather_each_field_run.
  by destruct (gather_fields _ _).
Qed.

Lemma tf_gather_opt_Some {A : Type} (params rows : option (list A))
    (indices : list nat) :
  tf_gather_opt params indices = Some rows
  ↔ option_Forall2 (fun l r => tf_gather l indices = Some r) params rows.
Proof.
  destruct params as [l|]; simpl.
  - rewrite fmap_Some. split.
    + intros (r & Hr & ->). by constructor.
    + inversion 1; subst. eauto.
  - split; [intros [= <-]; constructor|by inversion 1].
Qed.

(** The fields of a cropped box list are gathered field by field and keep
    their names. *)
Lemma crop_fields_gather labels label_weights label_confidences
    multiclass_scores indices :
  gather_fields
    (crop_fields labels label_weights label_confidences multiclass_scores)
    indices
  = (labels' ← tf_gather labels indices;
     label_weights' ← tf_gather_opt label_weights indices;
     label_confidences' ← tf_gather_opt label_confidences indices;
     multiclass_scores' ← tf_gather_opt multiclass_scores indices;
     Some (crop_fields labels' label_weights' label_confidences'
                       multiclass_scores')).
Proof.
  unfold gather_fields, crop_fields.
  destruct label_weights as [lw|], label_confidences as [lc|],
    multiclass_scores as [ms|]; simpl;
    destruct (tf_gather labels indices); simpl; try done;
    repeat match goal with
           | |- context [tf_gather ?l indices] =>
               destruct (tf_gather l indices); simpl; try done
           end.
Qed.

Lemma crop_fields_named labels label_weights label_confidences
    multiclass_scores :
  let fields :=
    crop_fields labels label_weights label_confidences multiclass_scores in
  field_named fields "labels" = Some (TInts labels)
  ∧ field_named fields "label_weights" = TFloats <$> label_weights
  ∧ field_named fields "label_confidences" = TFloats <$> label_confidences
  ∧ field_named fields "multiclass_scores" = TScores <$> multiclass_scores.
Proof.
  by destruct label_weights, label_confidences, multiclass_scores.
Qed.

Lemma field_values_run {A : Type} (wrap : A -> Tensor)
    (unwrap : Tensor -> option A) (boxlist : BoxList) (field : string)
    (supplied stored : option A) (st : State) :
  (∀ a, unwrap (wrap a) = Some a) →
  field_named (bl_fields boxlist) field = wrap <$> stored →
  (is_Some supplied ↔ is_Some stored) →
  field_values unwrap boxlist field supplied st = (Ok stored, st).
Proof.
  intros Hwrap Hnamed Hsome. unfold field_values, get_field.
  destruct supplied as [a|], stored as [b|]; simpl in *.
  - by rewrite Hnamed, bind_expect_Some, Hwrap.
  - destruct Hsome as [[? [=]] _]. by eexists.
  - destruct Hsome as [_ [? [=]]]. by eexists.
  - done.
Qed.

Lemma crop_boxlist_fields (boxes : list Box) labels label_weights
    label_confidences multiclass_scores :
  add_field_if TScores
    (add_field_if TFloats
       (add_field_if TFloats
          (add_field (BoxList_new boxes) "labels" (TInts labels))
          "label_weights" label_weights)
       "label_confidences" label_confidences)
    "multiclass_scores" multiclass_scores
  = mkBoxList boxes
      (crop_fields labels label_weights label_confidences multiclass_scores).
Proof. by destruct label_weights, label_confidences, multiclass_scores. Qed.

(** An array aligned with the boxes goes through both prunings and comes out
    as its rows at the surviving indices. *)
Lemma two_stage_rows {A B : Type} (rows : list A) (aligned : list B)
    (ids keep sel : list nat) (kept : list A) :
  tf_gather rows ids = Some kept →
  tf_gather ids keep = Some sel →
  Forall (fun i => i < length rows)%nat ids →
  Forall (fun k => k < length kept)%nat keep →
  length aligned = length rows →
  ∃ aligned1 aligned2,
    tf_gather aligned ids = Some aligned1
    ∧ tf_gather aligned1 keep = Some aligned2
    ∧ tf_gather aligned sel = Some aligned2.
Proof.
  intros Hkept Hsel Hids Hkeep Hlen.
  destruct (tf_gather_is_Some aligned ids) as [a1 Ha1]; [by rewrite Hlen|].
  destruct (tf_gather_is_Some a1 keep) as [a2 Ha2].
  { by rewrite (tf_gather_length _ _ _ Ha1),
      <- (tf_gather_length _ _ _ Hkept). }
  exists a1, a2. split; [done|]. split; [done|].
  by rewrite <- (tf_gather_compose _ _ _ _ _ Ha1 Hsel).
Qed.

Lemma two_stage_rows_opt {A B : Type} (rows : list A)
    (aligned : option (list B)) (ids keep sel : list nat) (kept : list A) :
  tf_gather rows ids = Some kept →
  tf_gather ids keep = Some sel →
  Forall (fun i => i < length rows)%nat ids →
  Forall (fun k => k < length kept)%nat keep →
  from_option (fun l => length l = length rows) True aligned →
  ∃ aligned1 aligned2,
    tf_gather_opt aligned ids = Some aligned1
    ∧ tf_gather_opt aligned1 keep = Some aligned2
    ∧ option_Forall2 (fun l r => tf_gather l sel = Some r) aligned aligned2.
Proof.
  intros Hkept Hsel Hids Hkeep Hlen. destruct aligned as [l|]; simpl in *.
  - destruct (two_stage_rows rows l ids keep sel kept)
      as (l1 & l2 & H1 & H2 & H3); [done..|].
    exists (Some l1), (Some l2). simpl. rewrite H1, H2.
    split; [done|]. split; [done|]. by constructor.
  - exists None, None. repeat split. constructor.
Qed.

Lemma bind_run_Ok {A B : Type} (m : M A) (f : A -> M B) (a : A)
    (st st' : State) :
  m st = (Ok a, st') → (m ≫= f) st = f a st'.
Proof. intros Hm. by rewrite bind_run, Hm. Qed.

Lemma boxlist_gather_crop_fields boxes labels label_weights
    label_confidences multiclass_scores indices boxes' labels'
    label_weights' label_confidences' multiclass_scores' st :
  tf_gather boxes indices = Some boxes' →
  tf_gather labels indices = Some labels' →
  tf_gather_opt label_weights indices = Some label_weights' →
  tf_gather_opt label_confidences indices = Some label_confidences' →
  tf_gather_opt multiclass_scores indices = Some multiclass_scores' →
  boxlist_gather
    (mkBoxList boxes
       (crop_fields labels label_weights label_confidences multiclass_scores))
    indices st
  = (Ok (mkBoxList boxes'
           (crop_fields labels' label_weights' label_confidences'
                        multiclass_scores')), st).
Proof.
  intros Hb Hl Hlw Hlc Hms. rewrite boxlist_gather_run. simpl.
  by rewrite Hb, crop_fields_gather, Hl, Hlw, Hlc, Hms.
Qed.

Lemma option_Forall2_is_Some {A B : Type} (R : A -> B -> Prop)
    (x : option A) (y : option B) :
  option_Forall2 R x y → is_Some x ↔ is_Some y.
Proof.
  destruct 1; [split; intros _; by eexists|].
  split; intros [? [=]].
Qed.

Section CropAlignment.
Context `{GeometryOps}.

Lemma crop_to_sampled_window_aligned
    (image : Image) (boxes : list Box) (labels : list Z)
    (label_weights label_confidences : option (list F32.t))
    (multiclass_scores : option (list (list F32.t)))
    (masks : option Masks) (keypoints : option Keypoints)
    (overlap_thresh : F64.t) (clip_boxes : bool) (crop : CropWindow)
    (new_image : Image) (st : State) :
  let window := cw_box crop in
  let slice_image :=
    slice_hw (A := list F32.t) (cw_offset_y crop) (cw_offset_x crop)
             (cw_height crop) (cw_width crop) in
  let slice_mask :=
    slice_hw (A := F32.t) (cw_offset_y crop) (cw_offset_x crop)
             (cw_height crop) (cw_width crop) in
  slice_image image = Some new_image →
  length labels = length boxes →
  from_option (fun l => length l = length boxes) True label_weights →
  from_option (fun l => length l = length boxes) True label_confidences →
  from_option (fun l => length l = length boxes) True multiclass_scores →
  from_option (fun l => length l = length boxes) True masks →
  from_option (fun l => length l = length boxes) True keypoints →
  from_option (Forall (fun mask => is_Some (slice_mask mask))) True masks →
  ∃ sel kept_boxes new_labels new_label_weights new_label_confidences
    new_multiclass_scores new_masks new_keypoints,
    (∀ i, i ∈ sel ↔
          ∃ b, boxes !! i = Some b
               ∧ negb (completely_outside_window b window) = true
               ∧ F32.greater_equal (overlap_fraction b window)
                                   (F64.to_f32 overlap_thresh) = true)
    ∧ StronglySorted lt sel
    ∧ tf_gather boxes sel = Some kept_boxes
    ∧ tf_gather labels sel = Some new_labels
    ∧ option_Forall2 (fun l r => tf_gather l sel = Some r)
        label_weights new_label_weights
    ∧ option_Forall2 (fun l r => tf_gather l sel = Some r)
        label_confidences new_label_confidences
    ∧ option_Forall2 (fun l r => tf_gather l sel = Some r)
        multiclass_scores new_multiclass_scores
    ∧ option_Forall2
        (fun l r => ∃ kept, tf_gather l sel = Some kept
                            ∧ mapM slice_mask kept = Some r)
        masks new_masks
    ∧ option_Forall2
        (fun l r =>
           ∃ kept, tf_gather l sel = Some kept
                   ∧ r = let moved :=
                           keypoints_change_coordinate_frame kept window in
                         if clip_boxes
                         then keypoints_prune_outside_window moved unit_window
                         else moved)
        keypoints new_keypoints
    ∧ crop_to_sampled_window image boxes labels label_weights
        label_confidences multiclass_scores masks keypoints overlap_thresh
        clip_boxes crop st
      = (Ok ([TImage new_image;
              TBoxes (let moved :=
                        map (fun b => box_to_frame b window) kept_boxes in
                      if clip_boxes then map clip_box moved else moved);
              TInts new_labels]
             ++ append_if TFloats new_label_weights
             ++ append_if TFloats new_label_confidences
             ++ append_if TScores new_multiclass_scores
             ++ append_if TMasks new_masks
             ++ append_if TKeypoints new_keypoints), st).
Proof.
  intros window slice_image slice_mask Himage Hlabels Hlw Hlc Hms Hmasks Hkps Hfit.
  set (p1 := fun b => negb (completely_outside_window b window)).
  set (p2 := fun b => F32.greater_equal (overlap_fraction b window)
                                        (F64.to_f32 overlap_thresh)).
  set (ids := tf_where (map p1 boxes)).
  destruct (tf_gather_where boxes (map p1 boxes)) as [boxes1 Hboxes1];
    [by rewrite length_map|].
  fold ids in Hboxes1.
  set (keep := tf_where (map p2 boxes1)).
  destruct (two_stage_selection p1 p2 boxes boxes1 Hboxes1)
    as (sel & Hsel & Hsorted & Helem).
  fold ids keep in Hsel.
  assert (Forall (fun i => i < length boxes)%nat ids) as Hids.
  { apply Forall_forall. intros i Hi%tf_where_bound.
    by rewrite length_map in Hi. }
  assert (Forall (fun k => k < length boxes1)%nat keep) as Hkeep.
  { apply Forall_forall. intros i Hi%tf_where_bound.
    by rewrite length_map in Hi. }
  destruct (two_stage_rows boxes boxes ids keep sel boxes1)
    as (boxes1' & boxes2 & Hb1 & Hb2 & Hbsel); [done..|].
  rewrite Hboxes1 in Hb1. injection Hb1 as <-.
  destruct (two_stage_rows boxes labels ids keep sel boxes1)
    as (labels1 & labels2 & Hl1 & Hl2 & Hlsel); [done..|].
  destruct (two_stage_rows_opt boxes label_weights ids keep sel boxes1)
    as (lw1 & lw2 & Hlw1 & Hlw2 & Hlwsel); [done..|].
  destruct (two_stage_rows_opt boxes label_confidences ids keep sel boxes1)
    as (lc1 & lc2 & Hlc1 & Hlc2 & Hlcsel); [done..|].
  destruct (two_stage_rows_opt boxes multiclass_scores ids keep sel boxes1)
    as (ms1 & ms2 & Hms1 & Hms2 & Hmssel); [done..|].
  destruct (two_stage_rows_opt boxes masks ids keep sel boxes1)
    as (masks1 & masks2 & Hm1 & Hm2 & Hmsel); [done..|].
  destruct (two_stage_rows_opt boxes keypoints ids keep sel boxes1)
    as (kps1 & kps2 & Hk1 & Hk2 & Hksel); [done..|].
  assert (∃ new_masks,
    option_Forall2
      (fun l r => ∃ kept, tf_gather l sel = Some kept
                          ∧ mapM slice_mask kept = Some r) masks new_masks
    ∧ ∀ st0,
        match masks with
        | Some masks =>
            masks_of_boxes_inside_window ←
              expect InvalidArgumentError (tf_gather masks ids);
            masks_of_boxes_completely_inside_window ←
              expect InvalidArgumentError
                (tf_gather masks_of_boxes_inside_window keep);
            new_masks ← expect InvalidArgumentError
              (mapM slice_mask masks_of_boxes_completely_inside_window);
            mret (Some new_masks)
        | None => mret None
        end st0 = (Ok new_masks, st0)) as (new_masks & Hnm & Hmrun).
  { destruct masks as [m|]; simpl in *.
    - destruct masks1 as [m1|]; [|by apply fmap_Some in Hm1 as (? & _ & [=])].
      destruct masks2 as [m2|]; [|by apply fmap_Some in Hm2 as (? & _ & [=])].
      apply fmap_Some in Hm1 as (? & Hm1 & [= <-]).
      simpl in Hm2. apply fmap_Some in Hm2 as (? & Hm2 & [= <-]).
      inversion Hmsel as [? ? Hmsel'|]; subst.
      destruct (mapM slice_mask m2) as [nm|] eqn:Hslice.
      + exists (Some nm). split; [constructor; eauto|].
        intros st0. by rewrite Hm1, bind_expect_Some, Hm2, bind_expect_Some,
          Hslice.
      + exfalso. apply eq_None_not_Some in Hslice. apply Hslice.
        apply mapM_is_Some, Forall_forall. intros mask Hmask.
        apply (tf_gather_elem _ _ _ _ Hmsel') in Hmask as (i & _ & Hi).
        rewrite Forall_forall in Hfit. apply Hfit.
        by eapply list_elem_of_lookup_2.
    - exists None. split; [constructor|done]. }
  set (move := fun kept : Keypoints =>
         let moved := keypoints_change_coordinate_frame kept window in
         if clip_boxes then keypoints_prune_outside_window moved unit_window
         else moved).
  assert (∃ new_keypoints,
    option_Forall2
      (fun l r => ∃ kept, tf_gather l sel = Some kept ∧ r = move kept)
      keypoints new_keypoints
    ∧ ∀ st0,
        match keypoints with
        | Some keypoints =>
            keypoints_of_boxes_inside_window ←
              expect InvalidArgumentError (tf_gather keypoints ids);
            keypoints_of_boxes_completely_inside_window ←
              expect InvalidArgumentError
                (tf_gather keypoints_of_boxes_inside_window keep);
            mret (Some (move keypoints_of_boxes_completely_inside_window))
        | None => mret None
        end st0 = (Ok new_keypoints, st0)) as (new_kps & Hnk & Hkrun).
  { destruct keypoints as [k|]; simpl in *.
    - destruct kps1 as [k1|]; [|by apply fmap_Some in Hk1 as (? & _ & [=])].
      destruct kps2 as [k2|]; [|by apply fmap_Some in Hk2 as (? & _ & [=])].
      apply fmap_Some in Hk1 as (? & Hk1 & [= <-]).
      simpl in Hk2. apply fmap_Some in Hk2 as (? & Hk2 & [= <-]).
      inversion Hksel as [? ? Hksel'|]; subst.
      exists (Some (move k2)). split; [constructor; eauto|].
      intros st0. by rewrite Hk1, bind_expect_Some, Hk2, bind_expect_Some.
    - exists None. split; [constructor|done]. }
  exists sel, boxes2, labels2, lw2, lc2, ms2, new_masks, new_kps.
  do 9 (split; [done|]).
  unfold crop_to_sampled_window. cbv zeta.
  rewrite crop_boxlist_fields.
  change (slice_hw _ _ _ _ image) with (slice_image image).
  rewrite Himage, bind_expect_Some.
  assert (prune_completely_outside_window
            (mkBoxList boxes (crop_fields labels label_weights
                                label_confidences multiclass_scores))
            (cw_box crop) st
          = (Ok (mkBoxList boxes1 (crop_fields labels1 lw1 lc1 ms1), ids),
             st)) as Hprune1.
  { unfold prune_completely_outside_window.
    by erewrite bind_run_Ok by (by apply boxlist_gather_crop_fields). }
  rewrite (bind_run_Ok _ _ _ _ _ Hprune1). cbv beta iota.
  assert (prune_non_overlapping_boxes
            (mkBoxList boxes1 (crop_fields labels1 lw1 lc1 ms1))
            (cw_box crop) overlap_thresh st
          = (Ok (mkBoxList boxes2 (crop_fields labels2 lw2 lc2 ms2), keep),
             st)) as Hprune2.
  { unfold prune_non_overlapping_boxes.
    by erewrite bind_run_Ok by (by apply boxlist_gather_crop_fields). }
  rewrite (bind_run_Ok _ _ _ _ _ Hprune2). cbv beta iota.
  unfold get_field at 1. simpl bl_fields.
  rewrite (proj1 (crop_fields_named labels2 lw2 lc2 ms2)), bind_expect_Some.
  erewrite bind_run_Ok; cycle 1.
  { apply (field_values_run TFloats); [done|apply crop_fields_named|].
    by eapply option_Forall2_is_Some. }
  erewrite bind_run_Ok; cycle 1.
  { apply (field_values_run TFloats); [done|apply crop_fields_named|].
    by eapply option_Forall2_is_Some. }
  erewrite bind_run_Ok; cycle 1.
  { apply (field_values_run TScores); [done|apply crop_fields_named|].
    by eapply option_Forall2_is_Some. }
  rewrite (bind_run_Ok _ _ _ _ _ (Hmrun st)).
  rewrite (bind_run_Ok _ _ _ _ _ (Hkrun st)).
  done.
Qed.

End CropAlignment.

Lemma tf_gather_opt_is_Some {A : Type} (params rows : option (list A))
    (indices : list nat) :
  tf_gather_opt params indices = Some rows → is_Some params ↔ is_Some rows.
Proof.
  intros Hg%tf_gather_opt_Some. by eapply option_Forall2_is_Some.
Qed.

(** The crop of the sampled window reads no cache and draws nothing, and the
    only way it fails is an op failing when it is evaluated. *)
Lemma crop_to_sampled_window_run `{GeometryOps}
    image boxes labels label_weights label_confidences multiclass_scores
    masks keypoints overlap_thresh clip_boxes crop st res st' :
  crop_to_sampled_window image boxes labels label_weights label_confidences
    multiclass_scores masks keypoints overlap_thresh clip_boxes crop st
  = (res, st') →
  st' = st ∧ ¬ python_error res.
Proof.
  assert (∀ st0 : State,
            (Raise InvalidArgumentError : Result (list Tensor), st0)
            = (res, st') →
            st' = st0 ∧ ¬ python_error res) as Hfail.
  { intros st0 [= <- <-]. split; [done|intros [=]]. }
  unfold crop_to_sampled_window. cbv zeta. rewrite crop_boxlist_fields.
  destruct (slice_hw _ _ _ _ image) as [new_image|]; [|apply Hfail].
  rewrite bind_expect_Some.
  unfold prune_completely_outside_window, prune_non_overlapping_boxes.
  rewrite !bind_assoc_run, bind_run, boxlist_gather_run. simpl bl_boxes.
  simpl bl_fields.
  destruct (tf_gather boxes _) as [boxes1|]; [|apply Hfail].
  rewrite crop_fields_gather.
  destruct (tf_gather labels _) as [labels1|]; [|apply Hfail]. simpl.
  destruct (tf_gather_opt label_weights _) as [lw1|] eqn:Hlw1;
    [|apply Hfail]. simpl.
  destruct (tf_gather_opt label_confidences _) as [lc1|] eqn:Hlc1;
    [|apply Hfail]. simpl.
  destruct (tf_gather_opt multiclass_scores _) as [ms1|] eqn:Hms1;
    [|apply Hfail]. simpl.
  rewrite bind_mret. cbv beta iota.
  rewrite !bind_assoc_run, bind_run, boxlist_gather_run. simpl bl_boxes.
  simpl bl_fields.
  destruct (tf_gather boxes1 _) as [boxes2|]; [|apply Hfail].
  rewrite crop_fields_gather.
  destruct (tf_gather labels1 _) as [labels2|]; [|apply Hfail]. simpl.
  destruct (tf_gather_opt lw1 _) as [lw2|] eqn:Hlw2; [|apply Hfail]. simpl.
  destruct (tf_gather_opt lc1 _) as [lc2|] eqn:Hlc2; [|apply Hfail]. simpl.
  destruct (tf_gather_opt ms1 _) as [ms2|] eqn:Hms2; [|apply Hfail]. simpl.
  rewrite bind_mret. cbv beta iota.
  unfold get_field at 1. simpl bl_fields.
  rewrite (proj1 (crop_fields_named labels2 lw2 lc2 ms2)), bind_expect_Some.
  erewrite bind_run_Ok; cycle 1.
  { apply (field_values_run TFloats); [done|apply crop_fields_named|].
    etrans; by eapply tf_gather_opt_is_Some. }
  erewrite bind_run_Ok; cycle 1.
  { apply (field_values_run TFloats); [done|apply crop_fields_named|].
    etrans; by eapply tf_gather_opt_is_Some. }
  erewrite bind_run_Ok; cycle 1.
  { apply (field_values_run TScores); [done|apply crop_fields_named|].
    etrans; by eapply tf_gather_opt_is_Some. }
  assert (∀ (a : list Tensor) (st0 : State),
            (Ok a, st0) = (res, st') → st' = st0 ∧ ¬ python_error res)
    as Hok.
  { intros a st0 [= <- <-]. split; [done|intros []]. }
  destruct masks as [masks|]; cbv beta iota.
  - rewrite !bind_assoc_run.
    destruct (tf_gather masks _) as [masks1|]; [|apply Hfail].
    rewrite bind_expect_Some; cbv beta; rewrite ?bind_assoc_run.
    destruct (tf_gather masks1 _) as [masks2|]; [|apply Hfail].
    rewrite bind_expect_Some; cbv beta; rewrite ?bind_assoc_run.
    destruct (mapM _ masks2) as [new_masks|]; [|apply Hfail].
    rewrite bind_expect_Some, bind_mret.
    destruct keypoints as [keypoints|]; cbv beta iota.
    + rewrite !bind_assoc_run.
      destruct (tf_gather keypoints _) as [kps1|]; [|apply Hfail].
      rewrite bind_expect_Some; cbv beta; rewrite ?bind_assoc_run.
      destruct (tf_gather kps1 _) as [kps2|]; [|apply Hfail].
      rewrite bind_expect_Some, !bind_mret. apply Hok.
    + rewrite !bind_mret. apply Hok.
  - rewrite bind_mret.
    destruct keypoints as [keypoints|]; cbv beta iota.
    + rewrite !bind_assoc_run.
      destruct (tf_gather keypoints _) as [kps1|]; [|apply Hfail].
      rewrite bind_expect_Some; cbv beta; rewrite ?bind_assoc_run.
      destruct (tf_gather kps1 _) as [kps2|]; [|apply Hfail].
      rewrite bind_expect_Some, !bind_mret. apply Hok.
    + rewrite !bind_mret. apply Hok.
Qed.

(** ** Index alignment of the strict crop *)

(** C8: when every per-instance array has one row per box and the window
    fits the image and the masks, the strict crop keeps the boxes that are
    not completely outside the window and whose overlap with it reaches
    overlap_thresh; the surviving indices [sel], in increasing order, select
    the rows of the boxes, the labels and every optional array supplied, so
    each output has [length sel] rows and row [i] of each comes from the same
    instance. *)
Theorem strict_random_crop_index_alignment `{RandomOps} `{GeometryOps}
    (image : Image) (boxes : list Box) (labels : list Z)
    (label_weights label_confidences : option (list F32.t))
    (multiclass_scores : option (list (list F32.t)))
    (masks : option Masks) (keypoints : option Keypoints)
    (min_object_covered : F64.t) (aspect_ratio_range area_range : F64.t * F64.t)
    (overlap_thresh : F64.t) (clip_boxes : bool)
    (preprocess_vars_cache : option cache_ref)
    (crop : CropWindow) (new_image : Image) (st st1 : State) :
  let window := cw_box crop in
  let slice_image :=
    slice_hw (A := list F32.t) (cw_offset_y crop) (cw_offset_x crop)
             (cw_height crop) (cw_width crop) in
  let slice_mask :=
    slice_hw (A := F32.t) (cw_offset_y crop) (cw_offset_x crop)
             (cw_height crop) (cw_width crop) in
  _get_or_create_preprocess_rand_vars
    (fun n => RVCrop (sample_distorted_bounding_box
                        (image_shape image) (map clip_box boxes)
                        min_object_covered aspect_ratio_range area_range n))
    STRICT_CROP_IMAGE preprocess_vars_cache (float_key min_object_covered) st
  = (Ok (RVCrop crop), st1) →
  slice_image image = Some new_image →
  length labels = length boxes →
  from_option (fun l => length l = length boxes) True label_weights →
  from_option (fun l => length l = length boxes) True label_confidences →
  from_option (fun l => length l = length boxes) True multiclass_scores →
  from_option (fun l => length l = length boxes) True masks →
  from_option (fun l => length l = length boxes) True keypoints →
  from_option (Forall (fun mask => is_Some (slice_mask mask))) True masks →
  ∃ sel kept_boxes new_boxes new_labels new_label_weights
    new_label_confidences new_multiclass_scores new_masks new_keypoints,
    (∀ i, i ∈ sel ↔
          ∃ b, boxes !! i = Some b
               ∧ negb (completely_outside_window b window) = true
               ∧ F32.greater_equal (overlap_fraction b window)
                                   (F64.to_f32 overlap_thresh) = true)
    ∧ StronglySorted lt sel
    ∧ tf_gather boxes sel = Some kept_boxes
    ∧ new_boxes = (let moved :=
                     map (fun b => box_to_frame b window) kept_boxes in
                   if clip_boxes then map clip_box moved else moved)
    ∧ tf_gather labels sel = Some new_labels
    ∧ option_Forall2 (fun l r => tf_gather l sel = Some r)
        label_weights new_label_weights
    ∧ option_Forall2 (fun l r => tf_gather l sel = Some r)
        label_confidences new_label_confidences
    ∧ option_Forall2 (fun l r => tf_gather l sel = Some r)
        multiclass_scores new_multiclass_scores
    ∧ option_Forall2
        (fun l r => ∃ kept, tf_gather l sel = Some kept
                            ∧ mapM slice_mask kept = Some r)
        masks new_masks
    ∧ option_Forall2
        (fun l r =>
           ∃ kept, tf_gather l sel = Some kept
                   ∧ r = let moved :=
                           keypoints_change_coordinate_frame kept window in
                         if clip_boxes
                         then keypoints_prune_outside_window moved unit_window
                         else moved)
        keypoints new_keypoints
    ∧ (length new_boxes = length sel
       ∧ length new_labels = length sel
       ∧ from_option (fun l => length l = length sel) True new_label_weights
       ∧ from_option (fun l => length l = length sel) True
           new_label_confidences
       ∧ from_option (fun l => length l = length sel) True
           new_multiclass_scores
       ∧ from_option (fun l => length l = length sel) True new_masks
       ∧ from_option (fun l => length l = length sel) True new_keypoints)
    ∧ _strict_random_crop_image image boxes labels label_weights
        label_confidences multiclass_scores masks keypoints
        min_object_covered aspect_ratio_range area_range overlap_thresh
        clip_boxes preprocess_vars_cache st
      = (Ok ([TImage new_image; TBoxes new_boxes; TInts new_labels]
             ++ append_if TFloats new_label_weights
             ++ append_if TFloats new_label_confidences
             ++ append_if TScores new_multiclass_scores
             ++ append_if TMasks new_masks
             ++ append_if TKeypoints new_keypoints), st1).
Proof.
  intros window slice_image slice_mask Hdraw Himage Hlabels Hlw Hlc Hms
    Hmasks Hkps Hfit.
  destruct (crop_to_sampled_window_aligned image boxes labels label_weights
              label_confidences multiclass_scores masks keypoints
              overlap_thresh clip_boxes crop new_image st1
              Himage Hlabels Hlw Hlc Hms Hmasks Hkps Hfit)
    as (sel & kept & nl & nlw & nlc & nms & nm & nk & Helem & Hsorted & Hb
        & Hl & Hlw' & Hlc' & Hms' & Hm' & Hk' & Hrun).
  exists sel, kept,
    (let moved := map (fun b => box_to_frame b window) kept in
     if clip_boxes then map clip_box moved else moved),
    nl, nlw, nlc, nms, nm, nk.
  do 3 (split; [done|]). split; [reflexivity|]. do 6 (split; [done|]).
  split.
  - assert (∀ (A : Type) (o o' : option (list A)),
              option_Forall2 (fun l r => tf_gather l sel = Some r) o o' →
              from_option (fun l => length l = length sel) True o') as Hopt.
    { intros A o o' [l r Hg|]; simpl; [|done]. by eapply tf_gather_length. }
    split.
    { cbv zeta. destruct clip_boxes; rewrite ?length_map;
        by eapply tf_gather_length. }
    split; [by eapply tf_gather_length|].
    split; [by eapply Hopt|]. split; [by eapply Hopt|].
    split; [by eapply Hopt|]. split.
    + destruct Hm' as [l r (k & Hg & Hs)|]; simpl; [|done].
      rewrite <- (length_mapM _ _ _ Hs). by eapply tf_gather_length.
    + destruct Hk' as [l r (k & Hg & ->)|]; simpl; [|done].
      unfold keypoints_prune_outside_window, keypoints_change_coordinate_frame.
      destruct clip_boxes; rewrite ?length_map; by eapply tf_gather_length.
  - unfold _strict_random_crop_image. cbv zeta.
    rewrite (bind_run_Ok _ _ _ _ _ Hdraw). simpl crop_var.
    by rewrite bind_mret.
Qed.

Lemma strict_random_crop_index_alignment_witness :
  let image : Image := [[[F32.one]; [F32.zero]]; [[F32.half]; [F32.zero]]] in
  let boxes := [mkBox F32.zero F32.zero F32.half F32.half;
                mkBox F32.one F32.one F32.one F32.one] in
  let masks : Masks :=
    [[[F32.one; F32.zero]; [F32.zero; F32.zero]];
     [[F32.zero; F32.zero]; [F32.zero; F32.one]]] in
  ∃ sel new_boxes new_labels new_label_weights new_masks,
    (0%nat ∈ sel ∧ 1%nat ∉ sel)
    ∧ length new_boxes = length sel
    ∧ tf_gather [1; 2] sel = Some new_labels
    ∧ tf_gather [F32.one; F32.half] sel = Some new_label_weights
    ∧ @_strict_random_crop_image sample_random_ops sample_geometry_ops
        image boxes [1; 2] (Some [F32.one; F32.half]) None None (Some masks)
        None F64.one (F64.one, F64.one) (F64.one, F64.one) F64.zero true None
        initial_state
      = (Ok [TImage image; TBoxes new_boxes; TInts new_labels;
             TFloats new_label_weights; TMasks new_masks],
         mkState ∅ 1).
Proof.
  intros image boxes masks.
  destruct (@strict_random_crop_index_alignment
              sample_random_ops sample_geometry_ops
              image boxes [1; 2] (Some [F32.one; F32.half]) None None
              (Some masks) None F64.one (F64.one, F64.one)
              (F64.one, F64.one) F64.zero true None
              (mkCropWindow 0 0 2 2 unit_window) image initial_state
              (mkState ∅ 1))
    as (sel & kept & nb & nl & nlw & nlc & nms & nm & nk & Helem & _ & _ & _
        & Hl & Hlw & Hlc & Hms & Hm & Hk & (Hlen & _) & Hrun).
  - reflexivity.
  - vm_compute. reflexivity.
  - reflexivity.
  - reflexivity.
  - exact I.
  - exact I.
  - reflexivity.
  - exact I.
  - simpl. repeat constructor; vm_compute; by eexists.
  - inversion Hlw as [? nlw' Hlw'|]; subst.
    inversion Hlc; subst. inversion Hms; subst.
    inversion Hm as [? nm' Hm'|]; subst. inversion Hk; subst.
    exists sel, nb, nl, nlw', nm'.
    split; [|by rewrite Hrun]. rewrite !Helem. split.
    + eexists. split; [reflexivity|]. by vm_compute.
    + intros (b & [= <-] & Hin & _). vm_compute in Hin. discriminate.
Defined.
(** ** Well-typed caches and construction-time errors *)

Lemma ensures_mret {A : Type} (a : A) (Q : A -> Prop) :
  Q a → ensures (mret a : M A) Q.
Proof. by intros HQ st res st' Hty [= <- <-]. Qed.

Lemma ensures_weaken {A : Type} (m : M A) (Q R : A -> Prop) :
  ensures m Q → (∀ a, Q a → R a) → ensures m R.
Proof.
  intros Hm HQR st res st' Hty Hrun.
  destruct (Hm _ _ _ Hty Hrun) as [Hty' Hres]. split; [done|].
  destruct res; [by apply HQR | done].
Qed.

Lemma ensures_bind {A B : Type} (m : M A) (f : A -> M B)
    (Q : A -> Prop) (R : B -> Prop) :
  ensures m Q → (∀ a, Q a → ensures (f a) R) → ensures (m ≫= f) R.
Proof.
  intros Hm Hf st res st' Hty Hrun. rewrite bind_run in Hrun.
  destruct (m st) as [[a|e] st1] eqn:Hmst;
    destruct (Hm _ _ _ Hty Hmst) as [Hty1 Hres1].
  - by apply (Hf a Hres1 st1).
  - by injection Hrun as <- <-.
Qed.

Lemma ensures_run_time_failure {A : Type} (Q : A -> Prop) :
  ensures (raise InvalidArgumentError : M A) Q.
Proof. by intros st res st' Hty [= <- <-]. Qed.

Lemma well_typed_update (st : State) (r : cache_ref) (function_id : FunctionId)
    (key : SubKey) (var : RandVar) (n : nat) :
  well_typed st → var_kind_ok function_id var = true →
  well_typed
    (mkState (<[r := <[(function_id, key) := var]> (cache_of st r)]>
                (caches st)) n).
Proof.
  intros Hty Hvar r' function_id' key' var'. rewrite cache_of_update.
  destruct (decide (r = r')) as [<-|]; [|apply Hty].
  destruct (decide ((function_id, key) = (function_id', key')))
    as [[= <- <-]|Hne].
  - rewrite lookup_insert_eq. by intros [= <-].
  - rewrite lookup_insert_ne by done. apply Hty.
Qed.

(** An access stores and returns the kind of tensor its generator makes. *)
Lemma ensures_get_or_create (g : nat -> RandVar) (function_id : FunctionId)
    (preprocess_vars_cache : option cache_ref) (key : SubKey) :
  (∀ n, var_kind_ok function_id (g n) = true) →
  ensures
    (_get_or_create_preprocess_rand_vars g function_id preprocess_vars_cache
       key)
    (fun var => var_kind_ok function_id var = true).
Proof.
  intros Hg st res st' Hty Hrun.
  destruct preprocess_vars_cache as [cache|].
  - rewrite get_or_create_run in Hrun.
    destruct (cache_of st cache !! (function_id, key)) as [v|] eqn:Hlook;
      injection Hrun as <- <-.
    + split; [done|]. by apply (Hty cache function_id key).
    + split; [|apply Hg]. by apply well_typed_update.
  - injection Hrun as <- <-. split; [|apply Hg].
    intros r function_id' key' var. apply Hty.
Qed.

Lemma ensures_build {A : Type} (m : M A) (Q : A -> Prop) :
  ensures m Q →
  ensures (build m)
    (fun r => match r with
              | Ok a => Q a
              | Raise e => at_run_time e = true
              end).
Proof.
  intros Hm st res st' Hty Hrun. unfold build in Hrun.
  destruct (m st) as [[a|e] st1] eqn:Hmst;
    destruct (Hm _ _ _ Hty Hmst) as [Hty1 Hres1].
  - by injection Hrun as <- <-.
  - rewrite Hres1 in Hrun. by injection Hrun as <- <-.
Qed.

(** A subgraph whose Python code raises nothing is built, whatever its ops
    do when they are evaluated. *)
Lemma build_run {A : Type} (m : M A) (Q : A -> Prop) (st st' : State)
    (res : Result A) :
  ensures m Q → well_typed st → m st = (res, st') →
  build m st = (Ok res, st').
Proof.
  intros Hm Hty Hrun. destruct (Hm _ _ _ Hty Hrun) as [_ Hres].
  unfold build. rewrite Hrun. destruct res as [a|e]; [done|]. by rewrite Hres.
Qed.

Lemma ensures_evaluate {A : Type} (r : Result A) (Q : A -> Prop) :
  match r with Ok a => Q a | Raise e => at_run_time e = true end →
  ensures (evaluate r) Q.
Proof. by intros Hr st res st' Hty [= <- <-]. Qed.

Lemma ensures_tf_cond {A : Type} (pred : bool) (true_fn false_fn : M A)
    (Q : A -> Prop) :
  ensures true_fn Q → ensures false_fn Q →
  ensures (tf_cond pred true_fn false_fn) Q.
Proof.
  intros Ht Hf. unfold tf_cond.
  eapply ensures_bind; [by apply ensures_build|]. intros t Hrt. cbv beta in Hrt.
  eapply ensures_bind; [by apply ensures_build|]. intros f Hrf. cbv beta in Hrf.
  apply ensures_evaluate. by destruct pred.
Qed.

Section Typed.
Context `{RandomOps} `{GeometryOps}.

Lemma ensures_crop_to_sampled_window
    image boxes labels label_weights label_confidences multiclass_scores
    masks keypoints overlap_thresh clip_boxes crop :
  ensures
    (crop_to_sampled_window image boxes labels label_weights
       label_confidences multiclass_scores masks keypoints overlap_thresh
       clip_boxes crop)
    (fun _ => True).
Proof.
  intros st res st' Hty Hrun.
  destruct (crop_to_sampled_window_run _ _ _ _ _ _ _ _ _ _ _ _ _ _ Hrun)
    as [-> Hres].
  split; [done|]. destruct res as [a|e]; [done|].
  simpl in Hres. by destruct (at_run_time e).
Qed.

(** The Python code of the strict crop raises nothing when the cache holds
    what the operations stored. *)
Lemma ensures_strict_random_crop_image
    image boxes labels label_weights label_confidences multiclass_scores
    masks keypoints min_object_covered aspect_ratio_range area_range
    overlap_thresh clip_boxes preprocess_vars_cache :
  ensures
    (_strict_random_crop_image image boxes labels label_weights
       label_confidences multiclass_scores masks keypoints min_object_covered
       aspect_ratio_range area_range overlap_thresh clip_boxes
       preprocess_vars_cache)
    (fun _ => True).
Proof.
  unfold _strict_random_crop_image. cbv zeta.
  eapply ensures_bind; [by apply ensures_get_or_create|].
  intros var Hvar. cbv beta in Hvar.
  destruct var as [| |crop| |]; try done. simpl crop_var.
  eapply ensures_bind; [by apply (ensures_mret _ (fun _ => True))|].
  intros crop' _. apply ensures_crop_to_sampled_window.
Qed.

Lemma ensures_random_crop_image
    image boxes labels label_weights label_confidences multiclass_scores
    masks keypoints min_object_covered aspect_ratio_range area_range
    overlap_thresh clip_boxes random_coef seed preprocess_vars_cache :
  ensures
    (random_crop_image image boxes labels label_weights label_confidences
       multiclass_scores masks keypoints min_object_covered
       aspect_ratio_range area_range overlap_thresh clip_boxes random_coef
       seed preprocess_vars_cache)
    (fun _ => True).
Proof.
  unfold random_crop_image. cbv zeta.
  destruct (F64.lt random_coef F64.float_info_min);
    [apply ensures_strict_random_crop_image|].
  eapply ensures_bind; [by apply ensures_get_or_create|].
  intros var Hvar. cbv beta in Hvar.
  destruct var as [x| | | |]; try done. simpl float_var.
  eapply ensures_bind; [by apply (ensures_mret _ (fun _ => True))|].
  intros x' _.
  apply ensures_tf_cond;
    [apply ensures_strict_random_crop_image | by apply ensures_mret].
Qed.

End Typed.

Lemma well_typed_initial_state : well_typed initial_state.
Proof. intros r function_id key var. unfold cache_of. simpl. by intros [=]. Qed.

(** ** random_crop_image *)

(** An access leaves the entries of the other identifiers as they are and
    draws at most once. *)
Lemma get_or_create_other_entries (g : nat -> RandVar)
    (function_id : FunctionId) (preprocess_vars_cache : option cache_ref)
    (key : SubKey) (st : State) :
  let st' :=
    (_get_or_create_preprocess_rand_vars g function_id preprocess_vars_cache
       key st).2 in
  (draws st' <= S (draws st))%nat
  ∧ ∀ r function_id' key',
      function_id' ≠ function_id →
      cache_of st' r !! (function_id', key')
      = cache_of st r !! (function_id', key').
Proof.
  destruct preprocess_vars_cache as [cache|]; cbv zeta.
  - rewrite get_or_create_run.
    destruct (cache_of st cache !! (function_id, key)); simpl.
    + split; [lia|done].
    + split; [lia|]. intros r function_id' key' Hne. rewrite cache_of_update.
      destruct (decide (cache = r)) as [<-|]; [|done].
      apply lookup_insert_ne. congruence.
  - simpl. split; [lia|done].
Qed.

(** An access raises nothing. *)
Lemma get_or_create_returns (g : nat -> RandVar) (function_id : FunctionId)
    (preprocess_vars_cache : option cache_ref) (key : SubKey) (st : State) :
  ∃ var st',
    _get_or_create_preprocess_rand_vars g function_id preprocess_vars_cache
      key st = (Ok var, st').
Proof.
  destruct preprocess_vars_cache as [cache|]; [|by eexists _, _].
  rewrite get_or_create_run.
  destruct (cache_of st cache !! (function_id, key)); by eexists _, _.
Qed.

Section RandomCrop.
Context `{RandomOps} `{GeometryOps}.

(** The strict crop leaves the state its access to the crop window leaves. *)
Lemma strict_random_crop_image_state
    image boxes labels label_weights label_confidences multiclass_scores
    masks keypoints min_object_covered aspect_ratio_range area_range
    overlap_thresh clip_boxes preprocess_vars_cache st :
  (_strict_random_crop_image image boxes labels label_weights
     label_confidences multiclass_scores masks keypoints min_object_covered
     aspect_ratio_range area_range overlap_thresh clip_boxes
     preprocess_vars_cache st).2
  = (_get_or_create_preprocess_rand_vars
       (fun n =>
          RVCrop (sample_distorted_bounding_box
                    (image_shape image) (map clip_box boxes)
                    min_object_covered aspect_ratio_range area_range n))
       STRICT_CROP_IMAGE preprocess_vars_cache
       (float_key min_object_covered) st).2.
Proof.
  unfold _strict_random_crop_image. cbv zeta. rewrite bind_run.
  destruct (_get_or_create_preprocess_rand_vars _ _ _ _ st)
    as [[var|e] st1]; [|done].
  destruct var as [| |crop| |]; try done. simpl crop_var. rewrite bind_mret.
  destruct (crop_to_sampled_window _ _ _ _ _ _ _ _ _ _ _ st1)
    as [res st'] eqn:Hrun.
  by destruct (crop_to_sampled_window_run _ _ _ _ _ _ _ _ _ _ _ _ _ _ Hrun)
    as [-> _].
Qed.

End RandomCrop.

(** C5 (amended): random_crop_image compares random_coef with
    sys.float_info.min, the smallest positive normal double.  Below it, and
    so at 0, the call is the strict crop on every state: the only entry it
    can add is the crop window's, nothing is read or stored under CROP_IMAGE,
    and at most the window is drawn.  From it on, one value [x] is read or
    drawn under (CROP_IMAGE, ""), the strict crop is built, and the result is
    the strict crop's when [x > float32(random_coef)] and every input
    unchanged otherwise; with random_coef = 1 and a value [x] that is not
    above 1, as a uniform draw from [0, 1) is, the inputs come back
    unchanged. *)
Theorem random_crop_image_bypass `{RandomOps} `{GeometryOps}
    (image : Image) (boxes : list Box) (labels : list Z)
    (label_weights label_confidences : option (list F32.t))
    (multiclass_scores : option (list (list F32.t)))
    (masks : option Masks) (keypoints : option Keypoints)
    (min_object_covered : F64.t) (aspect_ratio_range area_range : F64.t * F64.t)
    (overlap_thresh : F64.t) (clip_boxes : bool) (random_coef : F64.t)
    (seed : option Z) (preprocess_vars_cache : option cache_ref)
    (st : State) :
  well_typed st →
  let strict :=
    _strict_random_crop_image image boxes labels label_weights
      label_confidences multiclass_scores masks keypoints min_object_covered
      aspect_ratio_range area_range overlap_thresh clip_boxes
      preprocess_vars_cache in
  let crop coef :=
    random_crop_image image boxes labels label_weights label_confidences
      multiclass_scores masks keypoints min_object_covered aspect_ratio_range
      area_range overlap_thresh clip_boxes coef seed preprocess_vars_cache in
  let outputs :=
    [TImage image; TBoxes boxes; TInts labels]
    ++ append_if TFloats label_weights
    ++ append_if TFloats label_confidences
    ++ append_if TScores multiclass_scores
    ++ append_if TMasks masks
    ++ append_if TKeypoints keypoints in
  let decision :=
    _get_or_create_preprocess_rand_vars
      (fun n => RVFloat (random_uniform seed n)) CROP_IMAGE
      preprocess_vars_cache (KStr "") in
  (* random_coef = 0 is below the threshold *)
  F64.lt F64.zero F64.float_info_min = true
  (* below the threshold: the strict crop, and no decision variable *)
  ∧ (F64.lt random_coef F64.float_info_min = true →
     crop random_coef = strict
     ∧ (draws (crop random_coef st).2 <= S (draws st))%nat
     ∧ ∀ r key,
         cache_of (crop random_coef st).2 r !! (CROP_IMAGE, key)
         = cache_of st r !! (CROP_IMAGE, key))
  (* from the threshold on: one decision variable, compared in float32 *)
  ∧ (F64.lt random_coef F64.float_info_min = false →
     ∃ x st1 res st2,
       decision st = (Ok (RVFloat x), st1)
       ∧ strict st1 = (res, st2)
       ∧ crop random_coef st
         = (if F32.greater x (F64.to_f32 random_coef) then res
            else Ok outputs, st2))
  (* random_coef = 1 *)
  ∧ ∃ x st1,
      decision st = (Ok (RVFloat x), st1)
      ∧ (F32.greater x F32.one = false →
         (crop F64.one st).1 = Ok outputs).
Proof.
  intros Hty strict crop outputs decision.
  assert (∀ coef, F64.lt coef F64.float_info_min = false →
          ∃ x st1 res st2,
            decision st = (Ok (RVFloat x), st1)
            ∧ strict st1 = (res, st2)
            ∧ crop coef st
              = (if F32.greater x (F64.to_f32 coef) then res
                 else Ok outputs, st2)) as Hdraw.
  { intros coef Hlt.
    destruct (get_or_create_returns
                (fun n => RVFloat (random_uniform seed n)) CROP_IMAGE
                preprocess_vars_cache (KStr "") st) as (var & st1 & Hdec).
    fold decision in Hdec.
    destruct (ensures_get_or_create
                (fun n => RVFloat (random_uniform seed n)) CROP_IMAGE
                preprocess_vars_cache (KStr "") (fun _ => eq_refl)
                st (Ok var) st1 Hty Hdec) as [Hty1 Hkind].
    destruct var as [x| | | |]; try done.
    destruct (strict st1) as [res st2] eqn:Hstrict.
    exists x, st1, res, st2. split; [done|]. split; [done|].
    unfold crop, random_crop_image. rewrite Hlt. cbv zeta.
    fold decision. rewrite (bind_run_Ok _ _ _ _ _ Hdec).
    simpl float_var. rewrite bind_mret. unfold tf_cond.
    fold strict.
    rewrite (bind_run_Ok _ _ _ _ _
               (build_run _ _ _ _ _
                  (ensures_strict_random_crop_image _ _ _ _ _ _ _ _ _ _ _ _
                     _ _) Hty1 Hstrict)).
    done. }
  split; [done|]. split; [|split].
  - intros Hlt.
    assert (crop random_coef = strict) as Hcrop.
    { unfold crop, random_crop_image. by rewrite Hlt. }
    split; [done|]. rewrite Hcrop. unfold strict.
    rewrite strict_random_crop_image_state.
    destruct (get_or_create_other_entries
                (fun n =>
                   RVCrop (sample_distorted_bounding_box
                             (image_shape image) (map clip_box boxes)
                             min_object_covered aspect_ratio_range
                             area_range n))
                STRICT_CROP_IMAGE preprocess_vars_cache
                (float_key min_object_covered) st) as [Hdraws Hother].
    split; [done|]. intros r key. by apply Hother.
  - apply Hdraw.
  - destruct (Hdraw F64.one eq_refl) as (x & st1 & res & st2 & Hdec & _ & Hrun).
    exists x, st1. split; [done|]. intros Hx. rewrite Hrun.
    change (F64.to_f32 F64.one) with F32.one. by rewrite Hx.
Qed.

Lemma random_crop_image_bypass_witness :
  let image : Image := [[[F32.one]; [F32.zero]]; [[F32.half]; [F32.zero]]] in
  let boxes := [mkBox F32.zero F32.zero F32.half F32.half] in
  well_typed initial_state
  ∧ (@random_crop_image sample_random_ops sample_geometry_ops
       image boxes [1] None None None None None F64.one (F64.one, F64.one)
       (F64.one, F64.one) F64.zero true F64.one None None initial_state).1
    = Ok [TImage image; TBoxes boxes; TInts [1]].
Proof.
  intros image boxes. split; [apply well_typed_initial_state|].
  destruct (@random_crop_image_bypass sample_random_ops sample_geometry_ops
              image boxes [1] None None None None None F64.one
              (F64.one, F64.one) (F64.one, F64.one) F64.zero true F64.one
              None None initial_state well_typed_initial_state)
    as (_ & _ & _ & x & st1 & Hdec & Hone).
  apply Hone. injection Hdec as <- _. vm_compute. reflexivity.
Defined.

(** C5, as stated, fails for a positive random_coef below
    sys.float_info.min: with random_coef = 2^-1074 the call stores nothing
    under (CROP_IMAGE, "") and draws the crop window only, as it does for 0,
    while with random_coef = sys.float_info.min it stores the decision
    variable and draws twice. *)
Lemma random_crop_image_positive_coef_counterexample :
  let image : Image := [[[F32.one]; [F32.zero]]; [[F32.half]; [F32.zero]]] in
  let boxes := [mkBox F32.zero F32.zero F32.half F32.half] in
  let crop coef :=
    @random_crop_image sample_random_ops sample_geometry_ops
      image boxes [1] None None None None None F64.one (F64.one, F64.one)
      (F64.one, F64.one) F64.zero true coef None (Some 0%nat) initial_state in
  let tiny := F64.of_Z_exp 1 (-1074) in
  F64.lt F64.zero tiny = true
  ∧ cache_of (crop tiny).2 0%nat !! (CROP_IMAGE, KStr "") = None
  ∧ draws (crop tiny).2 = 1%nat
  ∧ crop tiny = crop F64.zero
  ∧ cache_of (crop F64.float_info_min).2 0%nat !! (CROP_IMAGE, KStr "")
    = Some (RVFloat (F32.of_Z_exp 3 (-2)))
  ∧ draws (crop F64.float_info_min).2 = 2%nat.
Proof. repeat split; by vm_compute. Qed.

(** ** ssd_random_crop *)

(** Every case of a selector whose Python code raises nothing is built. *)
Lemma mapM_build_run {A : Type} (func : nat -> M A) (cases : list nat)
    (Q : A -> Prop) (st : State) :
  (∀ case, case ∈ cases → ensures (func case) Q) →
  (∀ case, case ∈ cases → replayable (func case)) →
  well_typed st →
  ∃ tuples st',
    mapM (fun case => build (func case)) cases st = (Ok tuples, st')
    ∧ well_typed st' ∧ extends st st'.
Proof.
  revert st. induction cases as [|case cases IH]; intros st Hens Hrep Hty.
  - by exists [], st.
  - destruct (func case st) as [res st1] eqn:Hrun.
    assert (case ∈ case :: cases) as Hin by (apply elem_of_cons; by left).
    destruct (Hens _ Hin _ _ _ Hty Hrun) as [Hty1 _].
    destruct (Hrep _ Hin _ _ _ Hrun) as [Hext1 _].
    destruct (IH st1) as (tuples & st' & Hrest & Hty' & Hext'); [| |done|].
    { intros c Hc. apply Hens. by apply elem_of_cons; right. }
    { intros c Hc. apply Hrep. by apply elem_of_cons; right. }
    exists (res :: tuples), st'. split; [|split; [done|by trans st1]].
    simpl.
    rewrite (bind_run_Ok _ _ _ _ _ (build_run _ _ _ _ _ (Hens _ Hin) Hty Hrun)).
    by rewrite (bind_run_Ok _ _ _ _ _ Hrest).
Qed.

Section SsdRandomCrop.
Context `{RandomOps} `{GeometryOps}.
Context (image : Image) (boxes : list Box) (labels : list Z)
  (label_weights label_confidences : option (list F32.t))
  (multiclass_scores : option (list (list F32.t)))
  (masks : option Masks) (keypoints : option Keypoints)
  (min_object_covered : list F64.t)
  (aspect_ratio_range area_range : list (F64.t * F64.t))
  (overlap_thresh : list F64.t) (clip_boxes : list bool)
  (random_coef : list F64.t)
  (seed : option Z) (preprocess_vars_cache : option cache_ref).

(** On the tensors ssd_random_crop packs, random_crop_selector unpacks each
    of them and calls random_crop_image with the parameters at [index]. *)
Lemma random_crop_selector_packed (index : nat) :
  random_crop_selector label_weights label_confidences multiclass_scores
    masks keypoints min_object_covered aspect_ratio_range area_range
    overlap_thresh clip_boxes random_coef seed preprocess_vars_cache
    ([TImage image; TBoxes boxes; TInts labels]
     ++ append_if TFloats label_weights
     ++ append_if TFloats label_confidences
     ++ append_if TScores multiclass_scores
     ++ append_if TMasks masks
     ++ append_if TKeypoints keypoints)
    index
  = (min_object_covered_i ← item min_object_covered index;
     aspect_ratio_range_i ← item aspect_ratio_range index;
     area_range_i ← item area_range index;
     overlap_thresh_i ← item overlap_thresh index;
     clip_boxes_i ← item clip_boxes index;
     random_coef_i ← item random_coef index;
     random_crop_image
       image boxes labels label_weights label_confidences multiclass_scores
       masks keypoints min_object_covered_i aspect_ratio_range_i area_range_i
       overlap_thresh_i clip_boxes_i random_coef_i seed
       preprocess_vars_cache).
Proof.
  by destruct label_weights, label_confidences, multiclass_scores, masks,
    keypoints.
Qed.

Lemma random_crop_selector_item (index : nat)
    min_object_covered_i aspect_ratio_range_i area_range_i overlap_thresh_i
    clip_boxes_i random_coef_i :
  min_object_covered !! index = Some min_object_covered_i →
  aspect_ratio_range !! index = Some aspect_ratio_range_i →
  area_range !! index = Some area_range_i →
  overlap_thresh !! index = Some overlap_thresh_i →
  clip_boxes !! index = Some clip_boxes_i →
  random_coef !! index = Some random_coef_i →
  random_crop_selector label_weights label_confidences multiclass_scores
    masks keypoints min_object_covered aspect_ratio_range area_range
    overlap_thresh clip_boxes random_coef seed preprocess_vars_cache
    ([TImage image; TBoxes boxes; TInts labels]
     ++ append_if TFloats label_weights
     ++ append_if TFloats label_confidences
     ++ append_if TScores multiclass_scores
     ++ append_if TMasks masks
     ++ append_if TKeypoints keypoints)
    index
  = random_crop_image
      image boxes labels label_weights label_confidences multiclass_scores
      masks keypoints min_object_covered_i aspect_ratio_range_i area_range_i
      overlap_thresh_i clip_boxes_i random_coef_i seed preprocess_vars_cache.
Proof.
  intros Hmoc Har Harea Hot Hcb Hrc. rewrite random_crop_selector_packed.
  unfold item. by rewrite Hmoc, Har, Harea, Hot, Hcb, Hrc.
Qed.

(** With one preset per case, the Python code of no case raises. *)
Lemma ensures_random_crop_selector (index : nat) :
  length aspect_ratio_range = length min_object_covered →
  length area_range = length min_object_covered →
  length overlap_thresh = length min_object_covered →
  length clip_boxes = length min_object_covered →
  length random_coef = length min_object_covered →
  (index < length min_object_covered)%nat →
  ensures
    (random_crop_selector label_weights label_confidences multiclass_scores
       masks keypoints min_object_covered aspect_ratio_range area_range
       overlap_thresh clip_boxes random_coef seed preprocess_vars_cache
       ([TImage image; TBoxes boxes; TInts labels]
        ++ append_if TFloats label_weights
        ++ append_if TFloats label_confidences
        ++ append_if TScores multiclass_scores
        ++ append_if TMasks masks
        ++ append_if TKeypoints keypoints)
       index)
    (fun _ => True).
Proof.
  intros Har Harea Hot Hcb Hrc Hlt.
  destruct (lookup_lt_is_Some_2 min_object_covered index) as [? Hmoc];
    [done|].
  destruct (lookup_lt_is_Some_2 aspect_ratio_range index) as [? Har'];
    [by rewrite Har|].
  destruct (lookup_lt_is_Some_2 area_range index) as [? Harea'];
    [by rewrite Harea|].
  destruct (lookup_lt_is_Some_2 overlap_thresh index) as [? Hot'];
    [by rewrite Hot|].
  destruct (lookup_lt_is_Some_2 clip_boxes index) as [? Hcb'];
    [by rewrite Hcb|].
  destruct (lookup_lt_is_Some_2 random_coef index) as [? Hrc'];
    [by rewrite Hrc|].
  rewrite (random_crop_selector_item _ _ _ _ _ _ _
             Hmoc Har' Harea' Hot' Hcb' Hrc').
  apply ensures_random_crop_image.
Qed.

End SsdRandomCrop.

Lemma replayable_random_crop_selector `{RandomOps} `{GeometryOps}
    label_weights label_confidences multiclass_scores masks keypoints
    min_object_covered aspect_ratio_range area_range overlap_thresh
    clip_boxes random_coef seed cache selected_result index :
  replayable
    (random_crop_selector label_weights label_confidences multiclass_scores
       masks keypoints min_object_covered aspect_ratio_range area_range
       overlap_thresh clip_boxes random_coef seed (Some cache)
       selected_result index).
Proof. replay. Qed.

(** What an access through a cache returns is in the cache afterwards. *)
Lemma get_or_create_stored (g : nat -> RandVar) (function_id : FunctionId)
    (cache : cache_ref) (key : SubKey) (st st' : State) (var : RandVar) :
  _get_or_create_preprocess_rand_vars g function_id (Some cache) key st
  = (Ok var, st') →
  cache_of st' cache !! (function_id, key) = Some var.
Proof.
  rewrite get_or_create_run.
  destruct (cache_of st cache !! (function_id, key)) as [v|] eqn:Hlook;
    intros [= <- <-]; [done|].
  rewrite cache_of_update. destruct (decide (cache = cache)); [|done].
  apply lookup_insert_eq.
Qed.

(** The cases are built in order: the first from the state the selector
    left, the others after it, adding entries only. *)
Lemma mapM_build_first {A : Type} (func : nat -> M A) (num_cases : nat)
    (Q : A -> Prop) (st st' : State) (res : Result A) :
  (∀ case, (case < num_cases)%nat → ensures (func case) Q) →
  (∀ case, replayable (func case)) →
  well_typed st → (0 < num_cases)%nat →
  func 0%nat st = (res, st') →
  ∃ tuples st'',
    mapM (fun case => build (func case)) (seq 0 num_cases) st
    = (Ok (res :: tuples), st'')
    ∧ extends st' st''.
Proof.
  intros Hens Hrep Hty Hpos Hrun.
  destruct num_cases as [|n]; [lia|]. simpl seq.
  destruct (Hens 0%nat Hpos _ _ _ Hty Hrun) as [Hty' _].
  destruct (mapM_build_run func (seq 1 n) Q st') as (tuples & st'' & Hrest & _ & Hext);
    [| |done|].
  { intros case Hcase. apply Hens. apply elem_of_seq in Hcase. lia. }
  { intros case _. apply Hrep. }
  exists tuples, st''. split; [|done]. simpl.
  rewrite (bind_run_Ok _ _ _ _ _ (build_run _ _ _ _ _ (Hens _ Hpos) Hty Hrun)).
  by rewrite (bind_run_Ok _ _ _ _ _ Hrest).
Qed.

(** C9: ssd_random_crop reads or draws one selector, uniform over the
    [length min_object_covered] cases (7 with the defaults), under
    (SELECTOR_TUPLES, SSD_CROP_SELECTOR_ID).  When there is one preset per
    case and the selector is 0, its output is the output of random_crop_image
    called with the presets at index 0 on the same inputs and cache, from the
    state the selector access left; the selector stays in the cache, and
    calling random_crop_image with those presets after ssd_random_crop, with
    the cache it left, gives that output again and draws nothing. *)
Theorem ssd_random_crop_selector_zero `{RandomOps} `{GeometryOps}
    (image : Image) (boxes : list Box) (labels : list Z)
    (label_weights label_confidences : option (list F32.t))
    (multiclass_scores : option (list (list F32.t)))
    (masks : option Masks) (keypoints : option Keypoints)
    (min_object_covered : list F64.t)
    (aspect_ratio_range area_range : list (F64.t * F64.t))
    (overlap_thresh : list F64.t) (clip_boxes : list bool)
    (random_coef : list F64.t) (seed : option Z) (cache : cache_ref)
    (min_object_covered_0 : F64.t)
    (aspect_ratio_range_0 area_range_0 : F64.t * F64.t)
    (overlap_thresh_0 : F64.t) (clip_boxes_0 : bool) (random_coef_0 : F64.t)
    (st st1 : State) :
  length aspect_ratio_range = length min_object_covered →
  length area_range = length min_object_covered →
  length overlap_thresh = length min_object_covered →
  length clip_boxes = length min_object_covered →
  length random_coef = length min_object_covered →
  min_object_covered !! 0%nat = Some min_object_covered_0 →
  aspect_ratio_range !! 0%nat = Some aspect_ratio_range_0 →
  area_range !! 0%nat = Some area_range_0 →
  overlap_thresh !! 0%nat = Some overlap_thresh_0 →
  clip_boxes !! 0%nat = Some clip_boxes_0 →
  random_coef !! 0%nat = Some random_coef_0 →
  well_typed st →
  _get_or_create_preprocess_rand_vars
    (fun n =>
       RVInt (random_uniform_int (Z.of_nat (length min_object_covered)) n))
    SELECTOR_TUPLES (Some cache) SSD_CROP_SELECTOR_ID st
  = (Ok (RVInt 0), st1) →
  let ssd :=
    ssd_random_crop image boxes labels label_weights label_confidences
      multiclass_scores masks keypoints min_object_covered aspect_ratio_range
      area_range overlap_thresh clip_boxes random_coef seed (Some cache) in
  let direct :=
    random_crop_image image boxes labels label_weights label_confidences
      multiclass_scores masks keypoints min_object_covered_0
      aspect_ratio_range_0 area_range_0 overlap_thresh_0 clip_boxes_0
      random_coef_0 seed (Some cache) in
  length default_min_object_covered = 7%nat
  ∧ (draws st1 <= S (draws st))%nat
  ∧ cache_of (ssd st).2 cache !! (SELECTOR_TUPLES, SSD_CROP_SELECTOR_ID)
    = Some (RVInt 0)
  ∧ (ssd st).1 = (direct st1).1
  ∧ extends (direct st1).2 (ssd st).2
  ∧ direct (ssd st).2 = ((ssd st).1, (ssd st).2).
Proof.
  intros Har Harea Hot Hcb Hrc Hmoc0 Har0 Harea0 Hot0 Hcb0 Hrc0 Hty Hsel
    ssd direct.
  destruct (ensures_get_or_create
              (fun n =>
                 RVInt (random_uniform_int
                          (Z.of_nat (length min_object_covered)) n))
              SELECTOR_TUPLES (Some cache) SSD_CROP_SELECTOR_ID
              (fun _ => eq_refl) _ _ _ Hty Hsel)
    as [Hty1 _].
  destruct (direct st1) as [res st2] eqn:Hdirect.
  destruct (replayable_random_crop_image _ _ _ _ _ _ _ _ _ _ _ _ _ _ _ _
              _ _ _ Hdirect) as [Hext12 Hreplay].
  assert (0 < length min_object_covered)%nat as Hpos.
  { by apply lookup_lt_is_Some_1; eexists. }
  set (x := [TImage image; TBoxes boxes; TInts labels]
            ++ append_if TFloats label_weights
            ++ append_if TFloats label_confidences
            ++ append_if TScores multiclass_scores
            ++ append_if TMasks masks
            ++ append_if TKeypoints keypoints).
  set (func :=
         random_crop_selector label_weights label_confidences
           multiclass_scores masks keypoints min_object_covered
           aspect_ratio_range area_range overlap_thresh clip_boxes
           random_coef seed (Some cache) x).
  assert (func 0%nat st1 = (res, st2)) as Hfirst.
  { unfold func, x.
    by rewrite (random_crop_selector_item _ _ _ _ _ _ _ _ _ _ _ _ _ _ _ _ _
                  _ _ _ _ _ _ Hmoc0 Har0 Harea0 Hot0 Hcb0 Hrc0). }
  destruct (mapM_build_first func (length min_object_covered)
              (fun _ => True) st1 st2 res) as (tuples & st3 & Hcases & Hext23);
    [| |done|done|done|].
  { intros case Hcase. by apply ensures_random_crop_selector. }
  { intros case. apply replayable_random_crop_selector. }
  assert (ssd st = (res, st3)) as Hssd.
  { unfold ssd, ssd_random_crop, _apply_with_random_selector_tuples.
    cbv zeta. rewrite (bind_run_Ok _ _ _ _ _ Hsel). simpl int_var.
    rewrite bind_mret. fold x. fold func.
    by rewrite (bind_run_Ok _ _ _ _ _ Hcases). }
  rewrite Hssd. simpl fst. simpl snd.
  split; [done|]. split.
  { pose proof (get_or_create_other_entries
                  (fun n =>
                     RVInt (random_uniform_int
                              (Z.of_nat (length min_object_covered)) n))
                  SELECTOR_TUPLES (Some cache) SSD_CROP_SELECTOR_ID st)
      as [Hdraws _].
    by rewrite Hsel in Hdraws. }
  split.
  { eapply lookup_weaken; [|apply (Hext23 cache)].
    eapply lookup_weaken; [|apply (Hext12 cache)].
    by apply (get_or_create_stored _ _ _ _ _ _ _ Hsel). }
  split; [done|]. split; [done|]. by apply Hreplay.
Qed.

Lemma ssd_random_crop_selector_zero_witness :
  let image : Image := [[[F32.one]; [F32.zero]]; [[F32.half]; [F32.zero]]] in
  let boxes := [mkBox F32.zero F32.zero F32.half F32.half] in
  let st1 :=
    mkState (<[0%nat := <[(SELECTOR_TUPLES, SSD_CROP_SELECTOR_ID) := RVInt 0]>
                          (cache_of initial_state 0%nat)]>
               (caches initial_state)) 1 in
  well_typed initial_state
  ∧ (@ssd_random_crop sample_random_ops sample_geometry_ops
       image boxes [1] None None None None None default_min_object_covered
       default_aspect_ratio_range default_area_range default_overlap_thresh
       default_clip_boxes default_random_coef None (Some 0%nat)
       initial_state).1
    = (@random_crop_image sample_random_ops sample_geometry_ops
         image boxes [1] None None None None None F64.zero
         (F64.of_Z_exp 1 (-1), F64.of_Z_exp 2 0) (f64_tenths 1, F64.one)
         F64.zero true
         (SFdiv F64.prec F64.emax (F64.of_Z_exp 15 0) (F64.of_Z_exp 100 0))
         None (Some 0%nat) st1).1.
Proof.
  intros image boxes st1. split; [apply well_typed_initial_state|].
  assert (_get_or_create_preprocess_rand_vars
            (fun n =>
               RVInt (@random_uniform_int sample_random_ops
                        (Z.of_nat (length default_min_object_covered)) n))
            SELECTOR_TUPLES (Some 0%nat) SSD_CROP_SELECTOR_ID initial_state
          = (Ok (RVInt 0), st1)) as Hsel.
  { rewrite get_or_create_run. reflexivity. }
  destruct (@ssd_random_crop_selector_zero
              sample_random_ops sample_geometry_ops
              image boxes [1] None None None None None
              default_min_object_covered default_aspect_ratio_range
              default_area_range default_overlap_thresh default_clip_boxes
              default_random_coef None 0%nat F64.zero
              (F64.of_Z_exp 1 (-1), F64.of_Z_exp 2 0)
              (f64_tenths 1, F64.one) F64.zero true
              (SFdiv F64.prec F64.emax (F64.of_Z_exp 15 0)
                 (F64.of_Z_exp 100 0))
              initial_state st1
              eq_refl eq_refl eq_refl eq_refl eq_refl
              eq_refl eq_refl eq_refl eq_refl eq_refl eq_refl
              well_typed_initial_state Hsel)
    as (_ & _ & _ & Heq & _).
  exact Heq.
Defined.
(** * Further properties *)

(** ** Flips and rotations *)

Lemma flip_up_down_involutive (image : Image) :
  flip_up_down (flip_up_down image) = image.
Proof. apply rev_involutive. Qed.

Lemma flip_masks_up_down_involutive (masks : Masks) :
  _flip_masks_up_down (_flip_masks_up_down masks) = masks.
Proof. apply map_rev_involutive. Qed.

Lemma flip_boxes_up_down_twice (boxes : list Box) :
  _flip_boxes_up_down (_flip_boxes_up_down boxes) = boxes
  ↔ Forall (fun b => reflection_exact (ymin b) ∧ reflection_exact (ymax b))
           boxes.
Proof.
  unfold _flip_boxes_up_down, reflection_exact.
  induction boxes as [|[y0 x0 y1 x1] boxes IH]; simpl.
  - split; [constructor|done].
  - rewrite Forall_cons, <- IH. simpl. split.
    + intros [= Hy0 Hy1 Hrest]. by rewrite Hy0, Hy1, Hrest.
    + intros [[-> ->] ->]. done.
Qed.

Lemma flip_images_commute (image : Image) :
  flip_left_right (flip_up_down image) = flip_up_down (flip_left_right image).
Proof. unfold flip_left_right, flip_up_down. by rewrite map_rev. Qed.

Lemma flip_boxes_commute (boxes : list Box) :
  _flip_boxes_left_right (_flip_boxes_up_down boxes)
  = _flip_boxes_up_down (_flip_boxes_left_right boxes).
Proof.
  unfold _flip_boxes_left_right, _flip_boxes_up_down.
  rewrite !map_map. by apply map_ext.
Qed.

Lemma flip_masks_commute (masks : Masks) :
  _flip_masks_left_right (_flip_masks_up_down masks)
  = _flip_masks_up_down (_flip_masks_left_right masks).
Proof.
  unfold _flip_masks_left_right, _flip_masks_up_down.
  rewrite !map_map. apply map_ext. intros mask. by rewrite map_rev.
Qed.

Section Flips.
Context `{RandomOps} `{GeometryOps}.

(** A horizontal flip whose decision is in the cache. *)
Lemma random_horizontal_flip_cached image boxes masks
    keypoint_flip_permutation seed cache st draw :
  cache_of st cache !! (HORIZONTAL_FLIP, KStr "") = Some (RVFloat draw) →
  random_horizontal_flip image boxes masks None keypoint_flip_permutation
    seed (Some cache) st
  = (Ok (if F32.greater draw F32.half
         then [TImage (flip_left_right image)]
              ++ append_if TBoxes (_flip_boxes_left_right <$> boxes)
              ++ append_if TMasks (_flip_masks_left_right <$> masks)
         else [TImage image] ++ append_if TBoxes boxes
              ++ append_if TMasks masks), st).
Proof.
  intros Hcached. unfold random_horizontal_flip.
  rewrite bool_decide_eq_false_2 by (intros [[? [=]] _]).
  rewrite bind_run, get_or_create_run, Hcached. simpl.
  rewrite bind_mret. rewrite !app_nil_r.
  by destruct (F32.greater draw F32.half).
Qed.

Lemma random_vertical_flip_cached image boxes masks
    keypoint_flip_permutation seed cache st draw :
  cache_of st cache !! (VERTICAL_FLIP, KStr "") = Some (RVFloat draw) →
  random_vertical_flip image boxes masks None keypoint_flip_permutation
    seed (Some cache) st
  = (Ok (if F32.greater draw F32.half
         then [TImage (flip_up_down image)]
              ++ append_if TBoxes (_flip_boxes_up_down <$> boxes)
              ++ append_if TMasks (_flip_masks_up_down <$> masks)
         else [TImage image] ++ append_if TBoxes boxes
              ++ append_if TMasks masks), st).
Proof.
  intros Hcached. unfold random_vertical_flip.
  rewrite bool_decide_eq_false_2 by (intros [[? [=]] _]).
  rewrite bind_run, get_or_create_run, Hcached. simpl.
  rewrite bind_mret. rewrite !app_nil_r.
  by destruct (F32.greater draw F32.half).
Qed.

End Flips.

(** X1: the horizontal and the vertical flip commute.  On images, boxes and
    masks the two reflections give the same tensors in either order, exactly
    in float32; and with both decisions in a shared cache,
    random_horizontal_flip followed by random_vertical_flip returns what
    random_vertical_flip followed by random_horizontal_flip returns, whatever
    the two decisions are. *)
Theorem flips_commute `{RandomOps} `{GeometryOps}
    (image : Image) (boxes : list Box) (masks : option Masks)
    (permutation_h permutation_v : option (list nat)) (seed_h seed_v : option Z)
    (cache : cache_ref) (st : State) (draw_h draw_v : F32.t) :
  cache_of st cache !! (HORIZONTAL_FLIP, KStr "") = Some (RVFloat draw_h) →
  cache_of st cache !! (VERTICAL_FLIP, KStr "") = Some (RVFloat draw_v) →
  let horizontal image boxes masks :=
    random_horizontal_flip image (Some boxes) masks None permutation_h seed_h
      (Some cache) st in
  let vertical image boxes masks :=
    random_vertical_flip image (Some boxes) masks None permutation_v seed_v
      (Some cache) st in
  flip_left_right (flip_up_down image) = flip_up_down (flip_left_right image)
  ∧ _flip_boxes_left_right (_flip_boxes_up_down boxes)
    = _flip_boxes_up_down (_flip_boxes_left_right boxes)
  ∧ _flip_masks_left_right <$> (_flip_masks_up_down <$> masks)
    = _flip_masks_up_down <$> (_flip_masks_left_right <$> masks)
  ∧ ∃ image_h boxes_h masks_h image_v boxes_v masks_v final,
      horizontal image boxes masks
      = (Ok ([TImage image_h; TBoxes boxes_h] ++ append_if TMasks masks_h),
         st)
      ∧ vertical image_h boxes_h masks_h = (Ok final, st)
      ∧ vertical image boxes masks
        = (Ok ([TImage image_v; TBoxes boxes_v] ++ append_if TMasks masks_v),
           st)
      ∧ horizontal image_v boxes_v masks_v = (Ok final, st).
Proof.
  intros Hh Hv horizontal vertical.
  assert (_flip_masks_left_right <$> (_flip_masks_up_down <$> masks)
          = _flip_masks_up_down <$> (_flip_masks_left_right <$> masks))
    as Hmasks.
  { destruct masks as [masks|]; simpl; [|done].
    by rewrite flip_masks_commute. }
  split; [apply flip_images_commute|].
  split; [apply flip_boxes_commute|]. split; [done|].
  unfold horizontal, vertical.
  destruct (F32.greater draw_h F32.half) eqn:Hdh,
    (F32.greater draw_v F32.half) eqn:Hdv.
  - exists (flip_left_right image), (_flip_boxes_left_right boxes),
      (_flip_masks_left_right <$> masks), (flip_up_down image),
      (_flip_boxes_up_down boxes), (_flip_masks_up_down <$> masks).
    eexists.
    rewrite !(random_horizontal_flip_cached _ _ _ _ _ _ _ _ Hh), Hdh.
    rewrite !(random_vertical_flip_cached _ _ _ _ _ _ _ _ Hv), Hdv.
    simpl fmap.
    rewrite flip_images_commute, flip_boxes_commute, Hmasks. done.
  - exists (flip_left_right image), (_flip_boxes_left_right boxes),
      (_flip_masks_left_right <$> masks), image, boxes, masks.
    eexists.
    rewrite !(random_horizontal_flip_cached _ _ _ _ _ _ _ _ Hh), Hdh.
    rewrite !(random_vertical_flip_cached _ _ _ _ _ _ _ _ Hv), Hdv.
    done.
  - exists image, boxes, masks, (flip_up_down image),
      (_flip_boxes_up_down boxes), (_flip_masks_up_down <$> masks).
    eexists.
    rewrite !(random_horizontal_flip_cached _ _ _ _ _ _ _ _ Hh), Hdh.
    rewrite !(random_vertical_flip_cached _ _ _ _ _ _ _ _ Hv), Hdv.
    done.
  - exists image, boxes, masks, image, boxes, masks.
    eexists.
    rewrite !(random_horizontal_flip_cached _ _ _ _ _ _ _ _ Hh), Hdh.
    rewrite !(random_vertical_flip_cached _ _ _ _ _ _ _ _ Hv), Hdv.
    done.
Qed.

Lemma flips_commute_witness :
  let image : Image := [[[F32.one]; [F32.zero]]; [[F32.half]; [F32.zero]]] in
  let boxes := [mkBox F32.zero F32.zero F32.half F32.half] in
  let st :=
    mkState {[ 0%nat := {[ (HORIZONTAL_FLIP, KStr "") := RVFloat F32.one;
                           (VERTICAL_FLIP, KStr "") := RVFloat F32.zero ]} ]}
            0 in
  let horizontal image boxes masks :=
    @random_horizontal_flip sample_random_ops sample_geometry_ops
      image (Some boxes) masks None None None (Some 0%nat) st in
  let vertical image boxes masks :=
    @random_vertical_flip sample_random_ops sample_geometry_ops
      image (Some boxes) masks None None None (Some 0%nat) st in
  ∃ image_h boxes_h masks_h image_v boxes_v masks_v final,
    horizontal image boxes None
    = (Ok ([TImage image_h; TBoxes boxes_h] ++ append_if TMasks masks_h), st)
    ∧ vertical image_h boxes_h masks_h = (Ok final, st)
    ∧ vertical image boxes None
      = (Ok ([TImage image_v; TBoxes boxes_v] ++ append_if TMasks masks_v),
         st)
    ∧ horizontal image_v boxes_v masks_v = (Ok final, st).
Proof.
  intros image boxes st horizontal vertical.
  apply (@flips_commute sample_random_ops sample_geometry_ops
           image boxes None None None None None 0%nat st F32.one F32.zero).
  - vm_compute. reflexivity.
  - vm_compute. reflexivity.
Defined.

(** X2: the vertical flip maps each row to [1 - ymax, xmin, 1 - ymin, xmax];
    flipping the boxes twice gives them back exactly when every y-coordinate
    survives the double reflection in float32, flipping the image or the
    masks twice always gives them back, and two successive applications of
    random_vertical_flip whose cached draw is above 0.5 return the image,
    such boxes and the masks. *)
Theorem vertical_flip_twice `{RandomOps} `{GeometryOps} :
  (∀ (boxes : list Box) (i : nat) (b : Box),
     boxes !! i = Some b →
     _flip_boxes_up_down boxes !! i
     = Some (mkBox (F32.sub F32.one (ymax b)) (xmin b)
                   (F32.sub F32.one (ymin b)) (xmax b)))
  ∧ (∀ boxes : list Box,
       _flip_boxes_up_down (_flip_boxes_up_down boxes) = boxes
       ↔ Forall (fun b => reflection_exact (ymin b)
                          ∧ reflection_exact (ymax b)) boxes)
  ∧ (∀ image : Image, flip_up_down (flip_up_down image) = image)
  ∧ (∀ masks : Masks, _flip_masks_up_down (_flip_masks_up_down masks) = masks)
  ∧ (∀ (image : Image) (boxes : list Box) (masks : option Masks)
       (keypoint_flip_permutation : option (list nat)) (seed : option Z)
       (cache : cache_ref) (st : State) (draw : F32.t),
       cache_of st cache !! (VERTICAL_FLIP, KStr "") = Some (RVFloat draw) →
       F32.greater draw F32.half = true →
       Forall (fun b => reflection_exact (ymin b)
                        ∧ reflection_exact (ymax b)) boxes →
       ∃ image' boxes' masks',
         random_vertical_flip image (Some boxes) masks None
           keypoint_flip_permutation seed (Some cache) st
         = (Ok ([TImage image'; TBoxes boxes'] ++ append_if TMasks masks'),
            st)
         ∧ random_vertical_flip image' (Some boxes') masks' None
             keypoint_flip_permutation seed (Some cache) st
           = (Ok ([TImage image; TBoxes boxes] ++ append_if TMasks masks),
              st)).
Proof.
  split; [|split; [|split; [|split]]].
  - intros boxes i b Hb. unfold _flip_boxes_up_down.
    change (map ?f ?l) with (f <$> l). by rewrite list_lookup_fmap, Hb.
  - apply flip_boxes_up_down_twice.
  - apply flip_up_down_involutive.
  - apply flip_masks_up_down_involutive.
  - intros image boxes masks perm seed cache st draw Hcached Hdraw Hexact.
    exists (flip_up_down image), (_flip_boxes_up_down boxes),
      (_flip_masks_up_down <$> masks).
    rewrite !(random_vertical_flip_cached _ _ _ _ _ _ _ _ Hcached), Hdraw.
    split; [done|]. simpl fmap.
    rewrite flip_up_down_involutive.
    rewrite (proj2 (flip_boxes_up_down_twice boxes) Hexact).
    destruct masks as [masks|]; simpl; [|done].
    by rewrite flip_masks_up_down_involutive.
Qed.

Lemma vertical_flip_twice_witness :
  let quarter := F32.of_Z_exp 1 (-2) in
  let three_quarters := F32.of_Z_exp 3 (-2) in
  let image : Image := [[[F32.one]]; [[F32.zero]]] in
  let boxes := [mkBox quarter quarter three_quarters F32.one] in
  let st :=
    mkState {[ 0%nat := {[ (VERTICAL_FLIP, KStr "")
                           := RVFloat three_quarters ]} ]} 0 in
  ∃ image' boxes' masks',
    @random_vertical_flip sample_random_ops sample_geometry_ops
      image (Some boxes) None None None None (Some 0%nat) st
    = (Ok ([TImage image'; TBoxes boxes'] ++ append_if TMasks masks'), st)
    ∧ @random_vertical_flip sample_random_ops sample_geometry_ops
        image' (Some boxes') masks' None None None (Some 0%nat) st
      = (Ok [TImage image; TBoxes boxes], st).
Proof.
  intros quarter three_quarters image boxes st.
  apply (proj2 (proj2 (proj2 (proj2
           (@vertical_flip_twice sample_random_ops sample_geometry_ops))))
           image boxes None None None 0%nat st three_quarters).
  - vm_compute. reflexivity.
  - vm_compute. reflexivity.
  - repeat constructor; vm_compute; reflexivity.
Defined.

(** X3: a flip whose decision is not above 0.5 changes nothing.  When
    keypoints come with a permutation and the cached draw of
    random_horizontal_flip, or of random_vertical_flip, is not greater than
    0.5, the call returns the image and each supplied tensor (boxes, masks,
    keypoints) as they were given, in that order, and leaves the state as it
    is. *)
Theorem flip_not_taken `{RandomOps} `{GeometryOps}
    (image : Image) (boxes : option (list Box)) (masks : option Masks)
    (keypoints : option Keypoints)
    (keypoint_flip_permutation : option (list nat)) (seed : option Z)
    (cache : cache_ref) (st : State) (draw : F32.t) :
  (is_Some keypoints → is_Some keypoint_flip_permutation) →
  F32.greater draw F32.half = false →
  (cache_of st cache !! (HORIZONTAL_FLIP, KStr "") = Some (RVFloat draw) →
   random_horizontal_flip image boxes masks keypoints
     keypoint_flip_permutation seed (Some cache) st
   = (Ok ([TImage image] ++ append_if TBoxes boxes ++ append_if TMasks masks
          ++ append_if TKeypoints keypoints), st))
  ∧ (cache_of st cache !! (VERTICAL_FLIP, KStr "") = Some (RVFloat draw) →
     random_vertical_flip image boxes masks keypoints
       keypoint_flip_permutation seed (Some cache) st
     = (Ok ([TImage image] ++ append_if TBoxes boxes
            ++ append_if TMasks masks ++ append_if TKeypoints keypoints),
        st)).
Proof.
  intros Hperm Hdraw.
  assert (¬ (is_Some keypoints ∧ keypoint_flip_permutation = None)) as Hok.
  { intros [Hk ->]. by destruct (Hperm Hk). }
  split; intros Hcached.
  - unfold random_horizontal_flip. rewrite bool_decide_eq_false_2 by done.
    rewrite bind_run, get_or_create_run, Hcached. simpl.
    rewrite bind_mret, Hdraw.
    destruct keypoints as [keypoints|]; [|done].
    destruct keypoint_flip_permutation; [done|]. by destruct Hok.
  - unfold random_vertical_flip. rewrite bool_decide_eq_false_2 by done.
    rewrite bind_run, get_or_create_run, Hcached. simpl.
    rewrite bind_mret, Hdraw.
    destruct keypoints as [keypoints|]; [|done].
    destruct keypoint_flip_permutation; [done|]. by destruct Hok.
Qed.

Lemma flip_not_taken_witness :
  let image : Image := [[[F32.one]; [F32.zero]]] in
  let boxes := [mkBox F32.zero F32.zero F32.half F32.one] in
  let keypoints : Keypoints := [[(F32.half, F32.zero)]] in
  let st :=
    mkState {[ 0%nat := {[ (HORIZONTAL_FLIP, KStr "") := RVFloat F32.half ]} ]}
            0 in
  @random_horizontal_flip sample_random_ops sample_geometry_ops
    image (Some boxes) None (Some keypoints) (Some [0%nat]) None (Some 0%nat)
    st
  = (Ok [TImage image; TBoxes boxes; TKeypoints keypoints], st).
Proof.
  intros image boxes keypoints st.
  apply (proj1 (@flip_not_taken sample_random_ops sample_geometry_ops
                  image (Some boxes) None (Some keypoints) (Some [0%nat])
                  None 0%nat st F32.half
                  (fun _ => ex_intro _ [0%nat] eq_refl) eq_refl)).
  vm_compute. reflexivity.
Defined.

(** X4: _rot90_boxes maps each row [ymin, xmin, ymax, xmax] to
    [1 - xmax, ymin, 1 - xmin, ymax] and keeps the number of boxes; two
    rotations are the horizontal flip followed by the vertical flip, exactly
    in float32; four rotations give the boxes back exactly when every
    coordinate survives the double reflection. *)
Theorem rot90_boxes_compose (boxes : list Box) :
  (∀ (i : nat) (b : Box),
     boxes !! i = Some b →
     _rot90_boxes boxes !! i
     = Some (mkBox (F32.sub F32.one (xmax b)) (ymin b)
                   (F32.sub F32.one (xmin b)) (ymax b)))
  ∧ length (_rot90_boxes boxes) = length boxes
  ∧ _rot90_boxes (_rot90_boxes boxes)
    = _flip_boxes_up_down (_flip_boxes_left_right boxes)
  ∧ (_rot90_boxes (_rot90_boxes (_rot90_boxes (_rot90_boxes boxes))) = boxes
     ↔ Forall (fun b => reflection_exact (ymin b) ∧ reflection_exact (xmin b)
                        ∧ reflection_exact (ymax b)
                        ∧ reflection_exact (xmax b)) boxes).
Proof.
  split; [|split; [|split]].
  - intros i b Hb. unfold _rot90_boxes.
    change (map ?f ?l) with (f <$> l). by rewrite list_lookup_fmap, Hb.
  - apply length_map.
  - unfold _rot90_boxes, _flip_boxes_up_down, _flip_boxes_left_right.
    rewrite !map_map. by apply map_ext.
  - unfold _rot90_boxes, reflection_exact. rewrite !map_map.
    induction boxes as [|[y0 x0 y1 x1] boxes IH]; simpl.
    + split; [constructor|done].
    + rewrite Forall_cons, <- IH. simpl. split.
      * intros [= Hy0 Hx0 Hy1 Hx1 Hrest].
        by rewrite Hy0, Hx0, Hy1, Hx1, Hrest.
      * intros [(-> & -> & -> & ->) ->]. done.
Qed.

Lemma rot90_boxes_compose_witness :
  let quarter := F32.of_Z_exp 1 (-2) in
  let box := mkBox quarter F32.zero F32.half F32.one in
  _rot90_boxes [box] !! 0%nat
  = Some (mkBox (F32.sub F32.one F32.one) quarter
                (F32.sub F32.one F32.zero) F32.half).
Proof.
  intros quarter box.
  apply (proj1 (rot90_boxes_compose [box]) 0%nat box). reflexivity.
Defined.

(** ** Jitter *)

Lemma clip_in_unit_range (x : F32.t) :
  in_unit_range (F32.clip_by_value x F32.zero F32.one).
Proof.
  unfold in_unit_range, F32.clip_by_value, F32.maximum, F32.minimum.
  destruct (SFltb x F32.zero) eqn:Hlow.
  - by vm_compute.
  - destruct (SFltb F32.one x) eqn:Hhigh; [by vm_compute|done].
Qed.

Lemma clip_box_in_unit_range (b : Box) : box_in_unit_range (clip_box b).
Proof. repeat split; apply clip_in_unit_range. Qed.

(** X5: random_jitter_boxes returns one box per input box, draws once per
    box, and every coordinate it returns has been clipped: it is not below 0
    and not above 1, whatever the boxes, the ratio and the draws are. *)
Theorem random_jitter_boxes_clipped `{RandomOps}
    (boxes : list Box) (ratio : F64.t) (seed : option Z) (st : State) :
  ∃ distorted_boxes,
    random_jitter_boxes boxes ratio seed st
    = (Ok [TBoxes distorted_boxes],
       mkState (caches st) (draws st + length boxes))
    ∧ length distorted_boxes = length boxes
    ∧ Forall box_in_unit_range distorted_boxes.
Proof.
  eexists. split; [apply random_jitter_boxes_run|].
  split; [apply length_imap|].
  apply Forall_lookup. intros i b. rewrite list_lookup_imap.
  destruct (boxes !! i) as [box|]; [|done]. simpl. intros [= <-].
  apply clip_box_in_unit_range.
Qed.

(** ** Crops *)

Lemma slice_hw_shape {A : Type} (offset_y offset_x height width : nat)
    (rows sliced : list (list A)) :
  slice_hw offset_y offset_x height width rows = Some sliced →
  has_shape_hw height width sliced.
Proof.
  unfold slice_hw.
  destruct (bool_decide (offset_y + height ≤ length rows)%nat) eqn:Hrows;
    [|done].
  destruct (forallb _ rows) eqn:Hcols; [|done]. simpl. intros [= <-].
  apply bool_decide_eq_true_1 in Hrows.
  split.
  - rewrite length_map, length_take, length_drop. lia.
  - apply Forall_fmap, Forall_forall. intros row Hrow. simpl.
    assert (row ∈ rows) as Hin.
    { apply elem_of_take in Hrow as (i & Hi & _).
      rewrite lookup_drop in Hi. by eapply list_elem_of_lookup_2. }
    rewrite forallb_forall in Hcols.
    apply list_elem_of_In, Hcols, bool_decide_eq_true_1 in Hin.
    rewrite length_take, length_drop. lia.
Qed.

Lemma mapM_slice_hw_shape {A : Type} (offset_y offset_x height width : nat)
    (masks sliced : list (list (list A))) :
  mapM (slice_hw offset_y offset_x height width) masks = Some sliced →
  Forall (has_shape_hw height width) sliced.
Proof.
  intros Hm. apply mapM_Some_1 in Hm.
  induction Hm as [|mask s masks' sliced' Hs _ IH]; constructor; [|done].
  by eapply slice_hw_shape.
Qed.

(** Gathering at the positions a mask holds keeps the rows that pass, in
    order. *)
Lemma tf_gather_where_from_filter {A : Type} (p : A -> bool)
    (before rows : list A) :
  tf_gather (before ++ rows) (where_from (length before) (map p rows))
  = Some (filter (fun x => p x = true) rows).
Proof.
  unfold tf_gather. apply mapM_Some. revert before.
  induction rows as [|row rows IH]; intros before; simpl; [constructor|].
  specialize (IH (before ++ [row])).
  rewrite <- app_assoc, length_app, Nat.add_1_r in IH. simpl in IH.
  rewrite filter_cons. destruct (decide (p row = true)) as [->|Hp].
  - constructor; [|done]. by apply list_lookup_middle.
  - destruct (p row); [done|]. done.
Qed.

Lemma tf_gather_where_filter {A : Type} (p : A -> bool) (rows : list A) :
  tf_gather rows (tf_where (map p rows))
  = Some (filter (fun x => p x = true) rows).
Proof. apply (tf_gather_where_from_filter p []). Qed.

(** What the crop of a sampled window returns when it returns. *)
Lemma crop_to_sampled_window_returns `{GeometryOps}
    image boxes labels label_weights label_confidences multiclass_scores
    masks keypoints overlap_thresh clip_boxes crop st output st' :
  crop_to_sampled_window image boxes labels label_weights label_confidences
    multiclass_scores masks keypoints overlap_thresh clip_boxes crop st
  = (Ok output, st') →
  let kept_boxes :=
    filter (fun b => F32.greater_equal (overlap_fraction b (cw_box crop))
                                       (F64.to_f32 overlap_thresh) = true)
      (filter (fun b => negb (completely_outside_window b (cw_box crop))
                        = true) boxes) in
  ∃ new_image new_labels new_label_weights new_label_confidences
    new_multiclass_scores new_masks new_keypoints,
    slice_hw (cw_offset_y crop) (cw_offset_x crop) (cw_height crop)
             (cw_width crop) image = Some new_image
    ∧ output
      = [TImage new_image;
         TBoxes (let moved :=
                   map (fun b => box_to_frame b (cw_box crop)) kept_boxes in
                 if clip_boxes then map clip_box moved else moved);
         TInts new_labels]
        ++ append_if TFloats new_label_weights
        ++ append_if TFloats new_label_confidences
        ++ append_if TScores new_multiclass_scores
        ++ append_if TMasks new_masks
        ++ append_if TKeypoints new_keypoints
    ∧ (is_Some new_label_weights ↔ is_Some label_weights)
    ∧ (is_Some new_label_confidences ↔ is_Some label_confidences)
    ∧ (is_Some new_multiclass_scores ↔ is_Some multiclass_scores)
    ∧ (is_Some new_masks ↔ is_Some masks)
    ∧ (is_Some new_keypoints ↔ is_Some keypoints)
    ∧ from_option
        (Forall (has_shape_hw (cw_height crop) (cw_width crop))) True
        new_masks
    ∧ st' = st.
Proof.
  intros Hrun kept_boxes. revert Hrun.
  match goal with |- _ → ?G => set (P := G) end.
  assert (∀ st0 : State,
            (Raise InvalidArgumentError : Result (list Tensor), st0)
            = (Ok output, st') → P) as Hfail by (by intros st0 [=]).
  unfold crop_to_sampled_window. cbv zeta. rewrite crop_boxlist_fields.
  destruct (slice_hw _ _ _ _ image) as [new_image|] eqn:Hslice;
    [|apply Hfail].
  rewrite bind_expect_Some.
  unfold prune_completely_outside_window, prune_non_overlapping_boxes.
  rewrite !bind_assoc_run, bind_run, boxlist_gather_run. simpl bl_boxes.
  simpl bl_fields.
  rewrite (tf_gather_where_filter
             (fun b => negb (completely_outside_window b (cw_box crop)))).
  set (boxes1 := filter _ boxes).
  rewrite crop_fields_gather.
  destruct (tf_gather labels _) as [labels1|]; [|apply Hfail]. simpl.
  destruct (tf_gather_opt label_weights _) as [lw1|] eqn:Hlw1;
    [|apply Hfail]. simpl.
  destruct (tf_gather_opt label_confidences _) as [lc1|] eqn:Hlc1;
    [|apply Hfail]. simpl.
  destruct (tf_gather_opt multiclass_scores _) as [ms1|] eqn:Hms1;
    [|apply Hfail]. simpl.
  rewrite bind_mret. cbv beta iota.
  rewrite !bind_assoc_run, bind_run, boxlist_gather_run. simpl bl_boxes.
  simpl bl_fields.
  rewrite (tf_gather_where_filter
             (fun b => F32.greater_equal (overlap_fraction b (cw_box crop))
                                         (F64.to_f32 overlap_thresh))).
  set (boxes2 := filter _ boxes1).
  rewrite crop_fields_gather.
  destruct (tf_gather labels1 _) as [labels2|]; [|apply Hfail]. simpl.
  destruct (tf_gather_opt lw1 _) as [lw2|] eqn:Hlw2; [|apply Hfail]. simpl.
  destruct (tf_gather_opt lc1 _) as [lc2|] eqn:Hlc2; [|apply Hfail]. simpl.
  destruct (tf_gather_opt ms1 _) as [ms2|] eqn:Hms2; [|apply Hfail]. simpl.
  rewrite bind_mret. cbv beta iota.
  unfold get_field at 1. simpl bl_fields.
  rewrite (proj1 (crop_fields_named labels2 lw2 lc2 ms2)), bind_expect_Some.
  assert (is_Some lw2 ↔ is_Some label_weights) as Hlw.
  { symmetry. etrans; by eapply tf_gather_opt_is_Some. }
  assert (is_Some lc2 ↔ is_Some label_confidences) as Hlc.
  { symmetry. etrans; by eapply tf_gather_opt_is_Some. }
  assert (is_Some ms2 ↔ is_Some multiclass_scores) as Hms.
  { symmetry. etrans; by eapply tf_gather_opt_is_Some. }
  erewrite bind_run_Ok; cycle 1.
  { by apply (field_values_run TFloats); [|apply crop_fields_named|]. }
  erewrite bind_run_Ok; cycle 1.
  { by apply (field_values_run TFloats); [|apply crop_fields_named|]. }
  erewrite bind_run_Ok; cycle 1.
  { by apply (field_values_run TScores); [|apply crop_fields_named|]. }
  assert (∀ (new_masks : option Masks) (new_keypoints : option Keypoints)
            (st0 : State),
            (is_Some new_masks ↔ is_Some masks) →
            (is_Some new_keypoints ↔ is_Some keypoints) →
            from_option
              (Forall (has_shape_hw (cw_height crop) (cw_width crop))) True
              new_masks →
            st0 = st →
            (Ok ([TImage new_image;
                  TBoxes (if clip_boxes
                          then map clip_box
                                 (bl_boxes
                                    (change_coordinate_frame
                                       (mkBoxList boxes2
                                          (crop_fields labels2 lw2 lc2 ms2))
                                       (cw_box crop)))
                          else bl_boxes
                                 (change_coordinate_frame
                                    (mkBoxList boxes2
                                       (crop_fields labels2 lw2 lc2 ms2))
                                    (cw_box crop)));
                  TInts labels2]
                 ++ append_if TFloats lw2 ++ append_if TFloats lc2
                 ++ append_if TScores ms2 ++ append_if TMasks new_masks
                 ++ append_if TKeypoints new_keypoints), st0)
            = (Ok output, st') → P) as Hok.
  { intros new_masks new_keypoints st0 Hm Hk Hshape -> [= <- <-].
    by exists new_image, labels2, lw2, lc2, ms2, new_masks, new_keypoints. }
  destruct masks as [masks|]; cbv beta iota.
  - rewrite !bind_assoc_run.
    destruct (tf_gather masks _) as [masks1|]; [|apply Hfail].
    rewrite bind_expect_Some; cbv beta; rewrite ?bind_assoc_run.
    destruct (tf_gather masks1 _) as [masks2|]; [|apply Hfail].
    rewrite bind_expect_Some; cbv beta; rewrite ?bind_assoc_run.
    destruct (mapM _ masks2) as [new_masks|] eqn:Hsliced; [|apply Hfail].
    rewrite bind_expect_Some, bind_mret.
    apply mapM_slice_hw_shape in Hsliced.
    destruct keypoints as [keypoints|]; cbv beta iota.
    + rewrite !bind_assoc_run.
      destruct (tf_gather keypoints _) as [kps1|]; [|apply Hfail].
      rewrite bind_expect_Some; cbv beta; rewrite ?bind_assoc_run.
      destruct (tf_gather kps1 _) as [kps2|]; [|apply Hfail].
      rewrite bind_expect_Some, !bind_mret.
      by apply Hok; [split; intros _; eexists..| |].
    + rewrite !bind_mret. by apply Hok; [split; intros _; eexists| | |].
  - rewrite bind_mret.
    destruct keypoints as [keypoints|]; cbv beta iota.
    + rewrite !bind_assoc_run.
      destruct (tf_gather keypoints _) as [kps1|]; [|apply Hfail].
      rewrite bind_expect_Some; cbv beta; rewrite ?bind_assoc_run.
      destruct (tf_gather kps1 _) as [kps2|]; [|apply Hfail].
      rewrite bind_expect_Some, !bind_mret.
      by apply Hok; [|split; intros _; eexists| |].
    + rewrite !bind_mret. by apply Hok.
Qed.

Section CropResults.
Context `{RandomOps} `{GeometryOps}.

(** A strict crop that returns has read or drawn a crop window and returns
    the crop of that window. *)
Lemma strict_random_crop_image_returns
    image boxes labels label_weights label_confidences multiclass_scores
    masks keypoints min_object_covered aspect_ratio_range area_range
    overlap_thresh clip_boxes preprocess_vars_cache st output st' :
  _strict_random_crop_image image boxes labels label_weights
    label_confidences multiclass_scores masks keypoints min_object_covered
    aspect_ratio_range area_range overlap_thresh clip_boxes
    preprocess_vars_cache st = (Ok output, st') →
  ∃ crop,
    _get_or_create_preprocess_rand_vars
      (fun n =>
         RVCrop (sample_distorted_bounding_box
                   (image_shape image) (map clip_box boxes)
                   min_object_covered aspect_ratio_range area_range n))
      STRICT_CROP_IMAGE preprocess_vars_cache (float_key min_object_covered)
      st = (Ok (RVCrop crop), st')
    ∧ crop_to_sampled_window image boxes labels label_weights
        label_confidences multiclass_scores masks keypoints overlap_thresh
        clip_boxes crop st' = (Ok output, st').
Proof.
  unfold _strict_random_crop_image. cbv zeta. rewrite bind_run.
  destruct (_get_or_create_preprocess_rand_vars _ _ _ _ st)
    as [[var|e] st1]; [|done].
  destruct var as [| |crop| |]; try done. simpl crop_var. rewrite bind_mret.
  intros Hrun. exists crop.
  destruct (crop_to_sampled_window_run _ _ _ _ _ _ _ _ _ _ _ _ _ _ Hrun)
    as [-> _].
  done.
Qed.

End CropResults.

(** X6: the boxes of a strict crop.  When _strict_random_crop_image returns,
    the boxes it returns are the input boxes that are not completely outside
    the crop window and whose overlap with it reaches overlap_thresh, in the
    order of the input, each moved to the frame of the window; there are no
    more of them than input boxes, and with clip_boxes set none of their
    coordinates is below 0 or above 1. *)
Theorem strict_random_crop_boxes `{RandomOps} `{GeometryOps}
    (image : Image) (boxes : list Box) (labels : list Z)
    (label_weights label_confidences : option (list F32.t))
    (multiclass_scores : option (list (list F32.t)))
    (masks : option Masks) (keypoints : option Keypoints)
    (min_object_covered : F64.t) (aspect_ratio_range area_range : F64.t * F64.t)
    (overlap_thresh : F64.t) (clip_boxes : bool)
    (preprocess_vars_cache : option cache_ref)
    (st st' : State) (output : list Tensor) :
  _strict_random_crop_image image boxes labels label_weights
    label_confidences multiclass_scores masks keypoints min_object_covered
    aspect_ratio_range area_range overlap_thresh clip_boxes
    preprocess_vars_cache st = (Ok output, st') →
  ∃ crop new_image rest,
    let window := cw_box crop in
    let kept_boxes :=
      filter (fun b => F32.greater_equal (overlap_fraction b window)
                                         (F64.to_f32 overlap_thresh) = true)
        (filter (fun b => negb (completely_outside_window b window) = true)
                boxes) in
    let moved := map (fun b => box_to_frame b window) kept_boxes in
    let new_boxes := if clip_boxes then map clip_box moved else moved in
    _get_or_create_preprocess_rand_vars
      (fun n =>
         RVCrop (sample_distorted_bounding_box
                   (image_shape image) (map clip_box boxes)
                   min_object_covered aspect_ratio_range area_range n))
      STRICT_CROP_IMAGE preprocess_vars_cache (float_key min_object_covered)
      st = (Ok (RVCrop crop), st')
    ∧ output = TImage new_image :: TBoxes new_boxes :: rest
    ∧ (length new_boxes <= length boxes)%nat
    ∧ (clip_boxes = true → Forall box_in_unit_range new_boxes).
Proof.
  intros Hrun.
  apply strict_random_crop_image_returns in Hrun as (crop & Haccess & Hrun).
  apply crop_to_sampled_window_returns in Hrun
    as (new_image & nl & nlw & nlc & nms & nm & nk & _ & -> & _).
  exists crop, new_image. eexists. cbv zeta.
  split; [done|]. split; [done|]. split.
  - destruct clip_boxes; rewrite ?length_map;
      (etrans; [apply length_filter|apply length_filter]).
  - intros ->. apply Forall_forall. intros b Hb.
    apply list_elem_of_fmap in Hb as (b' & -> & _).
    apply clip_box_in_unit_range.
Qed.

(** X7: the shapes of a strict crop.  When _strict_random_crop_image
    returns, the image it returns has the height and the width of the crop
    window, in every row, and so has every mask it returns; it returns masks
    exactly when masks were supplied. *)
Theorem strict_random_crop_shapes `{RandomOps} `{GeometryOps}
    (image : Image) (boxes : list Box) (labels : list Z)
    (label_weights label_confidences : option (list F32.t))
    (multiclass_scores : option (list (list F32.t)))
    (masks : option Masks) (keypoints : option Keypoints)
    (min_object_covered : F64.t) (aspect_ratio_range area_range : F64.t * F64.t)
    (overlap_thresh : F64.t) (clip_boxes : bool)
    (preprocess_vars_cache : option cache_ref)
    (st st' : State) (output : list Tensor) :
  _strict_random_crop_image image boxes labels label_weights
    label_confidences multiclass_scores masks keypoints min_object_covered
    aspect_ratio_range area_range overlap_thresh clip_boxes
    preprocess_vars_cache st = (Ok output, st') →
  ∃ crop new_image new_boxes new_labels new_label_weights
    new_label_confidences new_multiclass_scores new_masks new_keypoints,
    _get_or_create_preprocess_rand_vars
      (fun n =>
         RVCrop (sample_distorted_bounding_box
                   (image_shape image) (map clip_box boxes)
                   min_object_covered aspect_ratio_range area_range n))
      STRICT_CROP_IMAGE preprocess_vars_cache (float_key min_object_covered)
      st = (Ok (RVCrop crop), st')
    ∧ output
      = [TImage new_image; TBoxes new_boxes; TInts new_labels]
        ++ append_if TFloats new_label_weights
        ++ append_if TFloats new_label_confidences
        ++ append_if TScores new_multiclass_scores
        ++ append_if TMasks new_masks
        ++ append_if TKeypoints new_keypoints
    ∧ has_shape_hw (cw_height crop) (cw_width crop) new_image
    ∧ (is_Some new_masks ↔ is_Some masks)
    ∧ from_option
        (Forall (has_shape_hw (cw_height crop) (cw_width crop))) True
        new_masks.
Proof.
  intros Hrun.
  apply strict_random_crop_image_returns in Hrun as (crop & Haccess & Hrun).
  apply crop_to_sampled_window_returns in Hrun
    as (new_image & nl & nlw & nlc & nms & nm & nk & Hslice & -> & _ & _ & _
        & Hmasks & _ & Hshape & _).
  exists crop, new_image. eexists. exists nl, nlw, nlc, nms, nm, nk.
  split; [done|]. split; [done|].
  split; [by eapply slice_hw_shape|]. done.
Qed.

Lemma strict_random_crop_boxes_witness :
  let image : Image := [[[F32.one]; [F32.zero]]; [[F32.half]; [F32.zero]]] in
  let boxes := [mkBox F32.zero F32.zero F32.half F32.half;
                mkBox F32.one F32.one F32.one F32.one] in
  let output :=
    [TImage image; TBoxes [mkBox F32.zero F32.zero F32.half F32.half];
     TInts [1]] in
  @_strict_random_crop_image sample_random_ops sample_geometry_ops
    image boxes [1; 2] None None None None None F64.one (F64.one, F64.one)
    (F64.one, F64.one) F64.zero true None initial_state
  = (Ok output, mkState ∅ 1)
  ∧ ∃ new_image new_boxes rest,
      output = TImage new_image :: TBoxes new_boxes :: rest
      ∧ (length new_boxes <= 2)%nat
      ∧ Forall box_in_unit_range new_boxes.
Proof.
  intros image boxes output.
  assert (@_strict_random_crop_image sample_random_ops sample_geometry_ops
            image boxes [1; 2] None None None None None F64.one
            (F64.one, F64.one) (F64.one, F64.one) F64.zero true None
            initial_state
          = (Ok output, mkState ∅ 1)) as Hrun by (vm_compute; reflexivity).
  split; [exact Hrun|].
  destruct (@strict_random_crop_boxes sample_random_ops sample_geometry_ops
              _ _ _ _ _ _ _ _ _ _ _ _ _ _ _ _ _ Hrun)
    as (crop & new_image & rest & _ & Hout & Hlen & Hclip).
  eexists _, _, _. split; [exact Hout|]. split; [exact Hlen|].
  exact (Hclip eq_refl).
Defined.

Lemma strict_random_crop_shapes_witness :
  let image : Image := [[[F32.one]; [F32.zero]]; [[F32.half]; [F32.zero]]] in
  let boxes := [mkBox F32.zero F32.zero F32.half F32.half;
                mkBox F32.one F32.one F32.one F32.one] in
  let masks : Masks :=
    [[[F32.one; F32.zero]; [F32.zero; F32.zero]];
     [[F32.zero; F32.zero]; [F32.zero; F32.one]]] in
  let output :=
    [TImage image; TBoxes [mkBox F32.zero F32.zero F32.half F32.half];
     TInts [1]; TMasks [[[F32.one; F32.zero]; [F32.zero; F32.zero]]]] in
  @_strict_random_crop_image sample_random_ops sample_geometry_ops
    image boxes [1; 2] None None None (Some masks) None F64.one
    (F64.one, F64.one) (F64.one, F64.one) F64.zero true None initial_state
  = (Ok output, mkState ∅ 1)
  ∧ ∃ crop (new_image : Image) (new_masks : option Masks),
      has_shape_hw (cw_height crop) (cw_width crop) new_image
      ∧ is_Some new_masks
      ∧ from_option
          (Forall (has_shape_hw (cw_height crop) (cw_width crop))) True
          new_masks.
Proof.
  intros image boxes masks output.
  assert (@_strict_random_crop_image sample_random_ops sample_geometry_ops
            image boxes [1; 2] None None None (Some masks) None F64.one
            (F64.one, F64.one) (F64.one, F64.one) F64.zero true None
            initial_state
          = (Ok output, mkState ∅ 1)) as Hrun by (vm_compute; reflexivity).
  split; [exact Hrun|].
  destruct (@strict_random_crop_shapes sample_random_ops sample_geometry_ops
              _ _ _ _ _ _ _ _ _ _ _ _ _ _ _ _ _ Hrun)
    as (crop & new_image & nb & nl & nlw & nlc & nms & nm & nk & _ & _
        & Himage & Hsome & Hmasks).
  exists crop, new_image, nm. split; [exact Himage|].
  split; [|exact Hmasks]. apply Hsome. by eexists.
Defined.

(** ** What the operations return *)

Lemma returns_mret {A : Type} (a : A) (Q : A -> Prop) :
  Q a → returns (mret a : M A) Q.
Proof. by intros HQ st a' st' [= <- <-]. Qed.

Lemma returns_bind {A B : Type} (m : M A) (f : A -> M B)
    (Q : A -> Prop) (R : B -> Prop) :
  returns m Q → (∀ a, Q a → returns (f a) R) → returns (m ≫= f) R.
Proof.
  intros Hm Hf st b st' Hrun. rewrite bind_run in Hrun.
  destruct (m st) as [[a|e] st1] eqn:Hmst; [|done].
  by eapply Hf; [eapply Hm|].
Qed.

Lemma returns_any {A : Type} (m : M A) : returns m (fun _ => True).
Proof. by intros st a st' _. Qed.

Lemma returns_build {A : Type} (m : M A) (Q : A -> Prop) :
  returns m Q →
  returns (build m)
    (fun r => match r with Ok a => Q a | Raise _ => True end).
Proof.
  intros Hm st r st' Hrun. unfold build in Hrun.
  destruct (m st) as [[a|e] st1] eqn:Hmst.
  - injection Hrun as <- <-. by eapply Hm.
  - destruct (at_run_time e); [|done]. by injection Hrun as <- <-.
Qed.

Lemma returns_evaluate {A : Type} (r : Result A) (Q : A -> Prop) :
  match r with Ok a => Q a | Raise _ => True end → returns (evaluate r) Q.
Proof. intros Hr st a st' [= -> <-]. done. Qed.

Lemma returns_tf_cond {A : Type} (pred : bool) (true_fn false_fn : M A)
    (Q : A -> Prop) :
  returns true_fn Q → returns false_fn Q →
  returns (tf_cond pred true_fn false_fn) Q.
Proof.
  intros Ht Hf. unfold tf_cond.
  eapply returns_bind; [by apply returns_build|]. intros t Hrt.
  eapply returns_bind; [by apply returns_build|]. intros f Hrf.
  apply returns_evaluate. by destruct pred.
Qed.

Lemma returns_mapM {A B : Type} (f : A -> M B) (l : list A) (Q : B -> Prop) :
  (∀ a, returns (f a) Q) → returns (mapM f l) (Forall Q).
Proof.
  intros Hf. induction l as [|x l IH]; simpl.
  - by apply returns_mret.
  - eapply returns_bind; [apply Hf|]. intros y Hy.
    eapply returns_bind; [apply IH|]. intros k Hk.
    apply returns_mret. by constructor.
Qed.

(** The output of a selector is the output of one of its cases. *)
Lemma returns_apply_with_random_selector_tuples `{RandomOps} {X : Type}
    (x : X) (func : X -> nat -> M (list Tensor)) (num_cases : nat)
    (preprocess_vars_cache : option cache_ref) (key : SubKey)
    (Q : list Tensor -> Prop) :
  (∀ case, returns (func x case) Q) →
  returns
    (_apply_with_random_selector_tuples x func num_cases
       preprocess_vars_cache key) Q.
Proof.
  intros Hfunc. unfold _apply_with_random_selector_tuples. cbv zeta.
  eapply returns_bind; [apply returns_any|]. intros var _.
  eapply returns_bind; [apply returns_any|]. intros rand_sel _.
  eapply returns_bind.
  { apply returns_mapM. intros case. apply returns_build, Hfunc. }
  intros tuples Htuples. cbv beta in Htuples.
  destruct (decide (0 <= rand_sel)); [|done].
  destruct (tuples !! Z.to_nat rand_sel) as [output|] eqn:Hlook; [|done].
  apply returns_evaluate.
  by apply (Forall_lookup_1 _ _ _ _ Htuples Hlook).
Qed.

Section CropOutputs.
Context `{RandomOps} `{GeometryOps}.
Context (image : Image) (boxes : list Box) (labels : list Z)
  (label_weights label_confidences : option (list F32.t))
  (multiclass_scores : option (list (list F32.t)))
  (masks : option Masks) (keypoints : option Keypoints).

Lemma returns_strict_random_crop_image
    min_object_covered aspect_ratio_range area_range overlap_thresh
    clip_boxes preprocess_vars_cache :
  returns
    (_strict_random_crop_image image boxes labels label_weights
       label_confidences multiclass_scores masks keypoints min_object_covered
       aspect_ratio_range area_range overlap_thresh clip_boxes
       preprocess_vars_cache)
    (crop_output label_weights label_confidences multiclass_scores masks
       keypoints).
Proof.
  intros st output st' Hrun.
  apply strict_random_crop_image_returns in Hrun as (crop & _ & Hrun).
  apply crop_to_sampled_window_returns in Hrun
    as (new_image & nl & nlw & nlc & nms & nm & nk & _ & -> & Hlw & Hlc & Hms
        & Hm & Hk & _).
  by eexists new_image, _, nl, nlw, nlc, nms, nm, nk.
Qed.

Lemma returns_random_crop_image
    min_object_covered aspect_ratio_range area_range overlap_thresh
    clip_boxes random_coef seed preprocess_vars_cache :
  returns
    (random_crop_image image boxes labels label_weights label_confidences
       multiclass_scores masks keypoints min_object_covered
       aspect_ratio_range area_range overlap_thresh clip_boxes random_coef
       seed preprocess_vars_cache)
    (crop_output label_weights label_confidences multiclass_scores masks
       keypoints).
Proof.
  unfold random_crop_image. cbv zeta.
  destruct (F64.lt random_coef F64.float_info_min);
    [apply returns_strict_random_crop_image|].
  eapply returns_bind; [apply returns_any|]. intros var _.
  eapply returns_bind; [apply returns_any|]. intros x _.
  apply returns_tf_cond; [apply returns_strict_random_crop_image|].
  apply returns_mret.
  by exists image, boxes, labels, label_weights, label_confidences,
    multiclass_scores, masks, keypoints.
Qed.

Lemma returns_ssd_random_crop
    min_object_covered aspect_ratio_range area_range overlap_thresh
    clip_boxes random_coef seed preprocess_vars_cache :
  returns
    (ssd_random_crop image boxes labels label_weights label_confidences
       multiclass_scores masks keypoints min_object_covered
       aspect_ratio_range area_range overlap_thresh clip_boxes random_coef
       seed preprocess_vars_cache)
    (crop_output label_weights label_confidences multiclass_scores masks
       keypoints).
Proof.
  unfold ssd_random_crop.
  apply returns_apply_with_random_selector_tuples. intros case.
  rewrite random_crop_selector_packed.
  do 6 (eapply returns_bind; [apply returns_any|]; intros ? _).
  apply returns_random_crop_image.
Qed.

End CropOutputs.

Lemma crop_output_length label_weights label_confidences multiclass_scores
    masks keypoints output :
  crop_output label_weights label_confidences multiclass_scores masks
    keypoints output →
  length output
  = (3 + length (append_if TFloats label_weights
                 ++ append_if TFloats label_confidences
                 ++ append_if TScores multiclass_scores
                 ++ append_if TMasks masks
                 ++ append_if TKeypoints keypoints))%nat.
Proof.
  intros (ni & nb & nl & nlw & nlc & nms & nm & nk & -> & Hlw & Hlc & Hms
          & Hm & Hk).
  assert (∀ {A B : Type} (wrap : A → Tensor) (wrap' : B → Tensor)
            (x : option A) (y : option B),
            (is_Some x ↔ is_Some y) →
            length (append_if wrap x) = length (append_if wrap' y)) as Hone.
  { intros A B wrap wrap' [a|] [b|] Hxy; try done.
    - destruct (proj1 Hxy) as [? [=]]. by eexists.
    - destruct (proj2 Hxy) as [? [=]]. by eexists. }
  simpl. rewrite !length_app. do 3 f_equal.
  rewrite (Hone _ _ TFloats TFloats _ _ Hlw), (Hone _ _ TFloats TFloats _ _ Hlc),
    (Hone _ _ TScores TScores _ _ Hms), (Hone _ _ TMasks TMasks _ _ Hm),
    (Hone _ _ TKeypoints TKeypoints _ _ Hk).
  done.
Qed.

(** X8: what the crops return.  Whenever random_crop_image or
    ssd_random_crop returns, the result lists the image, the boxes and the
    labels, then one tensor of its kind for each optional array that was
    supplied (label_weights, label_confidences, multiclass_scores, masks,
    keypoints, in this order) and none for an array that was not: whichever
    branch or preset was taken, the result has as many entries as the inputs
    that are not None, which is what preprocess pairs with the field names. *)
Theorem crop_results_follow_inputs `{RandomOps} `{GeometryOps}
    (image : Image) (boxes : list Box) (labels : list Z)
    (label_weights label_confidences : option (list F32.t))
    (multiclass_scores : option (list (list F32.t)))
    (masks : option Masks) (keypoints : option Keypoints)
    (seed : option Z) (preprocess_vars_cache : option cache_ref)
    (st st' : State) (output : list Tensor) :
  let follows_inputs :=
    crop_output label_weights label_confidences multiclass_scores masks
      keypoints output
    ∧ length output
      = (3 + length (append_if TFloats label_weights
                     ++ append_if TFloats label_confidences
                     ++ append_if TScores multiclass_scores
                     ++ append_if TMasks masks
                     ++ append_if TKeypoints keypoints))%nat in
  (∀ min_object_covered aspect_ratio_range area_range overlap_thresh
     clip_boxes random_coef,
     random_crop_image image boxes labels label_weights label_confidences
       multiclass_scores masks keypoints min_object_covered
       aspect_ratio_range area_range overlap_thresh clip_boxes random_coef
       seed preprocess_vars_cache st = (Ok output, st') →
     follows_inputs)
  ∧ (∀ min_object_covered aspect_ratio_range area_range overlap_thresh
       clip_boxes random_coef,
       ssd_random_crop image boxes labels label_weights label_confidences
         multiclass_scores masks keypoints min_object_covered
         aspect_ratio_range area_range overlap_thresh clip_boxes random_coef
         seed preprocess_vars_cache st = (Ok output, st') →
       follows_inputs).
Proof.
  intros follows_inputs.
  split; intros moc ar area ot cb rc Hrun;
    (assert (crop_output label_weights label_confidences multiclass_scores
               masks keypoints output) as Hout;
     [|split; [done|by apply crop_output_length]]).
  - by eapply returns_random_crop_image.
  - by eapply returns_ssd_random_crop.
Qed.

Lemma crop_results_follow_inputs_witness :
  let image : Image := [[[F32.one]; [F32.zero]]; [[F32.half]; [F32.zero]]] in
  let boxes := [mkBox F32.zero F32.zero F32.half F32.half] in
  let output :=
    [TImage image; TBoxes boxes; TInts [1]; TFloats [F32.one]] in
  @random_crop_image sample_random_ops sample_geometry_ops
    image boxes [1] (Some [F32.one]) None None None None F64.one
    (F64.one, F64.one) (F64.one, F64.one) F64.zero true F64.one None None
    initial_state
  = (Ok output, mkState ∅ 2)
  ∧ length output = 4%nat.
Proof.
  intros image boxes output.
  assert (@random_crop_image sample_random_ops sample_geometry_ops
            image boxes [1] (Some [F32.one]) None None None None F64.one
            (F64.one, F64.one) (F64.one, F64.one) F64.zero true F64.one None
            None initial_state
          = (Ok output, mkState ∅ 2)) as Hrun by (vm_compute; reflexivity).
  split; [exact Hrun|].
  exact (proj2 (proj1 (@crop_results_follow_inputs
                         sample_random_ops sample_geometry_ops
                         _ _ _ _ _ _ _ _ _ _ _ _ _)
                  _ _ _ _ _ _ Hrun)).
Defined.

(** ** Sharing a cache *)

(** X9: the crop window is cached under min_object_covered alone.  Once a
    strict crop has read or drawn its window through a cache, every later
    strict crop through that cache with the same min_object_covered crops
    that window, whatever its image, its boxes, its aspect-ratio range and
    its area range are, and draws nothing. *)
Theorem strict_crop_window_shared `{RandomOps} `{GeometryOps}
    (image image' : Image) (boxes boxes' : list Box) (labels' : list Z)
    (label_weights' label_confidences' : option (list F32.t))
    (multiclass_scores' : option (list (list F32.t)))
    (masks' : option Masks) (keypoints' : option Keypoints)
    (min_object_covered : F64.t)
    (aspect_ratio_range area_range aspect_ratio_range' area_range'
       : F64.t * F64.t)
    (overlap_thresh' : F64.t) (clip_boxes' : bool)
    (cache : cache_ref) (crop : CropWindow) (st st1 st2 : State) :
  _get_or_create_preprocess_rand_vars
    (fun n =>
       RVCrop (sample_distorted_bounding_box
                 (image_shape image) (map clip_box boxes)
                 min_object_covered aspect_ratio_range area_range n))
    STRICT_CROP_IMAGE (Some cache) (float_key min_object_covered) st
  = (Ok (RVCrop crop), st1) →
  extends st1 st2 →
  _strict_random_crop_image image' boxes' labels' label_weights'
    label_confidences' multiclass_scores' masks' keypoints'
    min_object_covered aspect_ratio_range' area_range' overlap_thresh'
    clip_boxes' (Some cache) st2
  = crop_to_sampled_window image' boxes' labels' label_weights'
      label_confidences' multiclass_scores' masks' keypoints' overlap_thresh'
      clip_boxes' crop st2.
Proof.
  intros Haccess Hext.
  apply get_or_create_stored in Haccess.
  pose proof (lookup_weaken _ _ _ _ Haccess (Hext cache)) as Hstored.
  unfold _strict_random_crop_image. cbv zeta.
  by rewrite bind_run, get_or_create_run, Hstored.
Qed.

Lemma strict_crop_window_shared_witness :
  let image : Image := [[[F32.one]; [F32.zero]]; [[F32.half]; [F32.zero]]] in
  let image' : Image := [[[F32.zero]; [F32.one]]; [[F32.zero]; [F32.half]]] in
  let boxes := [mkBox F32.zero F32.zero F32.half F32.half] in
  let crop := mkCropWindow 0 0 2 2 unit_window in
  let st1 :=
    mkState (<[0%nat := <[(STRICT_CROP_IMAGE, float_key F64.one)
                          := RVCrop crop]>
                          (cache_of initial_state 0%nat)]>
               (caches initial_state)) 1 in
  @_strict_random_crop_image sample_random_ops sample_geometry_ops
    image' [] [] None None None None None F64.one (F64.zero, F64.one)
    (F64.zero, F64.one) F64.zero false (Some 0%nat) st1
  = @crop_to_sampled_window sample_geometry_ops
      image' [] [] None None None None None F64.zero false crop st1.
Proof.
  intros image image' boxes crop st1.
  apply (@strict_crop_window_shared sample_random_ops sample_geometry_ops
           image image' boxes [] [] None None None None None F64.one
           (F64.one, F64.one) (F64.one, F64.one) (F64.zero, F64.one)
           (F64.zero, F64.one) F64.zero false 0%nat crop initial_state st1
           st1).
  - rewrite get_or_create_run. reflexivity.
  - done.
Defined.

(** ** Selectors *)

(** Every case is built, and evaluated where the cases have all been built
    each returns what it returned when it was built. *)
Lemma mapM_build_replay {A : Type} (func : nat -> M A) (cases : list nat)
    (Q : A -> Prop) (st : State) :
  (∀ case, case ∈ cases → ensures (func case) Q) →
  (∀ case, replayable (func case)) →
  well_typed st →
  ∃ outputs st',
    mapM (fun case => build (func case)) cases st = (Ok outputs, st')
    ∧ well_typed st' ∧ extends st st'
    ∧ Forall2 (fun case output => func case st' = (output, st'))
              cases outputs.
Proof.
  revert st. induction cases as [|case cases IH]; intros st Hens Hrep Hty.
  - exists [], st. by repeat split.
  - destruct (func case st) as [res st1] eqn:Hrun.
    assert (case ∈ case :: cases) as Hin by (apply elem_of_cons; by left).
    destruct (Hens _ Hin _ _ _ Hty Hrun) as [Hty1 _].
    destruct (Hrep _ _ _ _ Hrun) as [Hext1 Hreplay].
    destruct (IH st1) as (outputs & st' & Hrest & Hty' & Hext' & Hall);
      [|done|done|].
    { intros c Hc. apply Hens. apply elem_of_cons. by right. }
    exists (res :: outputs), st'.
    split; [|split; [done|split; [by trans st1|]]].
    + simpl.
      rewrite (bind_run_Ok _ _ _ _ _
                 (build_run _ _ _ _ _ (Hens _ Hin) Hty Hrun)).
      by rewrite (bind_run_Ok _ _ _ _ _ Hrest).
    + constructor; [by apply Hreplay|done].
Qed.

Lemma lookup_seq_0 (n i : nat) : (i < n)%nat → seq 0 n !! i = Some i.
Proof. intros Hi. by rewrite lookup_seq_lt. Qed.

(** X10: ssd_random_crop returns the crop of the preset its selector names.
    With one preset per case, a cache holding what the operations stored and
    a selector [k] below the number of presets, the call returns what
    random_crop_image returns for the presets at index [k] when it is called
    on the cache that ssd_random_crop leaves, and that call draws nothing;
    the other presets only added entries to the cache. *)
Theorem ssd_random_crop_replays_selected_preset `{RandomOps} `{GeometryOps}
    (image : Image) (boxes : list Box) (labels : list Z)
    (label_weights label_confidences : option (list F32.t))
    (multiclass_scores : option (list (list F32.t)))
    (masks : option Masks) (keypoints : option Keypoints)
    (min_object_covered : list F64.t)
    (aspect_ratio_range area_range : list (F64.t * F64.t))
    (overlap_thresh : list F64.t) (clip_boxes : list bool)
    (random_coef : list F64.t) (seed : option Z) (cache : cache_ref)
    (k : nat) (min_object_covered_k : F64.t)
    (aspect_ratio_range_k area_range_k : F64.t * F64.t)
    (overlap_thresh_k : F64.t) (clip_boxes_k : bool) (random_coef_k : F64.t)
    (st st1 : State) :
  length aspect_ratio_range = length min_object_covered →
  length area_range = length min_object_covered →
  length overlap_thresh = length min_object_covered →
  length clip_boxes = length min_object_covered →
  length random_coef = length min_object_covered →
  min_object_covered !! k = Some min_object_covered_k →
  aspect_ratio_range !! k = Some aspect_ratio_range_k →
  area_range !! k = Some area_range_k →
  overlap_thresh !! k = Some overlap_thresh_k →
  clip_boxes !! k = Some clip_boxes_k →
  random_coef !! k = Some random_coef_k →
  well_typed st →
  _get_or_create_preprocess_rand_vars
    (fun n =>
       RVInt (random_uniform_int (Z.of_nat (length min_object_covered)) n))
    SELECTOR_TUPLES (Some cache) SSD_CROP_SELECTOR_ID st
  = (Ok (RVInt (Z.of_nat k)), st1) →
  ∃ output st',
    ssd_random_crop image boxes labels label_weights label_confidences
      multiclass_scores masks keypoints min_object_covered aspect_ratio_range
      area_range overlap_thresh clip_boxes random_coef seed (Some cache) st
    = (output, st')
    ∧ extends st1 st'
    ∧ random_crop_image image boxes labels label_weights label_confidences
        multiclass_scores masks keypoints min_object_covered_k
        aspect_ratio_range_k area_range_k overlap_thresh_k clip_boxes_k
        random_coef_k seed (Some cache) st'
      = (output, st').
Proof.
  intros Har Harea Hot Hcb Hrc Hmock Hark Hareak Hotk Hcbk Hrck Hty Hsel.
  destruct (ensures_get_or_create
              (fun n =>
                 RVInt (random_uniform_int
                          (Z.of_nat (length min_object_covered)) n))
              SELECTOR_TUPLES (Some cache) SSD_CROP_SELECTOR_ID
              (fun _ => eq_refl) _ _ _ Hty Hsel)
    as [Hty1 _].
  assert (k < length min_object_covered)%nat as Hk.
  { by apply lookup_lt_is_Some_1; eexists. }
  set (x := [TImage image; TBoxes boxes; TInts labels]
            ++ append_if TFloats label_weights
            ++ append_if TFloats label_confidences
            ++ append_if TScores multiclass_scores
            ++ append_if TMasks masks
            ++ append_if TKeypoints keypoints).
  set (func :=
         random_crop_selector label_weights label_confidences
           multiclass_scores masks keypoints min_object_covered
           aspect_ratio_range area_range overlap_thresh clip_boxes
           random_coef seed (Some cache) x).
  destruct (mapM_build_replay func (seq 0 (length min_object_covered))
              (fun _ => True) st1)
    as (outputs & st' & Hcases & _ & Hext & Hall); [| |done|].
  { intros case Hcase%elem_of_seq.
    apply ensures_random_crop_selector; [done..|lia]. }
  { intros case. apply replayable_random_crop_selector. }
  destruct (Forall2_lookup_l _ _ _ _ _ Hall (lookup_seq_0 _ _ Hk))
    as (output & Hlook & Hreplay).
  exists output, st'. split; [|split; [done|]].
  - unfold ssd_random_crop, _apply_with_random_selector_tuples.
    cbv zeta. rewrite (bind_run_Ok _ _ _ _ _ Hsel). simpl int_var.
    rewrite bind_mret. fold x. fold func.
    rewrite (bind_run_Ok _ _ _ _ _ Hcases).
    destruct (decide (0 <= Z.of_nat k)); [|lia].
    by rewrite Nat2Z.id, Hlook.
  - unfold func, x in Hreplay.
    by rewrite (random_crop_selector_item _ _ _ _ _ _ _ _ _ _ _ _ _ _ _ _ _
                  _ _ _ _ _ _ Hmock Hark Hareak Hotk Hcbk Hrck) in Hreplay.
Qed.

Lemma ssd_random_crop_replays_selected_preset_witness :
  let image : Image := [[[F32.one]; [F32.zero]]; [[F32.half]; [F32.zero]]] in
  let boxes := [mkBox F32.zero F32.zero F32.half F32.half] in
  let st :=
    mkState (<[0%nat := <[(SELECTOR_TUPLES, SSD_CROP_SELECTOR_ID) := RVInt 1]>
                          (cache_of initial_state 0%nat)]>
               (caches initial_state)) 0 in
  ∃ output st',
    @ssd_random_crop sample_random_ops sample_geometry_ops
      image boxes [1] None None None None None default_min_object_covered
      default_aspect_ratio_range default_area_range default_overlap_thresh
      default_clip_boxes default_random_coef None (Some 0%nat) st
    = (output, st')
    ∧ extends st st'
    ∧ @random_crop_image sample_random_ops sample_geometry_ops
        image boxes [1] None None None None None (f64_tenths 1)
        (F64.of_Z_exp 1 (-1), F64.of_Z_exp 2 0) (f64_tenths 1, F64.one)
        (f64_tenths 1) true
        (SFdiv F64.prec F64.emax (F64.of_Z_exp 15 0) (F64.of_Z_exp 100 0))
        None (Some 0%nat) st'
      = (output, st').
Proof.
  intros image boxes st.
  assert (well_typed st) as Hty.
  { by apply well_typed_update; [apply well_typed_initial_state|]. }
  assert (_get_or_create_preprocess_rand_vars
            (fun n =>
               RVInt (@random_uniform_int sample_random_ops
                        (Z.of_nat (length default_min_object_covered)) n))
            SELECTOR_TUPLES (Some 0%nat) SSD_CROP_SELECTOR_ID st
          = (Ok (RVInt (Z.of_nat 1)), st)) as Hsel.
  { rewrite get_or_create_run. vm_compute. reflexivity. }
  exact (@ssd_random_crop_replays_selected_preset
           sample_random_ops sample_geometry_ops
           image boxes [1] None None None None None
           default_min_object_covered default_aspect_ratio_range
           default_area_range default_overlap_thresh default_clip_boxes
           default_random_coef None 0%nat 1%nat (f64_tenths 1)
           (F64.of_Z_exp 1 (-1), F64.of_Z_exp 2 0) (f64_tenths 1, F64.one)
           (f64_tenths 1) true
           (SFdiv F64.prec F64.emax (F64.of_Z_exp 15 0) (F64.of_Z_exp 100 0))
           st st
           eq_refl eq_refl eq_refl eq_refl eq_refl
           eq_refl eq_refl eq_refl eq_refl eq_refl eq_refl
           Hty Hsel).
Defined.

(** X11: _apply_with_random_selector reads or draws its selector under
    (SELECTOR, key), builds every case, and returns the case the selector
    names.  When the Python code of the cases raises nothing and the cases
    only replay what they cached, a selector [k] below num_cases makes the
    call return what [func(x, k)] returns on the cache the call leaves, and
    the cases built after the selector was read only add entries to the
    caches. *)
Theorem apply_with_random_selector_cases `{RandomOps} {X : Type}
    (x : X) (func : X -> nat -> M Tensor) (num_cases : nat)
    (cache : cache_ref) (key : SubKey) (case : nat) (st st1 : State) :
  (∀ case, (case < num_cases)%nat → ensures (func x case) (fun _ => True)) →
  (∀ case, replayable (func x case)) →
  well_typed st →
  (case < num_cases)%nat →
  _get_or_create_preprocess_rand_vars
    (fun n => RVInt (random_uniform_int (Z.of_nat num_cases) n))
    SELECTOR (Some cache) key st
  = (Ok (RVInt (Z.of_nat case)), st1) →
  ∃ output st',
    _apply_with_random_selector x func num_cases (Some cache) key st
    = (output, st')
    ∧ extends st1 st'
    ∧ func x case st' = (output, st').
Proof.
  intros Hens Hrep Hty Hcase Hsel.
  destruct (ensures_get_or_create
              (fun n => RVInt (random_uniform_int (Z.of_nat num_cases) n))
              SELECTOR (Some cache) key (fun _ => eq_refl) _ _ _ Hty Hsel)
    as [Hty1 _].
  destruct (mapM_build_replay (func x) (seq 0 num_cases) (fun _ => True) st1)
    as (outputs & st' & Hcases & _ & Hext & Hall); [|done|done|].
  { intros c Hc%elem_of_seq. apply Hens. lia. }
  destruct (Forall2_lookup_l _ _ _ _ _ Hall (lookup_seq_0 _ _ Hcase))
    as (output & Hlook & Hreplay).
  exists output, st'. split; [|done].
  unfold _apply_with_random_selector. cbv zeta.
  rewrite (bind_run_Ok _ _ _ _ _ Hsel). simpl int_var.
  rewrite bind_mret, (bind_run_Ok _ _ _ _ _ Hcases).
  destruct (decide (0 <= Z.of_nat case)); [|lia].
  by rewrite Nat2Z.id, Hlook.
Qed.

Lemma apply_with_random_selector_cases_witness :
  let func (x : Z) (case : nat) : M Tensor := mret (TInts [x; Z.of_nat case]) in
  let st :=
    mkState (<[0%nat := <[(SELECTOR, KStr "resize_method") := RVInt 2]>
                          (cache_of initial_state 0%nat)]>
               (caches initial_state)) 0 in
  ∃ output st',
    @_apply_with_random_selector sample_random_ops Z 7 func 4 (Some 0%nat)
      (KStr "resize_method") st
    = (output, st')
    ∧ extends st st'
    ∧ func 7 2%nat st' = (output, st').
Proof.
  intros func st.
  assert (well_typed st) as Hty.
  { by apply well_typed_update; [apply well_typed_initial_state|]. }
  assert (_get_or_create_preprocess_rand_vars
            (fun n =>
               RVInt (@random_uniform_int sample_random_ops (Z.of_nat 4) n))
            SELECTOR (Some 0%nat) (KStr "resize_method") st
          = (Ok (RVInt (Z.of_nat 2)), st)) as Hsel.
  { rewrite get_or_create_run. vm_compute. reflexivity. }
  assert (2 < 4)%nat as Hcase by lia.
  exact (@apply_with_random_selector_cases sample_random_ops Z 7 func 4
           0%nat (KStr "resize_method") 2%nat st st
           (fun case _ => ensures_mret _ (fun _ => True) I)
           (fun case => replayable_mret _) Hty Hcase Hsel).
Defined.

(** ** The orchestrator *)

(** Storing results under field names the record holds keeps the fields of
    the record and leaves the other entries as they are. *)
Lemma foldl_insert_zip (tensor_dict : TensorDict) (results : list Tensor)
    (arg_names : list string) :
  Forall (fun a => is_Some (tensor_dict !! a)) arg_names →
  let tensor_dict' :=
    foldl (fun td (p : Tensor * string) => <[p.2 := p.1]> td)
          tensor_dict (zip results arg_names) in
  dom tensor_dict' = dom tensor_dict
  ∧ ∀ field, field ∉ arg_names →
             tensor_dict' !! field = tensor_dict !! field.
Proof.
  revert tensor_dict results.
  induction arg_names as [|a arg_names IH]; intros tensor_dict results Hin.
  - by rewrite zip_with_nil_r.
  - destruct results as [|res results]; [done|]. simpl.
    apply Forall_cons in Hin as [Ha Hin].
    destruct (IH (<[a := res]> tensor_dict) results) as [Hdom Hframe].
    { eapply Forall_impl; [done|]. intros x Hx. simpl.
      apply lookup_insert_is_Some'. by right. }
    split.
    + rewrite Hdom. by apply dom_insert_lookup_L.
    + intros field Hfield. apply not_elem_of_cons in Hfield as [Hne Hfield].
      rewrite Hframe by done. by apply lookup_insert_ne.
Qed.

(** One option whose function returns: the function is in the map, every
    field it names was in the record, the record keeps its fields, and only
    the fields the map names for the function can have changed. *)
Lemma preprocess_option_returns (func_arg_map : FuncArgMap)
    (preprocess_vars_cache : option cache_ref) (tensor_dict : TensorDict)
    (func : PreprocessFn) (st st' : State) (tensor_dict' : TensorDict) :
  preprocess_option func_arg_map preprocess_vars_cache tensor_dict func st
  = (Ok tensor_dict', st') →
  ∃ arg_names,
    func_arg_map !! fn_name func = Some arg_names
    ∧ Forall (fun a => is_Some (tensor_dict !! a)) (omap id arg_names)
    ∧ dom tensor_dict' = dom tensor_dict
    ∧ ∀ field, Some field ∉ arg_names →
               tensor_dict' !! field = tensor_dict !! field.
Proof.
  unfold preprocess_option.
  destruct (func_arg_map !! fn_name func) as [arg_names|]; [|done].
  rewrite bind_expect_Some.
  destruct (list_find _ (omap id arg_names)) as [[i a]|] eqn:Hfind; [done|].
  rewrite bind_mret. cbv zeta. rewrite bind_run.
  destruct (fn_call func _ _ st) as [[results|e] st1]; [|done].
  intros [= <- <-]. exists arg_names. split; [done|].
  apply list_find_None in Hfind.
  assert (Forall (fun a => is_Some (tensor_dict !! a)) (omap id arg_names))
    as Hin.
  { eapply Forall_impl; [done|]. intros a Ha. simpl in Ha.
    by destruct (tensor_dict !! a); [eexists|]. }
  split; [done|].
  destruct (foldl_insert_zip tensor_dict results (omap id arg_names) Hin)
    as [Hdom Hframe].
  split; [done|]. intros field Hfield. apply Hframe.
  intros Hin'. apply Hfield. apply list_elem_of_omap in Hin' as (o & Ho & Hid).
  by destruct o; simplify_eq/=.
Qed.

Lemma for_each_preprocess_option_returns (func_arg_map : FuncArgMap)
    (preprocess_vars_cache : option cache_ref)
    (preprocess_options : list PreprocessFn)
    (tensor_dict tensor_dict' : TensorDict) (st st' : State) :
  for_each (preprocess_option func_arg_map preprocess_vars_cache)
           tensor_dict preprocess_options st = (Ok tensor_dict', st') →
  dom tensor_dict' = dom tensor_dict
  ∧ ∀ field,
      (∀ func arg_names,
         func ∈ preprocess_options →
         func_arg_map !! fn_name func = Some arg_names →
         Some field ∉ arg_names) →
      tensor_dict' !! field = tensor_dict !! field.
Proof.
  revert tensor_dict st.
  induction preprocess_options as [|func options IH];
    intros tensor_dict st; simpl.
  - by intros [= <- <-].
  - rewrite bind_run.
    destruct (preprocess_option _ _ tensor_dict func st)
      as [[tensor_dict1|e] st1] eqn:Hfirst; [|done].
    intros Hrest. apply IH in Hrest as [Hdom Hframe].
    apply preprocess_option_returns in Hfirst
      as (arg_names & Hmap & _ & Hdom1 & Hframe1).
    split; [by rewrite Hdom|].
    intros field Hfield. rewrite Hframe.
    + apply Hframe1. apply (Hfield func); [|done]. apply elem_of_cons.
      by left.
    + intros func' arg_names' Hin. apply Hfield. apply elem_of_cons.
      by right.
Qed.

(** A call of preprocess that returns has removed the batch axis of the
    image, run the options and added the batch axis again; the first and the
    last step keep the fields and change the image only. *)
Lemma preprocess_steps (tensor_dict tensor_dict' : TensorDict)
    (preprocess_options : list PreprocessFn)
    (func_arg_map : option FuncArgMap)
    (preprocess_vars_cache : option cache_ref) (st st' : State) :
  preprocess tensor_dict preprocess_options func_arg_map
    preprocess_vars_cache st = (Ok tensor_dict', st') →
  ∃ tensor_dict0 st0 tensor_dict1,
    (dom tensor_dict0 = dom tensor_dict
     ∧ ∀ field, field ≠ InputDataFields.image →
                tensor_dict0 !! field = tensor_dict !! field)
    ∧ for_each
        (preprocess_option
           (default (get_default_func_arg_map true false false false false)
                    func_arg_map)
           preprocess_vars_cache)
        tensor_dict0 preprocess_options st0 = (Ok tensor_dict1, st')
    ∧ dom tensor_dict' = dom tensor_dict1
    ∧ ∀ field, field ≠ InputDataFields.image →
               tensor_dict' !! field = tensor_dict1 !! field.
Proof.
  unfold preprocess. cbv zeta.
  set (map := match func_arg_map with
              | Some func_arg_map => func_arg_map
              | None => get_default_func_arg_map true false false false false
              end).
  assert (default (get_default_func_arg_map true false false false false)
                  func_arg_map = map) as -> by (by destruct func_arg_map).
  rewrite bind_run.
  set (squeezed := match tensor_dict !! InputDataFields.image with
                   | Some images => _
                   | None => _
                   end).
  destruct (squeezed st) as [[tensor_dict0|e] st0] eqn:Hsqueeze; [|done].
  rewrite bind_run.
  destruct (for_each _ tensor_dict0 preprocess_options st0)
    as [[tensor_dict1|e] st1] eqn:Hloop; [|done].
  intros [= <- <-]. exists tensor_dict0, st0, tensor_dict1.
  split; [|split; [done|]].
  - unfold squeezed in Hsqueeze.
    destruct (tensor_dict !! InputDataFields.image) as [images|] eqn:Himage.
    + destruct (bool_decide (rank images ≠ 4%nat)); [done|].
      destruct (squeeze0 images) as [image|]; [|done].
      rewrite bind_expect_Some in Hsqueeze. injection Hsqueeze as <- <-.
      split; [by apply dom_insert_lookup_L; eexists|].
      intros field Hfield. by apply lookup_insert_ne.
    + by injection Hsqueeze as <- <-.
  - destruct (tensor_dict1 !! InputDataFields.image) as [image|] eqn:Himage;
      [|done].
    split; [by apply dom_insert_lookup_L; eexists|].
    intros field Hfield. by apply lookup_insert_ne.
Qed.

(** X12: preprocess keeps the fields of the record.  When preprocess
    returns, the record it returns has exactly the fields of the record it
    was given, whatever the functions of the option list return; and a field
    other than the image that the argument map names for none of these
    functions holds the tensor it held. *)
Theorem preprocess_keeps_fields (tensor_dict tensor_dict' : TensorDict)
    (preprocess_options : list PreprocessFn)
    (func_arg_map : option FuncArgMap)
    (preprocess_vars_cache : option cache_ref) (st st' : State) :
  preprocess tensor_dict preprocess_options func_arg_map
    preprocess_vars_cache st = (Ok tensor_dict', st') →
  dom tensor_dict' = dom tensor_dict
  ∧ ∀ field,
      field ≠ InputDataFields.image →
      (∀ func arg_names,
         func ∈ preprocess_options →
         default (get_default_func_arg_map true false false false false)
                 func_arg_map !! fn_name func = Some arg_names →
         Some field ∉ arg_names) →
      tensor_dict' !! field = tensor_dict !! field.
Proof.
  intros Hrun.
  apply preprocess_steps in Hrun
    as (tensor_dict0 & st0 & tensor_dict1 & [Hdom0 Hframe0] & Hloop & Hdom1
        & Hframe1).
  apply for_each_preprocess_option_returns in Hloop as [Hdom Hframe].
  split.
  - by rewrite Hdom1, Hdom, Hdom0.
  - intros field Hfield Hnames.
    rewrite Hframe1 by done. rewrite Hframe by done. by apply Hframe0.
Qed.

Lemma default_func_arg_map_names (name : string)
    (arg_names : list (option string)) :
  get_default_func_arg_map true false false false false !! name
  = Some arg_names →
  Forall (fun a => a ∈ None :: (Some <$> default_map_fields)) arg_names.
Proof.
  unfold get_default_func_arg_map. cbv zeta. intros Hin.
  apply elem_of_list_to_map_2 in Hin.
  match type of Hin with
  | _ ∈ ?l =>
      assert (Forall (fun p : string * list (option string) =>
                        Forall (fun a => a ∈ None
                                           :: (Some <$> default_map_fields))
                               p.2) l) as Hall
  end.
  { apply (bool_decide_unpack _). by vm_compute. }
  by apply (proj1 (Forall_forall _ _) Hall _ Hin).
Qed.

(** X13: with the default argument map, preprocess never touches the masks,
    the keypoints, the confidences or the class scores.  When
    [func_arg_map] is None, every field of the record other than the image,
    the boxes, the classes, the weights and the image classes comes back as
    it was given, whatever the option list is: the flips and crops of the
    list are applied to the image and the boxes only. *)
Theorem preprocess_default_map_leaves_masks
    (tensor_dict tensor_dict' : TensorDict)
    (preprocess_options : list PreprocessFn)
    (preprocess_vars_cache : option cache_ref) (st st' : State) :
  preprocess tensor_dict preprocess_options None preprocess_vars_cache st
  = (Ok tensor_dict', st') →
  (∀ field, field ∉ default_map_fields →
            tensor_dict' !! field = tensor_dict !! field)
  ∧ tensor_dict' !! InputDataFields.groundtruth_instance_masks
    = tensor_dict !! InputDataFields.groundtruth_instance_masks
  ∧ tensor_dict' !! InputDataFields.groundtruth_keypoints
    = tensor_dict !! InputDataFields.groundtruth_keypoints
  ∧ tensor_dict' !! InputDataFields.groundtruth_confidences
    = tensor_dict !! InputDataFields.groundtruth_confidences
  ∧ tensor_dict' !! InputDataFields.multiclass_scores
    = tensor_dict !! InputDataFields.multiclass_scores.
Proof.
  intros Hrun.
  assert (∀ field, field ∉ default_map_fields →
                   tensor_dict' !! field = tensor_dict !! field) as Hframe.
  { intros field Hfield.
    assert (field ≠ InputDataFields.image) as Hne.
    { intros ->. apply Hfield. by left. }
    apply preprocess_steps in Hrun
      as (tensor_dict0 & st0 & tensor_dict1 & [_ Hframe0] & Hloop & _
          & Hframe1).
    apply for_each_preprocess_option_returns in Hloop as [_ Hframe].
    rewrite Hframe1 by done. rewrite Hframe; [by apply Hframe0|].
    intros func arg_names _ Hmap Hin. simpl in Hmap.
    apply default_func_arg_map_names in Hmap.
    apply (proj1 (Forall_forall _ _) Hmap) in Hin.
    apply elem_of_cons in Hin as [[=]|Hin].
    apply list_elem_of_fmap in Hin as (field' & [= <-] & Hin).
    done. }
  split; [done|].
  repeat split; apply Hframe; apply (bool_decide_unpack _); by vm_compute.
Qed.

Lemma preprocess_keeps_fields_witness :
  let masks := TMasks [[[F32.one; F32.zero]]] in
  let tensor_dict : TensorDict :=
    {[ InputDataFields.image := TImages [[[[F32.one]; [F32.zero]]]];
       InputDataFields.groundtruth_boxes :=
         TBoxes [mkBox F32.zero F32.zero F32.half F32.half];
       InputDataFields.groundtruth_instance_masks := masks ]} in
  let tensor_dict' : TensorDict :=
    {[ InputDataFields.image := TImages [[[[F32.zero]; [F32.one]]]];
       InputDataFields.groundtruth_boxes :=
         TBoxes [mkBox F32.zero F32.half F32.half F32.one];
       InputDataFields.groundtruth_instance_masks := masks ]} in
  preprocess tensor_dict
    [@fn_random_horizontal_flip sample_random_ops sample_geometry_ops
       None None]
    None None initial_state
  = (Ok tensor_dict', mkState ∅ 1)
  ∧ dom tensor_dict' = dom tensor_dict.
Proof.
  intros masks tensor_dict tensor_dict'.
  assert (preprocess tensor_dict
            [@fn_random_horizontal_flip sample_random_ops sample_geometry_ops
               None None]
            None None initial_state
          = (Ok tensor_dict', mkState ∅ 1)) as Hrun
    by (vm_compute; reflexivity).
  split; [exact Hrun|].
  exact (proj1 (preprocess_keeps_fields _ _ _ _ _ _ _ Hrun)).
Defined.

Lemma preprocess_default_map_leaves_masks_witness :
  let masks := TMasks [[[F32.one; F32.zero]]] in
  let tensor_dict : TensorDict :=
    {[ InputDataFields.image := TImages [[[[F32.one]; [F32.zero]]]];
       InputDataFields.groundtruth_boxes :=
         TBoxes [mkBox F32.zero F32.zero F32.half F32.half];
       InputDataFields.groundtruth_instance_masks := masks ]} in
  let tensor_dict' : TensorDict :=
    {[ InputDataFields.image := TImages [[[[F32.zero]; [F32.one]]]];
       InputDataFields.groundtruth_boxes :=
         TBoxes [mkBox F32.zero F32.half F32.half F32.one];
       InputDataFields.groundtruth_instance_masks := masks ]} in
  preprocess tensor_dict
    [@fn_random_horizontal_flip sample_random_ops sample_geometry_ops
       None None]
    None None initial_state
  = (Ok tensor_dict', mkState ∅ 1)
  ∧ tensor_dict' !! InputDataFields.groundtruth_instance_masks
    = tensor_dict !! InputDataFields.groundtruth_instance_masks.
Proof.
  intros masks tensor_dict tensor_dict'.
  assert (preprocess tensor_dict
            [@fn_random_horizontal_flip sample_random_ops sample_geometry_ops
               None None]
            None None initial_state
          = (Ok tensor_dict', mkState ∅ 1)) as Hrun
    by (vm_compute; reflexivity).
  split; [exact Hrun|].
  exact (proj1 (proj2 (preprocess_default_map_leaves_masks _ _ _ _ _ _
                         Hrun))).
Defined.

Lemma squeeze0_expand_dims0 (t : Tensor) : squeeze0 (expand_dims0 t) = Some t.
Proof. by destruct t. Qed.

Lemma for_each_app {A B : Type} (body : A -> B -> M A) (acc : A)
    (xs ys : list B) (st : State) :
  for_each body acc (xs ++ ys) st
  = (acc' ← for_each body acc xs; for_each body acc' ys) st.
Proof.
  revert acc st. induction xs as [|x xs IH]; intros acc st; simpl.
  - by rewrite bind_mret.
  - rewrite bind_assoc_run, !bind_run.
    destruct (body acc x st) as [[acc1|e] st1]; [|done]. apply IH.
Qed.

(** X14: preprocess with no option gives the record back.  When the record
    has no image, or its image is a batch of one image, preprocess with an
    empty option list returns the record as it was given and leaves the state
    as it is: removing the batch axis and adding it again is the identity. *)
Theorem preprocess_without_options (tensor_dict : TensorDict)
    (func_arg_map : option FuncArgMap)
    (preprocess_vars_cache : option cache_ref) (st : State) :
  tensor_dict !! InputDataFields.image = None
  ∨ (∃ image, tensor_dict !! InputDataFields.image = Some (TImages [image])) →
  preprocess tensor_dict [] func_arg_map preprocess_vars_cache st
  = (Ok tensor_dict, st).
Proof.
  intros [Hnone|[image Himage]]; unfold preprocess; cbv zeta.
  - rewrite Hnone, bind_mret. simpl for_each. rewrite bind_mret.
    by rewrite Hnone.
  - rewrite Himage. simpl. rewrite bind_assoc_run, !bind_mret.
    rewrite lookup_insert_eq. simpl.
    by rewrite insert_insert_eq, insert_id.
Qed.

Lemma preprocess_without_options_witness :
  let tensor_dict : TensorDict :=
    {[ InputDataFields.image := TImages [[[[F32.one]; [F32.zero]]]] ]} in
  preprocess tensor_dict [] None None initial_state
  = (Ok tensor_dict, initial_state).
Proof.
  intros tensor_dict. apply preprocess_without_options. right.
  eexists. vm_compute. reflexivity.
Defined.

(** X15: splitting the option list.  When preprocess returns for a first
    list of options and the image it returns has rank 4, running preprocess
    on its result with a second list, from the state it left, is running
    preprocess once with the two lists in a row: the batch axis added at the
    end of the first call is the one removed at the start of the second. *)
Theorem preprocess_app (tensor_dict tensor_dict1 : TensorDict)
    (preprocess_options1 preprocess_options2 : list PreprocessFn)
    (func_arg_map : option FuncArgMap)
    (preprocess_vars_cache : option cache_ref) (st st1 : State) :
  preprocess tensor_dict preprocess_options1 func_arg_map
    preprocess_vars_cache st = (Ok tensor_dict1, st1) →
  (∀ images, tensor_dict1 !! InputDataFields.image = Some images →
             rank images = 4%nat) →
  preprocess tensor_dict (preprocess_options1 ++ preprocess_options2)
    func_arg_map preprocess_vars_cache st
  = preprocess tensor_dict1 preprocess_options2 func_arg_map
      preprocess_vars_cache st1.
Proof.
  unfold preprocess. cbv zeta.
  set (map := match func_arg_map with
              | Some func_arg_map => func_arg_map
              | None => get_default_func_arg_map true false false false false
              end).
  set (squeeze := fun tensor_dict : TensorDict =>
         match tensor_dict !! InputDataFields.image with
         | Some images =>
             if bool_decide (rank images ≠ 4%nat) then
               raise (ValueError "images in tensor_dict should be rank 4")
             else
               image ← expect InvalidArgumentError (squeeze0 images);
               mret (<[InputDataFields.image := image]> tensor_dict)
         | None => mret tensor_dict
         end).
  change (match tensor_dict !! InputDataFields.image with
          | Some images => _
          | None => _
          end) with (squeeze tensor_dict).
  change (match tensor_dict1 !! InputDataFields.image with
          | Some images => _
          | None => _
          end) with (squeeze tensor_dict1).
  rewrite !(bind_run (squeeze tensor_dict)).
  destruct (squeeze tensor_dict st) as [[tensor_dict0|e] st0]; [|done].
  rewrite !(bind_run (for_each _ tensor_dict0 _)), for_each_app, bind_run.
  destruct (for_each _ tensor_dict0 preprocess_options1 st0)
    as [[tensor_dict_mid|e] st_mid]; [|done].
  intros [= <- <-] Hrank.
  assert (squeeze
            match tensor_dict_mid !! InputDataFields.image with
            | Some image =>
                <[InputDataFields.image := expand_dims0 image]>
                  tensor_dict_mid
            | None => tensor_dict_mid
            end st_mid = (Ok tensor_dict_mid, st_mid)) as Hsqueeze.
  { unfold squeeze.
    destruct (tensor_dict_mid !! InputDataFields.image) as [image|]
      eqn:Himage.
    - rewrite lookup_insert_eq.
      specialize (Hrank (expand_dims0 image)).
      rewrite lookup_insert_eq in Hrank.
      rewrite bool_decide_eq_false_2 by (intros Hne; by apply Hne, Hrank).
      rewrite squeeze0_expand_dims0, bind_expect_Some.
      by rewrite insert_insert_eq, insert_id.
    - by rewrite Himage. }
  by rewrite (bind_run_Ok _ _ _ _ _ Hsqueeze).
Qed.

Lemma preprocess_app_witness :
  let flip_h :=
    @fn_random_horizontal_flip sample_random_ops sample_geometry_ops
      None None in
  let flip_v :=
    @fn_random_vertical_flip sample_random_ops sample_geometry_ops
      None None in
  let tensor_dict : TensorDict :=
    {[ InputDataFields.image := TImages [[[[F32.one]; [F32.zero]]]];
       InputDataFields.groundtruth_boxes :=
         TBoxes [mkBox F32.zero F32.zero F32.half F32.half] ]} in
  let tensor_dict1 : TensorDict :=
    {[ InputDataFields.image := TImages [[[[F32.zero]; [F32.one]]]];
       InputDataFields.groundtruth_boxes :=
         TBoxes [mkBox F32.zero F32.half F32.half F32.one] ]} in
  preprocess tensor_dict [flip_h; flip_v] None None initial_state
  = preprocess tensor_dict1 [flip_v] None None (mkState ∅ 1).
Proof.
  intros flip_h flip_v tensor_dict tensor_dict1.
  apply (preprocess_app tensor_dict tensor_dict1 [flip_h] [flip_v] None None
           initial_state (mkState ∅ 1)).
  - vm_compute. reflexivity.
  - intros images Himages. vm_compute in Himages.
    by injection Himages as <-.
Defined.

(** X16: an option that preprocess cannot call.  On a record whose image is
    absent or a batch of one image, an option whose function is not in the
    argument map makes preprocess raise ValueError "... does not exist in
    func_arg_map", and an option whose function is mapped to a field that the
    record lacks makes it raise ValueError "... requires argument" with the
    name of such a field; in both cases the function is not called, the
    options after it are not run and the state is as it was. *)
Theorem preprocess_rejects_option (tensor_dict : TensorDict)
    (func : PreprocessFn) (preprocess_options : list PreprocessFn)
    (func_arg_map : FuncArgMap)
    (preprocess_vars_cache : option cache_ref) (st : State) :
  tensor_dict !! InputDataFields.image = None
  ∨ (∃ image, tensor_dict !! InputDataFields.image = Some (TImages [image])) →
  (func_arg_map !! fn_name func = None →
   preprocess tensor_dict (func :: preprocess_options) (Some func_arg_map)
     preprocess_vars_cache st
   = (Raise (ValueError ("The function " +:+ fn_name func
                         +:+ " does not exist in func_arg_map")), st))
  ∧ (∀ arg_names a,
       func_arg_map !! fn_name func = Some arg_names →
       Some a ∈ arg_names → tensor_dict !! a = None →
       ∃ a',
         Some a' ∈ arg_names ∧ tensor_dict !! a' = None
         ∧ preprocess tensor_dict (func :: preprocess_options)
             (Some func_arg_map) preprocess_vars_cache st
           = (Raise (ValueError ("The function " +:+ fn_name func
                                 +:+ " requires argument " +:+ a')), st)).
Proof.
  intros Himage.
  assert (∃ tensor_dict0,
            (∀ a, tensor_dict0 !! a = None ↔ tensor_dict !! a = None)
            ∧ ∀ res,
                preprocess_option func_arg_map preprocess_vars_cache
                  tensor_dict0 func st = (Raise res, st) →
                preprocess tensor_dict (func :: preprocess_options)
                  (Some func_arg_map) preprocess_vars_cache st
                = (Raise res, st)) as (tensor_dict0 & Hsame & Hrun).
  { destruct Himage as [Hnone|[image Himage]].
    - exists tensor_dict. split; [done|]. intros res Hopt.
      unfold preprocess. cbv zeta. rewrite Hnone, bind_mret.
      simpl for_each. by rewrite bind_assoc_run, bind_run, Hopt.
    - exists (<[InputDataFields.image := TImage image]> tensor_dict).
      split.
      + intros a. destruct (decide (a = InputDataFields.image)) as [->|Hne].
        * by rewrite lookup_insert_eq, Himage.
        * by rewrite lookup_insert_ne.
      + intros res Hopt. unfold preprocess. cbv zeta. rewrite Himage.
        simpl. rewrite bind_assoc_run, !bind_mret.
        simpl for_each. by rewrite bind_assoc_run, bind_run, Hopt. }
  split.
  - intros Hmap. apply Hrun. unfold preprocess_option. by rewrite Hmap.
  - intros arg_names a Hmap Hin Ha.
    destruct (list_find (fun a : string => tensor_dict0 !! a = None)
                (omap id arg_names)) as [[i a']|] eqn:Hfind.
    + apply list_find_Some in Hfind as H'.
      destruct H' as (Hlook & Hmissing & _).
      exists a'. split; [|split; [by apply Hsame|]].
      * apply list_elem_of_lookup_2, list_elem_of_omap in Hlook
          as (o & Ho & Hid).
        by destruct o; simplify_eq/=.
      * apply Hrun. unfold preprocess_option.
        by rewrite Hmap, bind_expect_Some, Hfind.
    + apply list_find_None in Hfind.
      assert (a ∈ omap id arg_names) as Hin'.
      { apply list_elem_of_omap. by exists (Some a). }
      apply (proj1 (Forall_forall _ _) Hfind) in Hin'.
      destruct Hin'. by apply Hsame.
Qed.

Lemma preprocess_rejects_option_witness :
  let tensor_dict : TensorDict :=
    {[ InputDataFields.image := TImages [[[[F32.one]; [F32.zero]]]] ]} in
  let func :=
    @fn_random_jitter_boxes sample_random_ops (F64.of_Z_exp 1 (-4)) None in
  ∃ a',
    Some a' ∈ [Some InputDataFields.groundtruth_boxes]
    ∧ tensor_dict !! a' = None
    ∧ preprocess tensor_dict [func]
        (Some (get_default_func_arg_map true false false false false))
        None initial_state
      = (Raise (ValueError ("The function " +:+ fn_name func
                            +:+ " requires argument " +:+ a')),
         initial_state).
Proof.
  intros tensor_dict func.
  apply (proj2 (preprocess_rejects_option tensor_dict func []
                  (get_default_func_arg_map true false false false false)
                  None initial_state
                  (or_intror (ex_intro _ [[[F32.one]; [F32.zero]]] eq_refl)))
           [Some InputDataFields.groundtruth_boxes]
           InputDataFields.groundtruth_boxes).
  - vm_compute. reflexivity.
  - apply elem_of_cons. by left.
  - vm_compute. reflexivity.
Defined.

(** ** The argument map *)

Lemma list_to_map_Forall2 {A B : Type} (R : A -> B -> Prop)
    (l1 : list (string * A)) (l2 : list (string * B)) (name : string) :
  Forall2 (fun p q => p.1 = q.1 ∧ R p.2 q.2) l1 l2 →
  option_Forall2 R ((list_to_map l1 : gmap string A) !! name)
                   ((list_to_map l2 : gmap string B) !! name).
Proof.
  induction 1 as [|[k1 a] [k2 b] l1 l2 [Hk HR] _ IH]; simpl.
  - rewrite !lookup_empty. constructor.
  - simpl in Hk. subst k2.
    destruct (decide (k1 = name)) as [->|Hne].
    + rewrite !lookup_insert_eq. by constructor.
    + by rewrite !lookup_insert_ne.
Qed.

(** X17: the flags of get_default_func_arg_map only blank arguments out.
    For every setting of the five include flags the map has the same
    functions as the map with every flag set, and the argument list of each
    function has the same length and, position by position, either the same
    field or None: switching a flag off never removes or moves an
    argument. *)
Theorem get_default_func_arg_map_flags
    (include_label_weights include_label_confidences
     include_multiclass_scores include_instance_masks include_keypoints : bool)
    (name : string) :
  option_Forall2
    (Forall2 (fun a b : option string => a = None ∨ a = b))
    (get_default_func_arg_map include_label_weights include_label_confidences
       include_multiclass_scores include_instance_masks include_keypoints
     !! name)
    (get_default_func_arg_map true true true true true !! name).
Proof.
  unfold get_default_func_arg_map. cbv zeta.
  apply list_to_map_Forall2.
  destruct include_label_weights, include_label_confidences,
    include_multiclass_scores, include_instance_masks, include_keypoints;
    apply (bool_decide_unpack _); by vm_compute.
Qed.

(** ** one_hot_encoding *)

Lemma tf_reduce_max_0_length (depth : nat) (t : list (list Z)) :
  Forall (fun row => length row = depth) t →
  length (tf_reduce_max_0 depth t) = depth.
Proof.
  unfold tf_reduce_max_0. induction 1 as [|row t Hrow _ IH]; simpl.
  - apply length_replicate.
  - rewrite length_zip_with, IH, Hrow. lia.
Qed.

Lemma one_hot_column (labels : list Z) (num_classes c : nat) :
  (c < num_classes)%nat →
  tf_reduce_max_0 num_classes (tf_one_hot labels num_classes 1 0) !! c
  = Some (foldr (fun label acc =>
                   Z.max (if decide (label = Z.of_nat c) then 1 else 0) acc)
                int32_lowest labels).
Proof.
  intros Hc. unfold tf_reduce_max_0, tf_one_hot.
  induction labels as [|label labels IH]; simpl.
  - by apply lookup_replicate_2.
  - rewrite lookup_zip_with, IH, list_lookup_fmap, lookup_seq_lt by done.
    done.
Qed.

(** X18: one_hot_encoding marks the classes that occur.  Without
    num_classes it raises ValueError.  With num_classes it returns a vector
    of that length; for a non-empty list of labels the entry of class [c] is
    1 when [c] is among the labels and 0 otherwise, however often a label is
    repeated, and labels outside [0, num_classes) mark nothing; for an empty
    list of labels every entry is the lowest int32, the maximum over no
    row. *)
Theorem one_hot_encoding_marks_classes (labels : list Z) (num_classes : nat)
    (st : State) :
  one_hot_encoding labels None st
  = (Raise (ValueError "num_classes must be specified"), st)
  ∧ ∃ encoded,
      one_hot_encoding labels (Some num_classes) st = (Ok (TInts encoded), st)
      ∧ length encoded = num_classes
      ∧ ∀ c, (c < num_classes)%nat →
             encoded !! c
             = Some (if decide (labels = []) then int32_lowest
                     else if decide (Z.of_nat c ∈ labels) then 1 else 0).
Proof.
  split; [done|]. eexists. split; [done|]. split.
  - apply tf_reduce_max_0_length, Forall_fmap, Forall_forall.
    intros label _. simpl. by rewrite length_map, length_seq.
  - intros c Hc. rewrite one_hot_column by done. f_equal.
    induction labels as [|label labels IH]; simpl; [done|].
    destruct (decide (label :: labels = [])) as [|_]; [done|].
    rewrite IH. destruct (decide (labels = [])) as [->|Hne].
    + destruct (decide (label = Z.of_nat c)) as [->|Hl].
      * rewrite decide_True by (apply elem_of_cons; by left). done.
      * rewrite decide_False; [done|].
        intros [?|Hin%elem_of_nil]%elem_of_cons; [|done]. by apply Hl.
    + destruct (decide (label = Z.of_nat c)) as [->|Hl].
      * rewrite (decide_True (P := _ ∈ _ :: _))
          by (apply elem_of_cons; by left).
        by destruct (decide (Z.of_nat c ∈ labels)).
      * destruct (decide (Z.of_nat c ∈ labels)) as [Hin|Hout].
        -- rewrite decide_True by (apply elem_of_cons; by right). done.
        -- rewrite decide_False; [done|].
           intros [?|?]%elem_of_cons; [by apply Hl|done].
Qed.

Lemma one_hot_encoding_marks_classes_witness :
  ∃ encoded,
    one_hot_encoding [1; 4; 7] (Some 5%nat) initial_state
    = (Ok (TInts encoded), initial_state)
    ∧ encoded !! 1%nat = Some 1
    ∧ encoded !! 2%nat = Some 0.
Proof.
  destruct (one_hot_encoding_marks_classes [1; 4; 7] 5 initial_state)
    as (_ & encoded & Hrun & _ & Hcolumn).
  exists encoded. split; [exact Hrun|].
  split; [apply (Hcolumn 1%nat)|apply (Hcolumn 2%nat)]; lia.
Defined.

(** ** Retaining twice *)

Lemma tf_where_all_true (n : nat) (mask : list bool) :
  Forall (fun b => b = true) mask →
  where_from n mask = seq n (length mask).
Proof.
  intros Hall. revert n. induction Hall as [|b mask -> _ IH]; intros n;
    simpl; [done|].
  by rewrite IH.
Qed.

Lemma tf_gather_seq_from {A : Type} (before rows : list A) :
  tf_gather (before ++ rows) (seq (length before) (length rows)) = Some rows.
Proof.
  unfold tf_gather. apply mapM_Some. revert before.
  induction rows as [|row rows IH]; intros before; simpl; [constructor|].
  constructor; [by apply list_lookup_middle|].
  specialize (IH (before ++ [row])).
  by rewrite <- app_assoc, length_app, Nat.add_1_r in IH.
Qed.

Lemma tf_gather_seq {A : Type} (rows : list A) (n : nat) :
  length rows = n → tf_gather rows (seq 0 n) = Some rows.
Proof. intros <-. apply (tf_gather_seq_from [] rows). Qed.

Lemma tf_gather_opt_seq {A : Type} (rows : option (list A)) (n : nat) :
  from_option (fun l => length l = n) True rows →
  tf_gather_opt rows (seq 0 n) = Some rows.
Proof.
  destruct rows as [l|]; simpl; [|done]. intros Hlen.
  by rewrite tf_gather_seq.
Qed.

Lemma tf_gather_opt_length {A : Type} (params rows : option (list A))
    (indices : list nat) :
  tf_gather_opt params indices = Some rows →
  from_option (fun l => length l = length indices) True rows.
Proof.
  destruct params as [l|]; simpl.
  - intros (r & Hr & ->)%fmap_Some. simpl. by eapply tf_gather_length.
  - by intros [= <-].
Qed.

(** retain_boxes_above_threshold gathers every array at the positions of the
    weights that pass, and fails when one of the gathers fails. *)
Lemma retain_boxes_above_threshold_run
    boxes labels label_weights label_confidences multiclass_scores masks
    keypoints threshold st :
  let indices :=
    tf_where (map (fun w => greater_than_threshold w threshold
                            || F32.is_nan w) label_weights) in
  retain_boxes_above_threshold boxes labels label_weights label_confidences
    multiclass_scores masks keypoints threshold st
  = (match
       (retained_boxes ← tf_gather boxes indices;
        retained_labels ← tf_gather labels indices;
        retained_label_weights ← tf_gather label_weights indices;
        retained_label_confidences ← tf_gather_opt label_confidences indices;
        retained_multiclass_scores ← tf_gather_opt multiclass_scores indices;
        retained_masks ← tf_gather_opt masks indices;
        retained_keypoints ← tf_gather_opt keypoints indices;
        Some ([TBoxes retained_boxes; TInts retained_labels;
               TFloats retained_label_weights]
              ++ append_if TFloats retained_label_confidences
              ++ append_if TScores retained_multiclass_scores
              ++ append_if TMasks retained_masks
              ++ append_if TKeypoints retained_keypoints))
     with
     | Some output => Ok output
     | None => Raise InvalidArgumentError
     end, st).
Proof.
  intros indices. unfold retain_boxes_above_threshold. cbv zeta.
  fold indices.
  destruct (tf_gather boxes indices) as [rb|]; [|done].
  rewrite bind_expect_Some.
  destruct (tf_gather labels indices) as [rl|]; [|done].
  rewrite bind_expect_Some.
  destruct (tf_gather label_weights indices) as [rw|]; [|done].
  rewrite bind_expect_Some. simpl.
  destruct label_confidences as [lc|]; simpl.
  all: try (destruct (tf_gather lc indices) as [rc|]; [|done]; simpl).
  all: rewrite ?bind_assoc_run, ?bind_expect_Some, ?bind_mret.
  all: destruct multiclass_scores as [ms|]; simpl.
  all: try (destruct (tf_gather ms indices) as [rs|]; [|done]; simpl).
  all: rewrite ?bind_assoc_run, ?bind_expect_Some, ?bind_mret.
  all: destruct masks as [mk|]; simpl.
  all: try (destruct (tf_gather mk indices) as [rm|]; [|done]; simpl).
  all: rewrite ?bind_assoc_run, ?bind_expect_Some, ?bind_mret.
  all: destruct keypoints as [kp|]; simpl.
  all: try (destruct (tf_gather kp indices) as [rk|]; [|done]; simpl).
  all: by rewrite ?bind_assoc_run, ?bind_expect_Some, ?bind_mret.
Qed.

(** X19: retaining twice is retaining once.  When
    retain_boxes_above_threshold returns, calling it again with the same
    threshold on the boxes, labels, weights and optional arrays it returned
    returns them unchanged: every weight it kept passes the test again, so
    the second selection keeps every row. *)
Theorem retain_boxes_above_threshold_idempotent
    (boxes : list Box) (labels : list Z) (label_weights : list F32.t)
    (label_confidences : option (list F32.t))
    (multiclass_scores : option (list (list F32.t)))
    (masks : option Masks) (keypoints : option Keypoints)
    (threshold : F64.t) (st st' : State) (output : list Tensor) :
  retain_boxes_above_threshold boxes labels label_weights label_confidences
    multiclass_scores masks keypoints threshold st = (Ok output, st') →
  ∃ retained_boxes retained_labels retained_label_weights
    retained_label_confidences retained_multiclass_scores retained_masks
    retained_keypoints,
    output
    = [TBoxes retained_boxes; TInts retained_labels;
       TFloats retained_label_weights]
      ++ append_if TFloats retained_label_confidences
      ++ append_if TScores retained_multiclass_scores
      ++ append_if TMasks retained_masks
      ++ append_if TKeypoints retained_keypoints
    ∧ retain_boxes_above_threshold retained_boxes retained_labels
        retained_label_weights retained_label_confidences
        retained_multiclass_scores retained_masks retained_keypoints
        threshold st'
      = (Ok output, st').
Proof.
  rewrite retain_boxes_above_threshold_run. cbv zeta.
  set (keep := fun w => greater_than_threshold w threshold
                        || F32.is_nan w).
  set (indices := tf_where (map keep label_weights)).
  destruct (tf_gather boxes indices) as [rb|] eqn:Hrb; [|done].
  destruct (tf_gather labels indices) as [rl|] eqn:Hrl; [|done].
  destruct (tf_gather label_weights indices) as [rw|] eqn:Hrw; [|done].
  destruct (tf_gather_opt label_confidences indices) as [rc|] eqn:Hrc;
    [|done].
  destruct (tf_gather_opt multiclass_scores indices) as [rs|] eqn:Hrs;
    [|done].
  destruct (tf_gather_opt masks indices) as [rm|] eqn:Hrm; [|done].
  destruct (tf_gather_opt keypoints indices) as [rk|] eqn:Hrk; [|done].
  simpl. intros [= <- <-].
  exists rb, rl, rw, rc, rs, rm, rk. split; [done|].
  rewrite retain_boxes_above_threshold_run. cbv zeta. fold keep.
  assert (rw = filter (fun w => keep w = true) label_weights) as Hkept.
  { unfold indices in Hrw. rewrite tf_gather_where_filter in Hrw.
    by injection Hrw. }
  assert (tf_where (map keep rw) = seq 0 (length indices)) as ->.
  { unfold tf_where. rewrite tf_where_all_true.
    - by rewrite length_map, (tf_gather_length _ _ _ Hrw).
    - apply Forall_fmap, Forall_forall. intros w Hw. simpl.
      rewrite Hkept in Hw. by apply list_elem_of_filter in Hw as [? _]. }
  rewrite (tf_gather_seq rb) by (by eapply tf_gather_length).
  rewrite (tf_gather_seq rl) by (by eapply tf_gather_length).
  rewrite (tf_gather_seq rw) by (by eapply tf_gather_length).
  rewrite (tf_gather_opt_seq rc) by (by eapply tf_gather_opt_length).
  rewrite (tf_gather_opt_seq rs) by (by eapply tf_gather_opt_length).
  rewrite (tf_gather_opt_seq rm) by (by eapply tf_gather_opt_length).
  rewrite (tf_gather_opt_seq rk) by (by eapply tf_gather_opt_length).
  done.
Qed.

Lemma retain_boxes_above_threshold_idempotent_witness :
  let boxes := [mkBox F32.zero F32.zero F32.half F32.half;
                mkBox F32.half F32.half F32.one F32.one] in
  let kept := [mkBox F32.half F32.half F32.one F32.one] in
  retain_boxes_above_threshold boxes [1; 2] [F32.zero; F32.one] None None
    None None F64.zero initial_state
  = (Ok [TBoxes kept; TInts [2]; TFloats [F32.one]], initial_state)
  ∧ ∃ output,
      retain_boxes_above_threshold kept [2] [F32.one] None None None None
        F64.zero initial_state
      = (Ok output, initial_state).
Proof.
  intros boxes kept.
  assert (retain_boxes_above_threshold boxes [1; 2] [F32.zero; F32.one] None
            None None None F64.zero initial_state
          = (Ok [TBoxes kept; TInts [2]; TFloats [F32.one]], initial_state))
    as Hrun by (vm_compute; reflexivity).
  split; [exact Hrun|].
  destruct (retain_boxes_above_threshold_idempotent _ _ _ _ _ _ _ _ _ _ _
              Hrun)
    as (rb & rl & rw & rc & rs & rm & rk & Hout & Hagain).
  destruct rc, rs, rm, rk; try discriminate Hout.
  injection Hout as <- <- <-. eexists. exact Hagain.
Defined.

(** ** What the operations leave alone *)

Lemma writes_only_mret {A : Type} target ids (a : A) :
  writes_only target ids (mret a : M A).
Proof. by intros st res st' [= <- <-]. Qed.

Lemma writes_only_raise {A : Type} target ids (e : Error) :
  writes_only target ids (raise e : M A).
Proof. by intros st res st' [= <- <-]. Qed.

Lemma writes_only_expect {A : Type} target ids (e : Error) (o : option A) :
  writes_only target ids (expect e o).
Proof. destruct o; [apply writes_only_mret|apply writes_only_raise]. Qed.

Lemma writes_only_evaluate {A : Type} target ids (r : Result A) :
  writes_only target ids (evaluate r).
Proof. by intros st res st' [= <- <-]. Qed.

Lemma writes_only_bind {A B : Type} target ids (m : M A) (f : A -> M B) :
  writes_only target ids m → (∀ a, writes_only target ids (f a)) →
  writes_only target ids (m ≫= f).
Proof.
  intros Hm Hf st res st' Hrun r function_id key Hother.
  rewrite bind_run in Hrun.
  destruct (m st) as [[a|e] st1] eqn:Hmst.
  - rewrite (Hf a _ _ _ Hrun) by done. by eapply Hm.
  - injection Hrun as <- <-. by eapply Hm.
Qed.

Lemma writes_only_build {A : Type} target ids (m : M A) :
  writes_only target ids m → writes_only target ids (build m).
Proof.
  intros Hm st res st' Hrun r function_id key Hother. unfold build in Hrun.
  destruct (m st) as [[a|e] st1] eqn:Hmst.
  - injection Hrun as <- <-. by eapply Hm.
  - destruct (at_run_time e); injection Hrun as <- <-; by eapply Hm.
Qed.

Lemma writes_only_tf_cond {A : Type} target ids (pred : bool)
    (true_fn false_fn : M A) :
  writes_only target ids true_fn → writes_only target ids false_fn →
  writes_only target ids (tf_cond pred true_fn false_fn).
Proof.
  intros Ht Hf. unfold tf_cond.
  apply writes_only_bind; [by apply writes_only_build|]. intros t.
  apply writes_only_bind; [by apply writes_only_build|]. intros f.
  apply writes_only_evaluate.
Qed.

Lemma writes_only_mapM {A B : Type} target ids (f : A -> M B) (l : list A) :
  (∀ a, writes_only target ids (f a)) → writes_only target ids (mapM f l).
Proof.
  intros Hf. induction l as [|x l IH]; simpl.
  - apply writes_only_mret.
  - apply writes_only_bind; [apply Hf|]. intros y.
    apply writes_only_bind; [apply IH|]. intros k. apply writes_only_mret.
Qed.

Lemma writes_only_get_or_create ids (g : nat -> RandVar)
    (function_id : FunctionId) (preprocess_vars_cache : option cache_ref)
    (key : SubKey) :
  function_id ∈ ids →
  writes_only preprocess_vars_cache ids
    (_get_or_create_preprocess_rand_vars g function_id preprocess_vars_cache
       key).
Proof.
  intros Hin st res st' Hrun r function_id' key' Hother.
  destruct preprocess_vars_cache as [cache|].
  - rewrite get_or_create_run in Hrun.
    destruct (cache_of st cache !! (function_id, key));
      injection Hrun as <- <-; [done|].
    rewrite cache_of_update.
    destruct (decide (cache = r)) as [<-|]; [|done].
    apply lookup_insert_ne. intros [= <- <-].
    by destruct Hother as [Hr|Hid]; [apply Hr|apply Hid].
  - by injection Hrun as <- <-.
Qed.

Ltac frame :=
  repeat first
    [ apply writes_only_mret
    | apply writes_only_raise
    | apply writes_only_expect
    | apply writes_only_evaluate
    | apply writes_only_get_or_create;
        apply (bool_decide_unpack _); by vm_compute
    | apply writes_only_tf_cond
    | apply writes_only_build
    | apply writes_only_mapM; intros ?
    | apply writes_only_bind; [|intros ?]
    | match goal with
      | |- writes_only _ _ (match ?x with _ => _ end) => destruct x
      end
    | progress cbv zeta
    | progress autounfold with replay_unfold ].

(** X20: what the flips and the crops leave alone.  A call of
    random_horizontal_flip changes no cache entry except, in the cache it is
    given, the entry of HORIZONTAL_FLIP; random_vertical_flip only that of
    VERTICAL_FLIP; random_crop_image and ssd_random_crop only the entries of
    CROP_IMAGE, STRICT_CROP_IMAGE and SELECTOR_TUPLES.  Every other cache,
    and every entry of another operation in the same cache, is as it was,
    also when the call fails; a call without a cache changes no cache. *)
Theorem operations_write_their_entries_only `{RandomOps} `{GeometryOps}
    (image : Image) (boxes : list Box) (labels : list Z)
    (label_weights label_confidences : option (list F32.t))
    (multiclass_scores : option (list (list F32.t)))
    (masks : option Masks) (keypoints : option Keypoints)
    (keypoint_flip_permutation : option (list nat)) (seed : option Z)
    (preprocess_vars_cache : option cache_ref) :
  writes_only preprocess_vars_cache [HORIZONTAL_FLIP]
    (random_horizontal_flip image (Some boxes) masks keypoints
       keypoint_flip_permutation seed preprocess_vars_cache)
  ∧ writes_only preprocess_vars_cache [VERTICAL_FLIP]
      (random_vertical_flip image (Some boxes) masks keypoints
         keypoint_flip_permutation seed preprocess_vars_cache)
  ∧ (∀ min_object_covered aspect_ratio_range area_range overlap_thresh
       clip_boxes random_coef,
       writes_only preprocess_vars_cache [CROP_IMAGE; STRICT_CROP_IMAGE]
         (random_crop_image image boxes labels label_weights
            label_confidences multiclass_scores masks keypoints
            min_object_covered aspect_ratio_range area_range overlap_thresh
            clip_boxes random_coef seed preprocess_vars_cache))
  ∧ (∀ min_object_covered aspect_ratio_range area_range overlap_thresh
       clip_boxes random_coef,
       writes_only preprocess_vars_cache
         [CROP_IMAGE; STRICT_CROP_IMAGE; SELECTOR_TUPLES]
         (ssd_random_crop image boxes labels label_weights label_confidences
            multiclass_scores masks keypoints min_object_covered
            aspect_ratio_range area_range overlap_thresh clip_boxes
            random_coef seed preprocess_vars_cache)).
Proof.
  split; [frame|]. split; [frame|]. split; intros; frame.
Qed.

Lemma operations_write_their_entries_only_witness :
  let image : Image := [[[F32.one]; [F32.zero]]; [[F32.half]; [F32.zero]]] in
  let boxes := [mkBox F32.zero F32.zero F32.half F32.half] in
  let st :=
    mkState {[ 0%nat := {[ (HORIZONTAL_FLIP, KStr "") := RVFloat F32.one ]};
               1%nat := {[ (CROP_IMAGE, KStr "") := RVFloat F32.zero ]} ]}
            0 in
  let st' :=
    (@ssd_random_crop sample_random_ops sample_geometry_ops
       image boxes [1] None None None None None default_min_object_covered
       default_aspect_ratio_range default_area_range default_overlap_thresh
       default_clip_boxes default_random_coef None (Some 0%nat) st).2 in
  cache_of st' 0%nat !! (HORIZONTAL_FLIP, KStr "")
  = cache_of st 0%nat !! (HORIZONTAL_FLIP, KStr "")
  ∧ cache_of st' 1%nat !! (CROP_IMAGE, KStr "")
    = cache_of st 1%nat !! (CROP_IMAGE, KStr "").
Proof.
  intros image boxes st st'.
  pose proof (proj2 (proj2 (proj2
                (@operations_write_their_entries_only
                   sample_random_ops sample_geometry_ops
                   image boxes [1] None None None None None None None
                   (Some 0%nat))))
                default_min_object_covered default_aspect_ratio_range
                default_area_range default_overlap_thresh default_clip_boxes
                default_random_coef st _ st' (surjective_pairing _))
    as Hframe.
  split; apply Hframe.
  - right. apply (bool_decide_unpack _). by vm_compute.
  - left. discriminate.
Defined.

(** ** Rotation by 90 degrees *)

Lemma omap_lookup_column {A : Type} (rows : list (list A)) (i j : nat) :
  Forall (fun row => j < length row)%nat rows →
  omap (fun row : list A => row !! j) rows !! i
  = rows !! i ≫= fun row => row !! j.
Proof.
  intros Hall. revert i. induction Hall as [|row rows Hrow _ IH]; intros i.
  - done.
  - simpl. destruct (lookup_lt_is_Some_2 row j Hrow) as [x Hx].
    rewrite Hx. destruct i as [|i]; simpl; [done|apply IH].
Qed.

Lemma omap_column_length {A : Type} (rows : list (list A)) (j : nat) :
  Forall (fun row => j < length row)%nat rows →
  length (omap (fun row : list A => row !! j) rows) = length rows.
Proof.
  induction 1 as [|row rows Hrow _ IH]; simpl; [done|].
  destruct (lookup_lt_is_Some_2 row j Hrow) as [x ->]. simpl. f_equal.
  apply IH.
Qed.

Lemma transpose_hw_columns {A : Type} (height width : nat)
    (rows : list (list A)) :
  (0 < height)%nat → has_shape_hw height width rows →
  transpose_hw rows
  = map (fun j => omap (fun row : list A => row !! j) rows) (seq 0 width).
Proof.
  intros Hpos [Hlen Hrows]. unfold transpose_hw.
  destruct rows as [|row rows]; [simpl in Hlen; lia|].
  by rewrite (Forall_inv Hrows).
Qed.

Lemma transpose_hw_shape {A : Type} (height width : nat)
    (rows : list (list A)) :
  (0 < height)%nat → has_shape_hw height width rows →
  has_shape_hw width height (transpose_hw rows).
Proof.
  intros Hpos Hshape. rewrite (transpose_hw_columns height width) by done.
  destruct Hshape as [Hlen Hrows]. split.
  - by rewrite length_map, length_seq.
  - apply Forall_fmap, Forall_forall. intros j Hj%elem_of_seq. simpl.
    rewrite omap_column_length; [done|].
    eapply Forall_impl; [done|]. intros row ->. simpl. lia.
Qed.

Lemma transpose_hw_lookup {A : Type} (height width : nat)
    (rows : list (list A)) (i j : nat) :
  (0 < height)%nat → has_shape_hw height width rows → (j < width)%nat →
  transpose_hw rows !! j ≫= (fun column => column !! i)
  = rows !! i ≫= fun row => row !! j.
Proof.
  intros Hpos Hshape Hj. rewrite (transpose_hw_columns height width) by done.
  rewrite list_lookup_fmap, lookup_seq_lt by done. simpl.
  apply omap_lookup_column. destruct Hshape as [_ Hrows].
  eapply Forall_impl; [done|]. by intros row ->.
Qed.

Lemma map_rev_shape {A : Type} (height width : nat) (rows : list (list A)) :
  has_shape_hw height width rows →
  has_shape_hw height width (map (@rev A) rows).
Proof.
  intros [Hlen Hrows]. split; [by rewrite length_map|].
  apply Forall_fmap. eapply Forall_impl; [done|].
  intros row Hrow. simpl. by rewrite length_rev.
Qed.

Lemma rev_shape {A : Type} (height width : nat) (rows : list (list A)) :
  has_shape_hw height width rows → has_shape_hw height width (rev rows).
Proof.
  intros [Hlen Hrows]. split; [by rewrite length_rev|].
  apply Forall_forall. intros row Hrow.
  apply list_elem_of_In, in_rev, list_elem_of_In in Hrow.
  by apply (proj1 (Forall_forall _ _) Hrows).
Qed.

Lemma rev_lookup {A : Type} (l : list A) (i : nat) :
  (i < length l)%nat → rev l !! i = l !! (length l - S i)%nat.
Proof.
  intros Hi. rewrite rev_alt. by apply (reverse_lookup l i).
Qed.

(** Reversing the rows of the transposed array is transposing the array
    whose rows are reversed: the masks turn as the image does. *)
Lemma rev_transpose_hw {A : Type} (height width : nat)
    (rows : list (list A)) :
  (0 < height)%nat → has_shape_hw height width rows →
  rev (transpose_hw rows) = transpose_hw (map (@rev A) rows).
Proof.
  intros Hpos Hshape.
  rewrite (transpose_hw_columns height width rows) by done.
  rewrite (transpose_hw_columns height width (map (@rev A) rows))
    by (by try apply map_rev_shape).
  destruct Hshape as [Hlen Hrows].
  apply list_eq. intros k.
  destruct (decide (k < width)%nat) as [Hk|Hk].
  - rewrite rev_lookup by (by rewrite length_map, length_seq).
    rewrite length_map, length_seq, !list_lookup_fmap.
    rewrite !lookup_seq_lt by lia. simpl. f_equal.
    apply list_omap_ext, Forall2_fmap_r, Forall_Forall2_diag.
    eapply Forall_impl; [done|]. intros row Hrow. simpl in *.
    rewrite rev_lookup by lia. by rewrite Hrow.
  - rewrite !lookup_ge_None_2; [done|..];
      rewrite ?length_rev, length_map, length_seq; lia.
Qed.

Lemma transpose_hw_involutive {A : Type} (height width : nat)
    (rows : list (list A)) :
  (0 < height)%nat → (0 < width)%nat → has_shape_hw height width rows →
  transpose_hw (transpose_hw rows) = rows.
Proof.
  intros Hh Hw Hshape.
  pose proof (transpose_hw_shape height width rows Hh Hshape) as Hshape'.
  rewrite (transpose_hw_columns width height (transpose_hw rows)) by done.
  destruct Hshape as [Hlen Hrows]. destruct Hshape' as [Hlen' Hcolumns].
  apply list_eq. intros i. rewrite list_lookup_fmap.
  destruct (decide (i < height)%nat) as [Hi|Hi].
  - rewrite lookup_seq_lt by done. simpl.
    destruct (lookup_lt_is_Some_2 rows i) as [row Hrow]; [lia|].
    rewrite Hrow. f_equal. apply list_eq. intros j.
    rewrite omap_lookup_column.
    2:{ eapply Forall_impl; [done|]. intros column ->. done. }
    destruct (decide (j < width)%nat) as [Hj|Hj].
    + rewrite (transpose_hw_lookup height width) by done.
      by rewrite Hrow.
    + rewrite (lookup_ge_None_2 (transpose_hw rows)) by lia. simpl.
      symmetry. apply lookup_ge_None_2.
      rewrite (proj1 (Forall_lookup _ _) Hrows _ _ Hrow). lia.
  - rewrite lookup_seq_ge by lia. simpl. symmetry.
    apply lookup_ge_None_2. lia.
Qed.

Lemma rot90_shape (height width : nat) (image : Image) :
  (0 < height)%nat → has_shape_hw height width image →
  has_shape_hw width height (rot90 image).
Proof.
  intros Hh Hshape. apply transpose_hw_shape; [done|].
  by apply map_rev_shape.
Qed.

(** Two rotations reverse both axes. *)
Lemma rot90_twice (height width : nat) (image : Image) :
  (0 < height)%nat → (0 < width)%nat → has_shape_hw height width image →
  rot90 (rot90 image) = flip_up_down (flip_left_right image).
Proof.
  intros Hh Hw Hshape. unfold rot90, flip_up_down, flip_left_right.
  pose proof (map_rev_shape _ _ _ Hshape) as Hshape'.
  rewrite <- (rev_transpose_hw width height)
    by (by try apply transpose_hw_shape).
  by rewrite (transpose_hw_involutive height width).
Qed.

(** X21: random_rotation90 turns the image, the boxes and the masks
    together.  With its decision in the cache, the call returns the image,
    the boxes and the masks rotated when the draw is above 0.5 and as they
    were given otherwise, and leaves the state as it is.  For an image and
    masks of one height and width, both positive, the rotated image and
    masks have the width as height and the height as width, each mask is
    turned as the image is, two rotations of the image are the horizontal
    flip followed by the vertical flip, and four rotations give the image
    back. *)
Theorem random_rotation90_turns `{RandomOps} `{KeypointRotation}
    (image : Image) (boxes : list Box) (masks : Masks) (seed : option Z)
    (cache : cache_ref) (st : State) (draw : F32.t) (height width : nat) :
  cache_of st cache !! (ROTATION90, KStr "") = Some (RVFloat draw) →
  (0 < height)%nat → (0 < width)%nat →
  has_shape_hw height width image →
  Forall (has_shape_hw height width) masks →
  random_rotation90 image (Some boxes) (Some masks) None seed (Some cache) st
  = (Ok (if F32.greater draw F32.half
         then [TImage (rot90 image); TBoxes (_rot90_boxes boxes);
               TMasks (_rot90_masks masks)]
         else [TImage image; TBoxes boxes; TMasks masks]), st)
  ∧ has_shape_hw width height (rot90 image)
  ∧ Forall (has_shape_hw width height) (_rot90_masks masks)
  ∧ _rot90_masks masks
    = map (fun mask => transpose_hw (map (@rev _) mask)) masks
  ∧ rot90 (rot90 image) = flip_up_down (flip_left_right image)
  ∧ rot90 (rot90 (rot90 (rot90 image))) = image.
Proof.
  intros Hcached Hh Hw Himage Hmasks.
  assert (_rot90_masks masks
          = map (fun mask => transpose_hw (map (@rev _) mask)) masks)
    as Hturn.
  { unfold _rot90_masks. cbv zeta. rewrite map_map.
    apply map_ext_Forall. eapply Forall_impl; [done|].
    intros mask Hmask. simpl. by apply (rev_transpose_hw height width). }
  split; [|split; [by apply rot90_shape|split; [|split; [done|split]]]].
  - unfold random_rotation90. cbv zeta.
    rewrite bind_run, get_or_create_run, Hcached. simpl.
    rewrite bind_mret. by destruct (F32.greater draw F32.half).
  - rewrite Hturn. apply Forall_fmap. eapply Forall_impl; [done|].
    intros mask Hmask. simpl. apply transpose_hw_shape; [done|].
    by apply map_rev_shape.
  - by apply (rot90_twice height width).
  - rewrite (rot90_twice height width (rot90 (rot90 image))).
    + rewrite (rot90_twice height width image) by done.
      unfold flip_up_down, flip_left_right.
      by rewrite map_rev, rev_involutive, map_rev_involutive.
    + done.
    + done.
    + rewrite (rot90_twice height width image) by done.
      by apply rev_shape, map_rev_shape.
Qed.

Lemma random_rotation90_turns_witness :
  let image : Image := [[[F32.one]; [F32.zero]]] in
  let masks : Masks := [[[F32.one; F32.half]]] in
  let boxes := [mkBox F32.zero F32.zero F32.half F32.one] in
  let st :=
    mkState {[ 0%nat := {[ (ROTATION90, KStr "") := RVFloat F32.one ]} ]} 0 in
  @random_rotation90 sample_random_ops
    (Build_KeypointRotation (fun keypoints => keypoints))
    image (Some boxes) (Some masks) None None (Some 0%nat) st
  = (Ok [TImage [[[F32.zero]]; [[F32.one]]];
         TBoxes [mkBox F32.zero F32.zero F32.one F32.half];
         TMasks [[[F32.half]; [F32.one]]]], st).
Proof.
  intros image masks boxes st.
  destruct (@random_rotation90_turns sample_random_ops
              (Build_KeypointRotation (fun keypoints => keypoints))
              image boxes masks None 0%nat st F32.one 1 2) as [Hrun _].
  - vm_compute. reflexivity.
  - lia.
  - lia.
  - split; [reflexivity|]. repeat constructor.
  - repeat constructor.
  - etrans; [exact Hrun|]. vm_compute. reflexivity.
Defined.
